(** * dataset/scrape.py: the field-goal dataset pipeline

    A shallow embedding of [src/dataset/scrape.py] and the properties of
    its functions.  The script talks to three libraries (requests, pandas,
    pathlib/csv); the part of their behaviour that the script relies on is
    modelled next to the function that uses it, and every such definition
    says which library call it stands for.

    Layout: Python values and exceptions, data frames and the tabular
    conversion; the interpreter state and the API client; the pandas
    operations and the weekly routine; CSV consolidation; the filesystem
    and the directory utilities; the notions used in the statements; then
    the properties, function by function. *)

From Stdlib Require Import ZArith List String Ascii Bool Lia.
From Stdlib Require Import DecimalString DecimalPos DecimalZ Sorted.
From stdpp Require Import base option list gmap strings.
Import ListNotations.
Set Warnings "-register-all".
Local Open Scope string_scope.
Local Open Scope list_scope.
Local Open Scope Z_scope.

(** ** Python values *)

(** Decoded JSON, as [response.json()] hands it to the script.  Numbers are
    integers: the identifiers and labels that the script inspects are
    integers or strings, and fractional numbers only occur in columns that
    are passed through untouched. *)
Inductive scalar : Type :=
  | SNull
  | SBool (b : bool)
  | SNum (z : Z)
  | SStr (s : string).

Inductive json : Type :=
  | JScalar (v : scalar)
  | JArr (items : list json)
  | JObj (fields : list (string * json)).

Definition JNull : json := JScalar SNull.
Definition JNum (z : Z) : json := JScalar (SNum z).
Definition JStr (s : string) : json := JScalar (SStr s).

#[global] Instance scalar_eq_dec : EqDecision scalar.
Proof. solve_decision. Defined.

(** [isinstance(v, list)] and [isinstance(v, dict)]. *)
Definition is_list (v : json) : bool :=
  match v with JArr _ => true | _ => false end.

Definition is_dict (v : json) : bool :=
  match v with JObj _ => true | _ => false end.

(** A record is a decoded JSON object: an insertion-ordered dict with
    distinct keys. *)
Definition record : Type := list (string * json).

Fixpoint dict_get (k : string) (d : record) : option json :=
  match d with
  | [] => None
  | (k', v) :: d' => if String.eqb k k' then Some v else dict_get k d'
  end.

(** ** Exceptions *)

Inductive exn : Type :=
  | AssertionError (msg : string)
  | KeyError (key : string)
  | ValueError (msg : string)
  | TypeError (msg : string)
  | MergeError (msg : string)
  | StopIteration
  | RequestException (msg : string) (status_code : Z) (text : string)
  | JSONDecodeError
  | FileNotFoundError
  | FileExistsError
  | NotADirectoryError
  | IsADirectoryError
  | OSError (errno : string)
  | RecursionError
  (** the embedding stops here: the library call is used outside the part
      of its behaviour that is modelled *)
  | Unmodelled (what : string).

Definition result (A : Type) : Type := exn + A.

Definition Ok {A} (a : A) : result A := inr a.
Definition Raise {A} (e : exn) : result A := inl e.

Definition rbind {A B} (m : result A) (f : A -> result B) : result B :=
  match m with
  | inl e => inl e
  | inr a => f a
  end.

#[global] Instance result_ret : MRet result := fun A a => inr a.
#[global] Instance result_bind : MBind result := fun A B f m => rbind m f.

Definition is_ok {A} (r : result A) : bool :=
  match r with inr _ => true | inl _ => false end.

(** ** Data frames *)

(** A [pd.DataFrame] with string column labels: the labels in order and the
    rows, each row holding one cell per label.  A missing cell (NaN/None)
    is [JNull]. *)
Record DataFrame : Type := mkDF {
  columns : list string;
  rows : list (list json);
}.

Definition NaN : json := JNull.

(** Keys of a list of records in order of first appearance: the column
    order [pd.DataFrame] gives a list of dicts. *)
Fixpoint add_keys (seen : list string) (d : record) : list string :=
  match d with
  | [] => seen
  | (k, _) :: d' =>
      if bool_decide (k ∈ seen) then add_keys seen d'
      else add_keys (seen ++ [k]) d'
  end.

Definition union_keys (rs : list record) : list string :=
  fold_left add_keys rs [].

Definition row_of_record (cols : list string) (r : record) : list json :=
  map (fun c => default NaN (dict_get c r)) cols.

Definition frame_of_records (rs : list record) : DataFrame :=
  let cols := union_keys rs in
  mkDF cols (map (row_of_record cols) rs).

Fixpoint as_records (items : list json) : option (list record) :=
  match items with
  | [] => Some []
  | JObj d :: items' => option_map (cons d) (as_records items')
  | _ :: _ => None
  end.

(** [pd.DataFrame(data)].  A list of dicts gives one row per dict and
    [None] gives the empty frame; any other scalar is refused by pandas.
    What pandas builds from a bare dict or from a list with other element
    shapes (integer column labels, nested lists) is not modelled. *)
Definition pd_DataFrame (data : json) : result DataFrame :=
  match data with
  | JArr items =>
      match as_records items with
      | Some rs => Ok (frame_of_records rs)
      | None => Raise (Unmodelled "pd.DataFrame of a list with non-dict items")
      end
  | JScalar SNull => Ok (mkDF [] [])
  | JScalar _ => Raise (ValueError "DataFrame constructor not properly called!")
  | JObj _ => Raise (Unmodelled "pd.DataFrame of a dict")
  end.

(** ** CFBDClient.response_as_df *)

(** Lines 87-94: the rebinding of [response] before the frame is built. *)
Definition response_sequence (response : json) : json :=
  match response with
  | JObj d =>
      if forallb (fun kv => is_list (snd kv)) d && (length d =? 1)%nat then
        match d with
        | (_, v) :: _ => v                     (* next(iter(response.values())) *)
        | [] => JArr [JObj d]
        end
      else JArr [JObj d]
  | _ => response
  end.

Definition response_as_df (response : json) : result DataFrame :=
  pd_DataFrame (response_sequence response).

(** ** The interpreter state: heap of dicts, request log, files written *)

Abbreviation loc := nat (only parsing).
Abbreviation headers_dict := (gmap string string) (only parsing).

Inductive param : Type :=
  | PInt (z : Z)
  | PStr (s : string).

(** What [requests.get] is called with. *)
Record request : Type := mkRequest {
  url : string;
  req_headers : headers_dict;
  req_params : option (list (string * param));
}.

(** What [requests.get] returns: [body] is [None] when [response.json()]
    cannot decode the text. *)
Record http_response : Type := mkResponse {
  status_code : Z;
  text : string;
  body : option json;
}.

(** [response.ok] of requests: false exactly for the statuses on which
    [raise_for_status] raises, 400 to 599. *)
Definition ok (r : http_response) : bool :=
  negb ((400 <=? status_code r) && (status_code r <? 600)).

(** The remote server: one response per request. *)
Definition server : Type := request -> http_response.

Record world : Type := mkWorld {
  heap : gmap loc headers_dict;       (* the dict objects, by reference *)
  log : list request;                 (* requests sent so far, oldest first *)
  disk : list (string * DataFrame);   (* tables written by to_csv, newest first *)
}.

(** Computations over a state [S] that may raise; the state survives an
    exception. *)
Definition ST (S A : Type) : Type := S -> result A * S.

#[global] Instance ST_ret {S} : MRet (ST S) := fun A a w => (inr a, w).
#[global] Instance ST_bind {S} : MBind (ST S) := fun A B f m w =>
  match m w with
  | (inl e, w') => (inl e, w')
  | (inr a, w') => f a w'
  end.

Definition raise {S A} (e : exn) : ST S A := fun w => (inl e, w).
Definition lift {S A} (r : result A) : ST S A := fun w => (r, w).

(** [for x in xs: body(x)] *)
Fixpoint for_each {S A} (xs : list A) (body : A -> ST S unit) : ST S unit :=
  match xs with
  | [] => mret tt
  | x :: xs' => _ ← body x; for_each xs' body
  end.

Abbreviation M := (ST world).

Definition fresh_loc (h : gmap loc headers_dict) : loc := fresh (dom h).

(** [dict()] / [{}]: a new dict object. *)
Definition new_dict : M loc := fun w =>
  let l := fresh_loc (heap w) in
  (inr l, mkWorld (<[l := ∅]> (heap w)) (log w) (disk w)).

Definition deref (l : loc) (w : world) : headers_dict :=
  default ∅ (heap w !! l).

(** [d[k] = v] *)
Definition dict_setitem (l : loc) (k v : string) : M unit := fun w =>
  (inr tt, mkWorld (<[l := <[k := v]> (deref l w)]> (heap w)) (log w) (disk w)).

(** [d.update(other)]: the entries of [other] are written into [d], over
    whatever [d] held under the same keys. *)
Definition dict_update (l other : loc) : M unit := fun w =>
  (inr tt, mkWorld (<[l := deref other w ∪ deref l w]> (heap w)) (log w) (disk w)).

(** [requests.get(url=..., headers=..., params=...)]: the headers are read
    off the dict at the time of the call. *)
Definition requests_get (srv : server) (u : string) (hdrs : loc)
    (params : option (list (string * param))) : M http_response := fun w =>
  let rq := mkRequest u (deref hdrs w) params in
  (inr (srv rq), mkWorld (heap w) (log w ++ [rq]) (disk w)).

(** [df.to_csv(path, index=False)] *)
Definition to_csv (df : DataFrame) (path : string) : M unit := fun w =>
  (inr tt, mkWorld (heap w) (log w) ((path, df) :: disk w)).

(** ** CFBDClient *)

Record CFBDClient : Type := mkClient {
  hostname : string;
  headers : loc;
}.

(** [CFBDClient.__init__] *)
Definition CFBDClient_init (hostname bearer_token : string) : M CFBDClient :=
  h ← new_dict;
  _ ← dict_setitem h "Authorization" ("Bearer " ++ bearer_token)%string;
  mret (mkClient hostname h).

(** [str(n)] for an integer. *)
Definition str_of_Z (z : Z) : string := NilZero.string_of_int (Z.to_int z).

Inductive get_value : Type :=
  | Raw (json_data : json)
  | Frame (df : DataFrame).

(** [CFBDClient.get].  The server always answers: a request that fails in
    transit, with no response at all, is not modelled. *)
Definition get (srv : server) (self : CFBDClient) (subpath : string)
    (hdrs : option loc) (params : option (list (string * param)))
    (as_df : bool) : M get_value :=
  hdrs ← match hdrs with
         | None => new_dict
         | Some l => mret l
         end;
  _ ← dict_update hdrs (headers self);
  response ← requests_get srv (hostname self ++ "/" ++ subpath)%string hdrs params;
  if negb (ok response) then
    raise (RequestException
             (str_of_Z (status_code response) ++ ": " ++ text response)%string
             (status_code response) (text response))
  else
    json_data ← match body response with
                | Some j => mret j
                | None => raise JSONDecodeError
                end;
    if negb as_df then mret (Raw json_data)
    else df ← lift (response_as_df json_data); mret (Frame df).

(** ** pandas operations used by the weekly routine *)

(** Labels are compared as strings. *)
Definition has_label (c : string) (cols : list string) : bool :=
  bool_decide (c ∈ cols).

Definition unique_labels (cols : list string) : bool :=
  bool_decide (NoDup cols).

Fixpoint label_index (c : string) (cols : list string) : option nat :=
  match cols with
  | [] => None
  | c' :: cols' =>
      if String.eqb c c' then Some O
      else option_map S (label_index c cols')
  end.

Definition cell_at (i : nat) (row : list json) : json := nth i row NaN.

(** [df[c]] for one label: the column as a list of cells.  With a repeated
    label pandas returns a frame instead; that is not modelled. *)
Definition getitem (df : DataFrame) (c : string) : result (list json) :=
  if negb (unique_labels (columns df)) then
    Raise (Unmodelled "repeated column label")
  else
    match label_index c (columns df) with
    | None => Raise (KeyError c)
    | Some i => Ok (map (cell_at i) (rows df))
    end.

(** [df[[c1, ..., cn]]]: the listed columns, in the listed order. *)
Definition getitems (df : DataFrame) (cs : list string) : result DataFrame :=
  if negb (unique_labels (columns df)) then
    Raise (Unmodelled "repeated column label")
  else
    match filter (fun c => negb (has_label c (columns df))) cs with
    | missing :: _ => Raise (KeyError missing)
    | [] =>
        let idx := omap (fun c => label_index c (columns df)) cs in
        Ok (mkDF cs (map (fun row => map (fun i => cell_at i row) idx) (rows df)))
    end.

Fixpoint set_nth {A} (i : nat) (x : A) (l : list A) : list A :=
  match i, l with
  | _, [] => []
  | O, _ :: l' => x :: l'
  | S i', y :: l' => y :: set_nth i' x l'
  end.

(** [df[c] = values] for an existing label [c] and a column of the frame's
    own length (the script only assigns to ['made'], from ['made']). *)
Definition setitem (df : DataFrame) (c : string) (values : list json)
    : result DataFrame :=
  if negb (unique_labels (columns df)) then
    Raise (Unmodelled "repeated column label")
  else
    match label_index c (columns df) with
    | None => Raise (Unmodelled "assignment to a new column")
    | Some i =>
        Ok (mkDF (columns df)
                 (zip_with (fun row v => set_nth i v row) (rows df) values))
    end.

(** [df.rename(columns=mapping, inplace=True)]: labels absent from the
    mapping, and mapping keys absent from the frame, are left alone. *)
Definition rename (mapping : list (string * string)) (df : DataFrame)
    : DataFrame :=
  mkDF (map (fun c => default c (snd <$> find (fun kv => String.eqb c (fst kv)) mapping))
            (columns df))
       (rows df).

Fixpoint remove_nth {A} (i : nat) (l : list A) : list A :=
  match i, l with
  | _, [] => []
  | O, _ :: l' => l'
  | S i', y :: l' => y :: remove_nth i' l'
  end.

(** [df.drop(columns=c, inplace=True)] *)
Definition drop_column (c : string) (df : DataFrame) : result DataFrame :=
  if negb (unique_labels (columns df)) then
    Raise (Unmodelled "repeated column label")
  else
    match label_index c (columns df) with
    | None => Raise (KeyError c)
    | Some i => Ok (mkDF (remove_nth i (columns df)) (map (remove_nth i) (rows df)))
    end.

(** Python's [==] on scalars, with pandas' rule that missing keys match
    each other: [True == 1], [False == 0]. *)
Definition scalar_num (v : scalar) : scalar :=
  match v with
  | SBool b => SNum (if b then 1 else 0)
  | _ => v
  end.

Definition py_eqb (a b : scalar) : bool :=
  bool_decide (scalar_num a = scalar_num b).

(** The join key of a row; a list or dict is unhashable. *)
Definition key_of (i : nat) (row : list json) : result scalar :=
  match cell_at i row with
  | JScalar v => Ok v
  | _ => Raise (TypeError "unhashable type")
  end.

Definition keys_of (i : nat) (rs : list (list json)) : result (list scalar) :=
  mapM (key_of i) rs.

Inductive how : Type := HowLeft | HowInner.

(** Rows of [right] whose key equals [k], in [right]'s order. *)
Definition matches (k : scalar) (rkeys : list scalar) (rrows : list (list json))
    : list (list json) :=
  snd <$> filter (fun kr => py_eqb k (fst kr)) (zip rkeys rrows).

(** The output rows for one row of [left]. *)
Definition join_row (h : how) (width : nat) (rkeys : list scalar)
    (rrows : list (list json)) (k : scalar) (lrow : list json)
    : list (list json) :=
  match matches k rkeys rrows, h with
  | [], HowLeft => [lrow ++ replicate width NaN]
  | ms, _ => map (fun r => lrow ++ r) ms
  end.

Definition suffixed (overlap : list string) (suffix : string) (c : string)
    : string :=
  if has_label c overlap then (c ++ suffix)%string else c.

(** [pd.merge(left, right, how=h, left_on=lk, right_on=rk)], with
    [on=k] being [left_on=k, right_on=k].

    - a key label that is not a column: [KeyError];
    - when both keys have the same label the key column appears once, at
      its place in [left];
    - labels that occur on both sides get the suffixes [_x] and [_y]; a
      repeated label made by the suffix on one side is a [MergeError];
    - every row of [left] is paired, in [right]'s order, with the rows of
      [right] whose key is equal; [how='left'] keeps an unpaired row of
      [left] once, padded with NaN, and [how='inner'] drops it.

    Rows are produced in [left]'s order.  (For [how='inner'] pandas may
    order them differently; nothing below depends on the order of an inner
    join.)  Key columns of unlike dtype, which pandas may refuse to
    compare, and frames with repeated labels are not modelled. *)
Definition pd_merge (left right : DataFrame) (h : how) (lk rk : string)
    : result DataFrame :=
  if negb (unique_labels (columns left) && unique_labels (columns right)) then
    Raise (Unmodelled "repeated column label")
  else
    match label_index lk (columns left), label_index rk (columns right) with
    | None, _ => Raise (KeyError lk)
    | _, None => Raise (KeyError rk)
    | Some li, Some ri =>
        lkeys ← keys_of li (rows left);
        rkeys ← keys_of ri (rows right);
        let same := String.eqb lk rk in
        let rcols := if same then remove_nth ri (columns right) else columns right in
        let rrows := if same then map (remove_nth ri) (rows right) else rows right in
        let overlap := filter (fun c => has_label c rcols) (columns left) in
        let llabels := map (suffixed overlap "_x") (columns left) in
        let rlabels := map (suffixed overlap "_y") rcols in
        if negb (unique_labels llabels && unique_labels rlabels) then
          Raise (MergeError "suffixes cause duplicate columns")
        else if negb (unique_labels (llabels ++ rlabels)) then
          Raise (Unmodelled "repeated column label")
        else
          Ok (mkDF (llabels ++ rlabels)
                   (concat (zip_with (join_row h (length rcols) rkeys rrows)
                                     lkeys (rows left))))
    end.

(** ** The 0/1 indicator *)

(** [series.fillna(0)] *)
Definition fillna0 (v : json) : json :=
  match v with
  | JScalar SNull => JNum 0
  | _ => v
  end.

(** [series.replace({'Field Goal Made': 1, 0: 0})] *)
Definition replace_made (v : json) : json :=
  match v with
  | JScalar s =>
      if py_eqb s (SStr "Field Goal Made") then JNum 1
      else if py_eqb s (SNum 0) then JNum 0
      else v
  | _ => v
  end.

(** Python's [int(s)] on ASCII text: blanks around an optional sign and
    decimal digits, single underscores allowed between digits. *)
Definition is_space (c : ascii) : bool :=
  let n := nat_of_ascii c in
  ((9 <=? n) && (n <=? 13) || (28 <=? n) && (n <=? 32))%nat.

Definition digit_of (c : ascii) : option Z :=
  let n := Z.of_nat (nat_of_ascii c) in
  if (48 <=? n) && (n <=? 57) then Some (n - 48) else None.

Fixpoint int_digits (acc : Z) (after_digit : bool) (cs : list ascii)
    : option Z :=
  match cs with
  | [] => if after_digit then Some acc else None
  | c :: cs' =>
      match digit_of c with
      | Some d => int_digits (10 * acc + d) true cs'
      | None =>
          if Ascii.eqb c "_" && after_digit then int_digits acc false cs'
          else None
      end
  end.

Fixpoint lstrip (cs : list ascii) : list ascii :=
  match cs with
  | c :: cs' => if is_space c then lstrip cs' else cs
  | [] => []
  end.

Definition strip (cs : list ascii) : list ascii :=
  rev (lstrip (rev (lstrip cs))).

Definition py_int_of_string (s : string) : option Z :=
  match strip (list_ascii_of_string s) with
  | "-"%char :: cs => Z.opp <$> int_digits 0 false cs
  | "+"%char :: cs => int_digits 0 false cs
  | cs => int_digits 0 false cs
  end.

(** One cell of [series.astype(int)] on an object column. *)
Definition astype_int (v : json) : result json :=
  match v with
  | JScalar (SNum z) => Ok (JNum z)
  | JScalar (SBool b) => Ok (JNum (if b then 1 else 0))
  | JScalar (SStr s) =>
      match py_int_of_string s with
      | Some z => Ok (JNum z)
      | None => Raise (ValueError "invalid literal for int() with base 10")
      end
  | JScalar SNull => Raise (TypeError "int() argument must not be NoneType")
  | _ => Raise (TypeError "int() argument must be a string or a number")
  end.

(** ** get_field_goal_data *)

(** The enum [StatTypes]: stat ids of the API, by name. *)
Module StatTypes.

Inductive t : Type :=
  | INCOMPLETION | TARGET | PASS_BREAKUP | COMPLETION | RECEPTION | TACKLE
  | RUSH | FUMBLE | FUMBLE_FORCED | FUMBLE_RECOVERED | SACK_TAKEN | SACK
  | KICKOFF | ONSIDE_KICK | KICKOFF_RETURN | PUNT | PUNT_BLOCK
  | FG_ATTEMPT_BLOCKED | FIELD_GOAL_BLOCK | INTERCEPTION_THROWN
  | INTERCEPTION | TOUCHDOWN | FIELD_GOAL_ATTEMPT | FIELD_GOAL_MADE
  | FIELD_GOAL_MISSED.

(** The members in definition order, as iterating the enum gives them. *)
Definition members : list t :=
  [INCOMPLETION; TARGET; PASS_BREAKUP; COMPLETION; RECEPTION; TACKLE;
   RUSH; FUMBLE; FUMBLE_FORCED; FUMBLE_RECOVERED; SACK_TAKEN; SACK;
   KICKOFF; ONSIDE_KICK; KICKOFF_RETURN; PUNT; PUNT_BLOCK;
   FG_ATTEMPT_BLOCKED; FIELD_GOAL_BLOCK; INTERCEPTION_THROWN;
   INTERCEPTION; TOUCHDOWN; FIELD_GOAL_ATTEMPT; FIELD_GOAL_MADE;
   FIELD_GOAL_MISSED].

(** [member.value] *)
Definition value (m : t) : Z :=
  match m with
  | INCOMPLETION => 1 | TARGET => 2 | PASS_BREAKUP => 3 | COMPLETION => 4
  | RECEPTION => 5 | TACKLE => 6 | RUSH => 7 | FUMBLE => 8
  | FUMBLE_FORCED => 9 | FUMBLE_RECOVERED => 10 | SACK_TAKEN => 11
  | SACK => 12 | KICKOFF => 13 | ONSIDE_KICK => 14 | KICKOFF_RETURN => 15
  | PUNT => 16 | PUNT_BLOCK => 17 | FG_ATTEMPT_BLOCKED => 18
  | FIELD_GOAL_BLOCK => 19 | INTERCEPTION_THROWN => 20 | INTERCEPTION => 21
  | TOUCHDOWN => 22 | FIELD_GOAL_ATTEMPT => 23 | FIELD_GOAL_MADE => 24
  | FIELD_GOAL_MISSED => 25
  end.

(** [StatTypes(v)]: the first member with that value, [ValueError] if
    there is none. *)
Definition of_value (v : Z) : result t :=
  match find (fun m => value m =? v) members with
  | Some m => Ok m
  | None => Raise (ValueError "not a valid StatTypes")
  end.

End StatTypes.

(** [StatTypes.FIELD_GOAL_ATTEMPT.value] and [StatTypes.FIELD_GOAL_MADE.value] *)
Definition FIELD_GOAL_ATTEMPT : Z := 23.
Definition FIELD_GOAL_MADE : Z := 24.

Definition stats_params (year week stat : Z) : list (string * param) :=
  [("year", PInt year); ("week", PInt week); ("statTypeId", PInt stat);
   ("classification", PStr "fbs"); ("seasonType", PStr "regular")].

Definition weather_params (year week : Z) : list (string * param) :=
  [("year", PInt year); ("week", PInt week);
   ("classification", PStr "fbs"); ("seasonType", PStr "regular")].

Definition weather_columns_to_keep : list string :=
  ["id"; "gameIndoors"; "homeTeam"; "awayTeam"; "temperature"; "dewPoint";
   "humidity"; "precipitation"; "snowfall"; "windDirection"; "windSpeed";
   "pressure"; "weatherConditionCode"; "weatherCondition"].

Definition export_name (year week : Z) (retrieve_weather_data : bool) : string :=
  ("fg_data_yr" ++ str_of_Z year ++ "_wk" ++ str_of_Z week ++ "_wt"
   ++ (if retrieve_weather_data then "1" else "0") ++ ".csv")%string.

(** [client.get(..., as_df=True)] *)
Definition get_df (srv : server) (client : CFBDClient) (subpath : string)
    (params : list (string * param)) : M DataFrame :=
  v ← get srv client subpath None (Some params) true;
  match v with
  | Frame df => mret df
  | Raw _ => raise (Unmodelled "as_df=True returns a frame")
  end.

(** Lines 138-148: attempts left-joined with the (playId, statType) pairs
    of the makes, and the two statType columns renamed. *)
Definition join_attempts_makes (attempts makes : DataFrame) : result DataFrame :=
  right ← getitems makes ["playId"; "statType"];
  field_goals ← pd_merge attempts right HowLeft "playId" "playId";
  mret (rename [("statType_x", "statType"); ("statType_y", "made")] field_goals).

(** Lines 151-156. *)
Definition made_indicator (field_goals : DataFrame) : result DataFrame :=
  made ← getitem field_goals "made";
  field_goals ← setitem field_goals "made" (map fillna0 made);
  made ← getitem field_goals "made";
  field_goals ← setitem field_goals "made" (map replace_made made);
  made ← getitem field_goals "made";
  made ← mapM astype_int made;
  setitem field_goals "made" made.

(** Lines 194-201. *)
Definition join_weather (field_goals weather : DataFrame) : result DataFrame :=
  right ← getitems weather weather_columns_to_keep;
  merged ← pd_merge field_goals right HowInner "gameId" "id";
  drop_column "id" merged.

Section WeeklyRoutine.

(** The module-level [client], the server it talks to, and the
    filesystem's answer to [export_folder_path.is_dir()]. *)
Variable srv : server.
Variable client : CFBDClient.
Variable is_dir : string -> bool.

Definition get_field_goal_data (year week : Z) (export_folder_path : string)
    (retrieve_weather_data : bool) : M unit :=
  if negb (is_dir export_folder_path) then
    raise (AssertionError "Error: export_folder_path must be a folder.")
  else
    let export_path :=
      (export_folder_path ++ "/" ++ export_name year week retrieve_weather_data)%string in
    makes ← get_df srv client "plays/stats" (stats_params year week FIELD_GOAL_MADE);
    attempts ← get_df srv client "plays/stats" (stats_params year week FIELD_GOAL_ATTEMPT);
    field_goals ← lift (join_attempts_makes attempts makes);
    field_goals ← lift (made_indicator field_goals);
    if negb retrieve_weather_data then
      to_csv field_goals export_path
    else
      weather ← get_df srv client "games/weather" (weather_params year week);
      merged ← lift (join_weather field_goals weather);
      to_csv merged export_path.

End WeeklyRoutine.

(** ** get_field_goal_data_between *)

(** [range(start, stop)] *)
Definition py_range (start stop : Z) : list Z :=
  map (fun i => start + Z.of_nat i) (seq 0 (Z.to_nat (stop - start))).

(** [itertools.product(xs, ys)]: the first component varies slowest. *)
Definition product (xs ys : list Z) : list (Z * Z) :=
  flat_map (fun x => map (fun y => (x, y)) ys) xs.

(** [get_field_goal_data_between]; the spans are given by their elements.
    The progress bar and the final [print] of [total] are left out. *)
Definition get_field_goal_data_between (srv : server) (client : CFBDClient)
    (is_dir : string -> bool) (year_span week_span : list Z)
    (export_folder_path : string) : M unit :=
  for_each (product year_span week_span) (fun yw =>
    get_field_goal_data srv client is_dir (fst yw) (snd yw)
                        export_folder_path true).

(** ** merge_csvs *)

(** A CSV file as [csv.reader] yields it and [csv.writer] takes it: a list
    of rows, each a list of fields. *)
Definition csv_row : Type := list string.
Definition csv_file : Type := list csv_row.

(** The files of [data_folder], by name, in the order the OS lists them. *)
Definition folder_listing : Type := list (string * csv_file).

(** What the routine can change: the file at [export_path], if any. *)
Definition export_slot : Type := option csv_file.

Fixpoint ends_with (suffix s : list ascii) : bool :=
  if bool_decide (s = suffix) then true
  else match s with
       | [] => false
       | _ :: s' => ends_with suffix s'
       end.

(** [data_folder.glob('*.csv')] *)
Definition glob_csv (dir : folder_listing) : folder_listing :=
  filter (fun f => ends_with (list_ascii_of_string ".csv")
                             (list_ascii_of_string (fst f))) dir.

(** [sorted(paths)]: paths of one folder are ordered by file name. *)
Fixpoint insert_sorted (f : string * csv_file) (l : folder_listing)
    : folder_listing :=
  match l with
  | [] => [f]
  | g :: l' =>
      if String.leb (fst f) (fst g) then f :: g :: l' else g :: insert_sorted f l'
  end.

Definition sorted (l : folder_listing) : folder_listing :=
  foldr insert_sorted [] l.

(** [next(reader)] on a freshly opened file. *)
Definition next_row (f : csv_file) : result (csv_row * csv_file) :=
  match f with
  | [] => Raise StopIteration
  | r :: rest => Ok (r, rest)
  end.

(** The [for i, file in enumerate(csv_files)] loop, from index [i] on,
    with the loop's two variables threaded through. *)
Fixpoint merge_loop (i : nat) (csv_files : folder_listing)
    (header : option csv_row) (merged_rows : list csv_row)
    : result (option csv_row * list csv_row) :=
  match csv_files with
  | [] => Ok (header, merged_rows)
  | (name, file) :: csv_files' =>
      '(file_header, reader) ← next_row file;
      if (i =? 0)%nat then
        merge_loop (S i) csv_files' (Some file_header) (merged_rows ++ reader)
      else if negb (bool_decide (Some file_header = header)) then
        Raise (ValueError ("Header mismatch in " ++ name))
      else
        merge_loop (S i) csv_files' header (merged_rows ++ reader)
  end.

(** [export_path.open('w')], [writer.writerow(header)],
    [writer.writerows(merged_rows)] *)
Definition write_export (header : csv_row) (merged_rows : list csv_row)
    : ST export_slot unit :=
  fun _ => (inr tt, Some (header :: merged_rows)).

(** [merge_csvs].  The folder's name in the first message and the final
    [print] are left out. *)
Definition merge_csvs (data_folder : folder_listing) : ST export_slot unit :=
  let csv_files := sorted (glob_csv data_folder) in
  if bool_decide (csv_files = []) then
    raise (ValueError "No CSV files found")
  else
    hr ← lift (merge_loop 0 csv_files None []);
    match hr with
    | (Some header, merged_rows) => write_export header merged_rows
    | (None, _) => raise (TypeError "iterable expected, not NoneType")
    end.

(** ** The filesystem seen by the directory utilities *)

(** What a symbolic link resolves to.  Links to directories are not
    represented: no path of the model runs through a link. *)
Inductive target : Type := Dangling | ToFile.

Inductive node : Type :=
  | File
  | Symlink (t : target)
  | Dir (entries : list (string * node)).

(** A path, as its components below the root of the tree; the state is the
    root directory.  The entries of a directory are in the order the OS
    lists them, with distinct names. *)
Definition path : Type := list string.

Definition entry_named (x : string) (e : string * node) : bool :=
  String.eqb x (fst e).

Definition child (x : string) (entries : list (string * node)) : option node :=
  snd <$> find (entry_named x) entries.

(** The outcome of walking a path down from the root. *)
Inductive walk : Type :=
  | Found (n : node)
  | ENOENT            (* a component is missing *)
  | ENOTDIR.          (* a component that is not last is not a directory *)

Fixpoint resolve (p : path) (n : node) : walk :=
  match p with
  | [] => Found n
  | x :: p' =>
      match n with
      | Dir entries =>
          match child x entries with
          | Some c => resolve p' c
          | None => ENOENT
          end
      | Symlink Dangling => ENOENT
      | _ => ENOTDIR
      end
  end.

Fixpoint remove_at (p : path) (n : node) : node :=
  match p, n with
  | [x], Dir entries => Dir (filter (fun e => negb (entry_named x e)) entries)
  | x :: p', Dir entries =>
      Dir (map (fun e => if entry_named x e then (fst e, remove_at p' (snd e)) else e)
               entries)
  | _, _ => n
  end.

Fixpoint add_dir_at (p : path) (n : node) : node :=
  match p, n with
  | [x], Dir entries => Dir (entries ++ [(x, Dir [])])
  | x :: p', Dir entries =>
      Dir (map (fun e => if entry_named x e then (fst e, add_dir_at p' (snd e)) else e)
               entries)
  | _, _ => n
  end.

Abbreviation FS := (ST node).

(** [Path.exists()], [is_file()], [is_dir()] follow a final link;
    [is_symlink()] does not. *)
Definition path_exists (p : path) (fs : node) : bool :=
  match resolve p fs with
  | Found (Symlink Dangling) => false
  | Found _ => true
  | _ => false
  end.

Definition path_is_file (p : path) (fs : node) : bool :=
  match resolve p fs with
  | Found File | Found (Symlink ToFile) => true
  | _ => false
  end.

Definition path_is_symlink (p : path) (fs : node) : bool :=
  match resolve p fs with
  | Found (Symlink _) => true
  | _ => false
  end.

Definition path_is_dir (p : path) (fs : node) : bool :=
  match resolve p fs with
  | Found (Dir _) => true
  | _ => false
  end.

Definition ask (q : node -> bool) : FS bool := fun fs => (inr (q fs), fs).

(** [Path.unlink()] *)
Definition unlink (p : path) : FS unit := fun fs =>
  match resolve p fs with
  | Found (Dir _) => (inl IsADirectoryError, fs)
  | Found _ => (inr tt, remove_at p fs)
  | ENOENT => (inl FileNotFoundError, fs)
  | ENOTDIR => (inl NotADirectoryError, fs)
  end.

(** [Path.rmdir()] *)
Definition rmdir (p : path) : FS unit := fun fs =>
  match resolve p fs with
  | Found (Dir []) =>
      match p with
      | [] => (inl (OSError "EBUSY"), fs)
      | _ => (inr tt, remove_at p fs)
      end
  | Found (Dir (_ :: _)) => (inl (OSError "ENOTEMPTY"), fs)
  | Found _ => (inl NotADirectoryError, fs)
  | ENOENT => (inl FileNotFoundError, fs)
  | ENOTDIR => (inl NotADirectoryError, fs)
  end.

(** [os.mkdir(p)] *)
Definition os_mkdir (p : path) : FS unit := fun fs =>
  match resolve p fs with
  | Found _ => (inl FileExistsError, fs)
  | ENOTDIR => (inl NotADirectoryError, fs)
  | ENOENT =>
      match resolve (removelast p) fs with
      | Found (Dir _) => (inr tt, add_dir_at p fs)
      | Found (Symlink Dangling) | ENOENT => (inl FileNotFoundError, fs)
      | _ => (inl NotADirectoryError, fs)
      end
  end.

(** [Path(p[:n]).mkdir(parents=True, exist_ok=True)], as pathlib writes
    it: try [os.mkdir]; on [FileNotFoundError] make the parent first and
    try again; on any other [OSError] give up unless the path is by now a
    directory. *)
Definition mkdir_exist_ok (p : path) : FS unit := fun fs =>
  match os_mkdir p fs with
  | (inl e, fs') => if path_is_dir p fs' then (inr tt, fs') else (inl e, fs')
  | r => r
  end.

Fixpoint mkdir_prefix (n : nat) (p : path) : FS unit := fun fs =>
  let self := take n p in
  match os_mkdir self fs with
  | (inl FileNotFoundError, fs') =>
      match n with
      | O => (inl FileNotFoundError, fs')
      | S n' => (_ ← mkdir_prefix n' p; mkdir_exist_ok self) fs'
      end
  | (inl e, fs') => if path_is_dir self fs' then (inr tt, fs') else (inl e, fs')
  | r => r
  end.

Definition mkdir_parents_exist_ok (p : path) : FS unit :=
  mkdir_prefix (length p) p.

(** The directories at and below [p], each before its subdirectories. *)
Fixpoint directories (p : path) (n : node) : list (path * list (string * node)) :=
  match n with
  | Dir entries =>
      (p, entries) :: flat_map (fun e => directories (p ++ [fst e]) (snd e)) entries
  | _ => []
  end.

(** [folder.rglob('*')]: for each directory at or below [folder], parent
    first, the paths of its entries.  Links are listed, never entered.
    The listing is taken when the loop starts.  (pathlib produces it
    lazily, and the order of the deeper levels varies with the Python
    version; the loop of [purge_folder] either finds files and links only,
    all of them entries of [folder] itself, or raises at the first
    subdirectory among these entries, so neither matters.) *)
Definition rglob (folder : path) : FS (list path) := fun fs =>
  match resolve folder fs with
  | Found n =>
      (inr (flat_map (fun d => map (fun e => fst d ++ [fst e]) (snd d))
                     (directories folder n)), fs)
  | _ => (inr [], fs)
  end.

(** ** purge_folder and validate_dir *)

(** [depth] is the number of nested calls the interpreter still allows. *)
Fixpoint purge_folder (depth : nat) (folder : path) : FS unit :=
  match depth with
  | O => raise RecursionError
  | S depth' =>
      present ← ask (path_exists folder);
      if negb present then mret tt
      else
        paths ← rglob folder;
        _ ← for_each paths (fun path =>
              is_file ← ask (path_is_file path);
              is_symlink ← ask (path_is_symlink path);
              if is_file || is_symlink then unlink path
              else
                is_dir ← ask (path_is_dir path);
                if (is_dir : bool) then
                  _ ← purge_folder depth' path;   (* Recursively delete contents *)
                  rmdir path
                else mret tt);
        rmdir folder
  end.

Definition validate_dir (folder : path) : FS unit :=
  present ← ask (path_exists folder);
  if negb present then mkdir_parents_exist_ok folder
  else
    is_dir ← ask (path_is_dir folder);
    if negb is_dir then raise NotADirectoryError
    else mret tt.

(** * Notions used in the statements *)

(** A dict with exactly one key whose value is a list. *)
Definition single_key_list (d : record) : option (list json) :=
  match d with
  | [(_, JArr items)] => Some items
  | _ => None
  end.

(** ... whose value is a list of records. *)
Definition single_key_records (d : record) : option (list record) :=
  items ← single_key_list d; as_records items.

(** The order in which [sorted] puts two files: by name. *)
Definition name_le (f g : string * csv_file) : Prop :=
  String.leb (fst f) (fst g) = true.

(** The header of a file, if it has one. *)
Definition header_of (f : string * csv_file) : option csv_row := head (snd f).

(** The data rows of a file. *)
Definition data_rows (f : string * csv_file) : list csv_row := tail (snd f).

(** Every row has one cell per label. *)
Definition well_formed (df : DataFrame) : Prop :=
  Forall (fun row => length row = length (columns df)) (rows df).

(** What lines 151-156 make of one cell of the provisional column. *)
Definition made_value (v : json) : result json :=
  astype_int (replace_made (fillna0 v)).

(** The mapping of the [rename] on lines 144-148. *)
Definition fg_renames : list (string * string) :=
  [("statType_x", "statType"); ("statType_y", "made")].

(** Number of rows of [right] whose key equals [k]. *)
Definition match_count (k : scalar) (rkeys : list scalar) : nat :=
  length (filter (fun k' => py_eqb k k') rkeys).

(** No two keys of the list are equal. *)
Definition unique_keys (keys : list scalar) : Prop :=
  forall i j k k',
    keys !! i = Some k -> keys !! j = Some k' -> py_eqb k k' = true -> i = j.

(** Number of output rows that a join gives a row of [left] with key [k]. *)
Definition rows_per_key (h : how) (rkeys : list scalar) (k : scalar) : nat :=
  match h with
  | HowLeft => Nat.max 1 (match_count k rkeys)
  | HowInner => match_count k rkeys
  end.

(** What [client.get(..., as_df=True)] makes of a response. *)
Definition table_of_response (r : http_response) : result DataFrame :=
  if negb (ok r) then
    Raise (RequestException
             (str_of_Z (status_code r) ++ ": " ++ text r)%string
             (status_code r) (text r))
  else match body r with
       | None => Raise JSONDecodeError
       | Some j => response_as_df j
       end.

(** Two key cells hold equal play (or game) identifiers. *)
Definition key_match (x y : json) : Prop :=
  exists k k', x = JScalar k /\ y = JScalar k' /\ py_eqb k k' = true.

(** The [statTypeId] parameter of a request, if it has one. *)
Definition stat_type_of (rq : request) : option Z :=
  match req_params rq with
  | Some ps =>
      match find (fun kv => String.eqb (fst kv) "statTypeId") ps with
      | Some (_, PInt z) => Some z
      | _ => None
      end
  | None => None
  end.

(** A server that answers by the kind of request alone: the makes, the
    attempts, or the weather. *)
Definition canned_server (makes attempts weather : json) : server := fun rq =>
  mkResponse 200 ""
    (Some match stat_type_of rq with
          | Some 24 => makes
          | Some _ => attempts
          | None => weather
          end).

(** A client as [CFBDClient.__init__] leaves it, in an otherwise empty
    state [world0]. *)
Definition client0 : CFBDClient := mkClient "https://api.collegefootballdata.com/" 0.

Definition world0 : world :=
  mkWorld {[ 0%nat := {[ "Authorization" := "Bearer key" ]} ]} [] [].

(** Records as the API returns them, cut down to a few fields. *)
Definition weather_record (game : Z) : json :=
  JObj (("id", JNum game)
        :: map (fun c => (c, JNum 0)) (tail weather_columns_to_keep)).

Definition attempt_record (play game : Z) : json :=
  JObj [("gameId", JNum game); ("playId", JNum play);
        ("statType", JStr "Field Goal Attempt")].

Definition make_record (play game : Z) (label : string) : json :=
  JObj [("gameId", JNum game); ("playId", JNum play); ("statType", JStr label)].

(** The body of the loop of [purge_folder]. *)
Definition purge_step (depth : nat) (path : path) : FS unit :=
  is_file ← ask (path_is_file path);
  is_symlink ← ask (path_is_symlink path);
  if is_file || is_symlink then unlink path
  else
    is_dir ← ask (path_is_dir path);
    if (is_dir : bool) then
      _ ← purge_folder depth path;
      rmdir path
    else mret tt.

Definition is_leaf (n : node) : bool :=
  match n with
  | Dir _ => false
  | _ => true
  end.

(** What a request asks for: its URL and its query parameters. *)
Definition call_of (rq : request) : string * option (list (string * param)) :=
  (url rq, req_params rq).

(** The calls of one week, in the order of the source. *)
Definition planned_calls (client : CFBDClient) (year week : Z) (flag : bool)
    : list (string * option (list (string * param))) :=
  [((hostname client ++ "/" ++ "plays/stats")%string,
    Some (stats_params year week FIELD_GOAL_MADE));
   ((hostname client ++ "/" ++ "plays/stats")%string,
    Some (stats_params year week FIELD_GOAL_ATTEMPT))]
  ++ (if flag then
        [((hostname client ++ "/" ++ "games/weather")%string,
          Some (weather_params year week))]
      else []).

Definition no_underscore (s : string) : Prop :=
  Forall (fun c => c <> "_"%char) (list_ascii_of_string s).

(** The path the driver's run for the pair [yw] writes to. *)
Definition export_path (folder : string) (yw : Z * Z) : string :=
  (folder ++ "/" ++ export_name (fst yw) (snd yw) true)%string.

(** The cells of the weather row [m] under the columns kept beside [id]. *)
Definition weather_cells (weather : DataFrame) (m : list json) : list json :=
  map (fun c => match label_index c (columns weather) with
                | Some i => cell_at i m
                | None => NaN
                end)
      (tail weather_columns_to_keep).

(** A name that [glob('*.csv')] matches. *)
Definition is_csv_name (name : string) : bool :=
  ends_with (list_ascii_of_string ".csv") (list_ascii_of_string name).

(** [fs'] has all that [fs] has: every path of [fs] leads to a node of the
    same kind, and a file or link is the same file or link. *)
Definition keeps (fs fs' : node) : Prop :=
  forall p n, resolve p fs = Found n ->
    exists n', resolve p fs' = Found n' /\
               is_leaf n' = is_leaf n /\
               (is_leaf n = true -> n' = n).

(** One call of [get], by its arguments. *)
Record call : Type := mkCall {
  call_subpath : string;
  call_headers : option loc;
  call_params : option (list (string * param));
  call_as_df : bool;
}.

(** The state after the calls [cs] on the client [self], one after the
    other, whatever each of them returned or raised. *)
Definition run_calls (srv : server) (self : CFBDClient) (cs : list call)
    (w : world) : world :=
  fold_left (fun w c =>
               snd (get srv self (call_subpath c) (call_headers c)
                        (call_params c) (call_as_df c) w))
            cs w.

(** * Properties *)

(** ** The tabular conversion *)

Lemma forallb_is_list_single (d : record) :
  forallb (fun kv => is_list (snd kv)) d && (length d =? 1)%nat = true ->
  exists k items, d = [(k, JArr items)].
Proof.
  destruct d as [|[k v] [|kv d]]; simpl; try discriminate.
  - destruct v; simpl; try discriminate. eauto.
  - rewrite andb_false_r. discriminate.
Qed.

Lemma response_sequence_dict (d : record) :
  response_sequence (JObj d) =
  match single_key_list d with
  | Some items => JArr items
  | None => JArr [JObj d]
  end.
Proof.
  unfold response_sequence.
  destruct (forallb _ d && _) eqn:E.
  - apply forallb_is_list_single in E as (k & items & ->). reflexivity.
  - destruct d as [|[k v] [|kv d]]; try reflexivity;
      destruct v; try reflexivity.
    simpl in E. discriminate.
Qed.

Lemma as_records_fmap (rs : list record) : as_records (JObj <$> rs) = Some rs.
Proof.
  induction rs as [|r rs IH]; [done|].
  rewrite fmap_cons. cbn [as_records]. by rewrite IH.
Qed.

Lemma as_records_Some (items : list json) (rs : list record) :
  as_records items = Some rs -> items = JObj <$> rs.
Proof.
  revert rs. induction items as [|v items IH]; intros rs; simpl.
  - by intros [= <-].
  - destruct v as [| |d]; try discriminate.
    destruct (as_records items) as [rs'|]; simpl; [|discriminate].
    intros [= <-]. rewrite fmap_cons. f_equal. by apply IH.
Qed.

Lemma add_keys_elem (d : record) (seen : list string) (c : string) :
  c ∈ add_keys seen d <-> c ∈ seen \/ c ∈ d.*1.
Proof.
  revert seen. induction d as [|[k v] d IH]; intros seen; simpl.
  - rewrite elem_of_nil. tauto.
  - rewrite elem_of_cons. case_bool_decide as Hk.
    + rewrite IH. split; [tauto|]. intros [?|[->|?]]; auto.
    + rewrite IH, elem_of_app, list_elem_of_singleton. tauto.
Qed.

Lemma add_keys_NoDup (d : record) (seen : list string) :
  NoDup seen -> NoDup (add_keys seen d).
Proof.
  revert seen. induction d as [|[k v] d IH]; intros seen Hs; simpl; [done|].
  case_bool_decide as Hk; apply IH; [done|].
  apply NoDup_app. split_and!; [done| |apply NoDup_singleton].
  intros x Hx ->%list_elem_of_singleton. done.
Qed.

Lemma fold_add_keys_elem (rs : list record) (seen : list string) (c : string) :
  c ∈ fold_left add_keys rs seen <-> c ∈ seen \/ exists r, r ∈ rs /\ c ∈ r.*1.
Proof.
  revert seen. induction rs as [|r rs IH]; intros seen; simpl.
  - split; [auto|]. intros [?|(r & Hr & _)]; [done|]. by apply elem_of_nil in Hr.
  - rewrite IH, add_keys_elem. split.
    + intros [[?|?]|(r' & ? & ?)]; auto.
      * right. exists r. split; [left|done].
      * right. exists r'. split; [by right|done].
    + intros [?|(r' & [->|?]%elem_of_cons & ?)]; auto.
      right. eauto.
Qed.

Lemma fold_add_keys_NoDup (rs : list record) (seen : list string) :
  NoDup seen -> NoDup (fold_left add_keys rs seen).
Proof.
  revert seen. induction rs as [|r rs IH]; intros seen Hs; simpl; [done|].
  by apply IH, add_keys_NoDup.
Qed.

Lemma union_keys_NoDup (rs : list record) : NoDup (union_keys rs).
Proof. apply fold_add_keys_NoDup, NoDup_nil_2. Qed.

Lemma union_keys_elem (rs : list record) (c : string) :
  c ∈ union_keys rs <-> exists r, r ∈ rs /\ c ∈ r.*1.
Proof.
  unfold union_keys. rewrite fold_add_keys_elem, elem_of_nil. tauto.
Qed.

Lemma response_as_df_records (rs : list record) :
  response_as_df (JArr (JObj <$> rs)) = Ok (frame_of_records rs).
Proof.
  unfold response_as_df, response_sequence, pd_DataFrame.
  by rewrite as_records_fmap.
Qed.

(** C8 (as stated, refuted).  The dict [{"k": [1]}] has a single key, but
    its value is not a sequence of records; the claim has it wrapped as a
    one-record sequence, the code unwraps it to [[1]]. *)
Lemma response_as_df_unwraps_any_list :
  single_key_records [("k", JArr [JNum 1])] = None /\
  response_sequence (JObj [("k", JArr [JNum 1])]) = JArr [JNum 1] /\
  response_sequence (JObj [("k", JArr [JNum 1])])
    <> JArr [JObj [("k", JArr [JNum 1])]].
Proof. split_and!; [reflexivity|reflexivity|discriminate]. Qed.

(** C8 (amended).  A dict with exactly one key whose value is a list, of
    whatever items, is unwrapped to that list; any other dict is wrapped as
    a one-record list; a list is used as it is.  When the sequence
    obtained is a list of records, the frame has one row per record, its
    column labels are exactly the records' field names, each once, and a
    row holds its record's value under each label, NaN where the record
    lacks the field. *)
Theorem response_as_df_conversion (response : json) :
  response_sequence response =
    match response with
    | JObj d =>
        match single_key_list d with
        | Some items => JArr items
        | None => JArr [JObj d]
        end
    | _ => response
    end
  /\ forall rs : list record,
       response_sequence response = JArr (JObj <$> rs) ->
       exists df,
         response_as_df response = Ok df /\
         length (rows df) = length rs /\
         NoDup (columns df) /\
         (forall c, c ∈ columns df <-> exists r, r ∈ rs /\ c ∈ r.*1) /\
         (forall i r, rs !! i = Some r ->
            rows df !! i
            = Some ((fun c => default NaN (dict_get c r)) <$> columns df)).
Proof.
  split.
  - destruct response as [v|items|d]; [done|done|apply response_sequence_dict].
  - intros rs Hseq. exists (frame_of_records rs).
    unfold response_as_df. rewrite Hseq. simpl pd_DataFrame.
    rewrite as_records_fmap. split_and!.
    + done.
    + simpl. by rewrite length_map.
    + apply union_keys_NoDup.
    + apply union_keys_elem.
    + intros i r Hi. simpl.
      change (map (row_of_record (union_keys rs)) rs)
        with (row_of_record (union_keys rs) <$> rs).
      by rewrite list_lookup_fmap, Hi.
Qed.

Lemma response_as_df_conversion_witness :
  exists df,
    response_as_df
      (JObj [("data", JArr [JObj [("a", JNum 1)]; JObj [("b", JNum 2)]])]) = Ok df /\
    length (rows df) = 2%nat.
Proof.
  destruct (response_as_df_conversion
              (JObj [("data", JArr [JObj [("a", JNum 1)]; JObj [("b", JNum 2)]])]))
    as [_ H].
  destruct (H [[("a", JNum 1)]; [("b", JNum 2)]] eq_refl) as (df & Hdf & Hlen & _).
  exists df. split; [exact Hdf|exact Hlen].
Defined.

(** ** CFBDClient.get *)

Lemma deref_insert (l : loc) (d : headers_dict) (h : gmap loc headers_dict)
    (lg : list request) (dk : list (string * DataFrame)) :
  deref l (mkWorld (<[l := d]> h) lg dk) = d.
Proof. unfold deref. cbn [heap]. by rewrite lookup_insert_eq. Qed.

Lemma get_unfold (srv : server) (self : CFBDClient) (subpath : string)
    (l : loc) (params : option (list (string * param))) (as_df : bool)
    (w : world) :
  let d := deref (headers self) w ∪ deref l w in
  let rq := mkRequest (hostname self ++ "/" ++ subpath)%string d params in
  let w' := mkWorld (<[l := d]> (heap w)) (log w ++ [rq]) (disk w) in
  get srv self subpath (Some l) params as_df w =
  (if negb (ok (srv rq)) then
     inl (RequestException
            (str_of_Z (status_code (srv rq)) ++ ": " ++ text (srv rq))%string
            (status_code (srv rq)) (text (srv rq)))
   else match body (srv rq) with
        | None => inl JSONDecodeError
        | Some j =>
            if negb as_df then inr (Raw j)
            else match response_as_df j with
                 | inl e => inl e
                 | inr df => inr (Frame df)
                 end
        end,
   w').
Proof.
  intros d rq w'.
  unfold get, dict_update, requests_get, raise, lift.
  unfold mbind, ST_bind, mret, ST_ret. cbn [heap log disk fst snd].
  rewrite !deref_insert. fold d. fold rq. fold w'.
  destruct (ok (srv rq)); cbn [negb]; [|done].
  destruct (body (srv rq)) as [j|]; [|done].
  destruct as_df; cbn [negb]; [|done].
  by destruct (response_as_df j).
Qed.

Lemma get_unfold_fresh (srv : server) (self : CFBDClient) (subpath : string)
    (params : option (list (string * param))) (as_df : bool) (w : world) :
  let l := fresh_loc (heap w) in
  get srv self subpath None params as_df w =
  get srv self subpath (Some l) params as_df
      (mkWorld (<[l := ∅]> (heap w)) (log w) (disk w)).
Proof. reflexivity. Qed.

Lemma ok_false_iff (r : http_response) :
  ok r = false <-> 400 <= status_code r < 600.
Proof. unfold ok. rewrite negb_false_iff, andb_true_iff. lia. Qed.



(** A concrete run: a 404 raises the API error after one request. *)
Example get_404 :
  let srv : server := fun _ => mkResponse 404 "Not Found" None in
  let out := get srv (mkClient "h" 0%nat) "plays/stats" None None true
                 (mkWorld ∅ [] []) in
  fst out = inl (RequestException "404: Not Found" 404 "Not Found")
  /\ length (log (snd out)) = 1%nat.
Proof. split; reflexivity. Qed.


Lemma CFBDClient_init_headers (host token : string) (w : world) :
  exists self w',
    CFBDClient_init host token w = (inr self, w') /\
    hostname self = host /\
    heap w' !! headers self = Some {[ "Authorization" := ("Bearer " ++ token)%string ]} /\
    (forall l d, heap w !! l = Some d -> heap w' !! l = Some d).
Proof.
  eexists _, _. split; [reflexivity|]. cbn [hostname headers heap].
  split_and!; [done| |].
  - rewrite lookup_insert_eq. unfold deref. cbn [heap].
    rewrite lookup_insert_eq. reflexivity.
  - intros l d Hl.
    assert (l <> fresh_loc (heap w)).
    { intros ->. apply (is_fresh (dom (heap w))).
      apply elem_of_dom. eauto. }
    by rewrite insert_insert_eq, lookup_insert_ne.
Qed.

(** C10.  A call with a caller-supplied headers dict writes the client's
    headers into that very dict: after the call, whatever its outcome, the
    dict at the caller's reference holds the client's Authorization value,
    in place of any the caller had put there, and its other entries are
    the caller's unless the client has one under the same key. *)
Theorem get_mutates_caller_headers (srv : server) (self : CFBDClient)
    (subpath : string) (l : loc) (params : option (list (string * param)))
    (as_df : bool) (w : world) (d : headers_dict) (auth : string) :
  heap w !! l = Some d ->
  deref (headers self) w !! "Authorization" = Some auth ->
  let w' := snd (get srv self subpath (Some l) params as_df w) in
  exists d',
    heap w' !! l = Some d' /\
    d' !! "Authorization" = Some auth /\
    (forall k, deref (headers self) w !! k = None -> d' !! k = d !! k) /\
    (forall l', l' <> l -> heap w' !! l' = heap w !! l').
Proof.
  intros Hl Hauth w'. subst w'. rewrite get_unfold. cbn [snd heap].
  exists (deref (headers self) w ∪ deref l w). split_and!.
  - by rewrite lookup_insert_eq.
  - by apply lookup_union_Some_l.
  - intros k Hk. unfold deref at 2. rewrite Hl. cbn [default].
    by rewrite lookup_union_r.
  - intros l' Hne. by rewrite lookup_insert_ne.
Qed.

Lemma get_mutates_caller_headers_witness :
  let srv : server := fun _ => mkResponse 500 "down" None in
  let self := mkClient "h" 0%nat in
  let mine : headers_dict := {[ "Authorization" := "Bearer mine"; "Accept" := "json" ]} in
  let w := mkWorld {[ 0%nat := {[ "Authorization" := "Bearer tok" ]}; 1%nat := mine ]} [] [] in
  exists d',
    heap (snd (get srv self "plays/stats" (Some 1%nat) None true w)) !! 1%nat = Some d' /\
    d' !! "Authorization" = Some "Bearer tok".
Proof.
  intros srv self mine w.
  destruct (get_mutates_caller_headers srv self "plays/stats" 1%nat None true w
              mine "Bearer tok" eq_refl eq_refl) as (d' & H1 & H2 & _).
  exists d'. split; [exact H1|exact H2].
Defined.

(** ** merge_csvs *)

Lemma insert_sorted_perm (f : string * csv_file) (l : folder_listing) :
  insert_sorted f l ≡ₚ f :: l.
Proof.
  induction l as [|g l IH]; simpl; [done|].
  destruct (String.leb _ _); [done|].
  rewrite IH. apply Permutation_swap.
Qed.

Lemma sorted_perm (l : folder_listing) : sorted l ≡ₚ l.
Proof.
  induction l as [|f l IH]; simpl; [done|].
  by rewrite insert_sorted_perm, IH.
Qed.

Lemma insert_sorted_HdRel (f g : string * csv_file) (l : folder_listing) :
  name_le g f -> HdRel name_le g l -> HdRel name_le g (insert_sorted f l).
Proof.
  intros Hgf Hl. destruct l as [|h l]; simpl.
  - by constructor.
  - destruct (String.leb _ _); constructor; [done|].
    by inversion Hl.
Qed.

Lemma insert_sorted_Sorted (f : string * csv_file) (l : folder_listing) :
  Sorted name_le l -> Sorted name_le (insert_sorted f l).
Proof.
  induction 1 as [|g l Hl IH Hg]; simpl.
  - by repeat constructor.
  - destruct (String.leb (fst f) (fst g)) eqn:E.
    + constructor; [by constructor|]. by constructor.
    + constructor; [done|]. apply insert_sorted_HdRel; [|done].
      unfold name_le. destruct (String.leb_total (fst f) (fst g)); congruence.
Qed.

Lemma sorted_Sorted (l : folder_listing) : Sorted name_le (sorted l).
Proof.
  induction l as [|f l IH]; simpl; [constructor|].
  by apply insert_sorted_Sorted.
Qed.

Lemma string_leb_trans (s1 s2 s3 : string) :
  String.leb s1 s2 = true -> String.leb s2 s3 = true -> String.leb s1 s3 = true.
Proof.
  unfold String.leb. revert s2 s3.
  induction s1 as [|c1 s1 IH]; intros [|c2 s2] [|c3 s3]; cbn; try done.
  unfold Ascii.compare.
  destruct (N.compare_spec (N_of_ascii c1) (N_of_ascii c2)) as [E12|L12|G12];
    [|intros _|done].
  - rewrite E12. destruct (N.compare (N_of_ascii c2) (N_of_ascii c3)); [|done..].
    apply IH.
  - destruct (N.compare_spec (N_of_ascii c2) (N_of_ascii c3)) as [E23|L23|G23];
      [|intros _|done].
    + rewrite <- E23. intros _. by rewrite (proj2 (N.compare_lt_iff _ _) L12).
    + by rewrite (proj2 (N.compare_lt_iff _ _) (N.lt_trans _ _ _ L12 L23)).
Qed.

#[global] Instance name_le_trans : Transitive name_le.
Proof. intros f g h. unfold name_le. apply string_leb_trans. Qed.

Lemma sorted_StronglySorted (l : folder_listing) :
  StronglySorted name_le (sorted l).
Proof. apply Sorted_StronglySorted; [apply name_le_trans|apply sorted_Sorted]. Qed.



(** The loop past its first iteration: it goes through exactly when every
    remaining file starts with the established header. *)
Lemma merge_loop_ok (files : folder_listing) (i : nat) (h : csv_row)
    (acc : list csv_row) :
  Forall (fun f => header_of f = Some h) files ->
  merge_loop (S i) files (Some h) acc
  = Ok (Some h, acc ++ concat (map data_rows files)).
Proof.
  revert i acc. induction files as [|[name file] files IH]; intros i acc Hall; simpl.
  - by rewrite app_nil_r.
  - inversion Hall as [|? ? Hf Hrest]; subst.
    destruct file as [|r rest]; [discriminate|].
    injection Hf as ->. cbn.
    rewrite bool_decide_true by done. cbn.
    rewrite IH by done. unfold data_rows at 2. cbn. by rewrite app_assoc.
Qed.

Lemma merge_loop_error (files : folder_listing) (i : nat) (h : csv_row)
    (acc : list csv_row) :
  ~ Forall (fun f => header_of f = Some h) files ->
  exists e, merge_loop (S i) files (Some h) acc = inl e /\
    (e = StopIteration \/
     exists f, f ∈ files /\ e = ValueError ("Header mismatch in " ++ fst f)).
Proof.
  revert i acc. induction files as [|[name file] files IH]; intros i acc Hnot; simpl.
  - destruct Hnot. constructor.
  - destruct file as [|r rest]; cbn.
    + eauto.
    + case_bool_decide as Hr; cbn.
      * destruct (IH (S i) (acc ++ rest)) as (e & He & Hkind).
        { intros Hall. apply Hnot. constructor; [|done].
          unfold header_of. cbn. congruence. }
        exists e. split; [done|]. destruct Hkind as [?|(f & Hf & ?)]; [by left|].
        right. exists f. split; [by right|done].
      * eexists. split; [reflexivity|]. right.
        exists (name, r :: rest). split; [left|done].
Qed.

(** The run of [merge_csvs], by the shape of the sorted listing. *)
Lemma merge_csvs_empty (dir : folder_listing) (out : export_slot) :
  sorted (glob_csv dir) = [] ->
  merge_csvs dir out = (inl (ValueError "No CSV files found"), out).
Proof. unfold merge_csvs. intros ->. reflexivity. Qed.

Lemma merge_csvs_cons (dir : folder_listing) (out : export_slot)
    (first : string * csv_file) (rest : folder_listing) :
  sorted (glob_csv dir) = first :: rest ->
  merge_csvs dir out =
  match header_of first with
  | None => (inl StopIteration, out)
  | Some h =>
      match merge_loop 1 rest (Some h) (data_rows first) with
      | inl e => (inl e, out)
      | inr (Some header, merged_rows) => (inr tt, Some (header :: merged_rows))
      | inr (None, _) => (inl (TypeError "iterable expected, not NoneType"), out)
      end
  end.
Proof.
  unfold merge_csvs. intros ->. rewrite bool_decide_false by done.
  destruct first as [name [|h rows0]]; [reflexivity|].
  unfold header_of, data_rows. cbn.
  destruct (merge_loop 1 rest (Some h) rows0) as [e|[[header|] merged]]; reflexivity.
Qed.






(** ** purge_folder *)

Lemma purge_folder_missing (depth : nat) (folder : path) (fs : node) :
  path_exists folder fs = false ->
  purge_folder (S depth) folder fs = (inr tt, fs).
Proof.
  intros H. cbn [purge_folder]. unfold mbind, ST_bind, ask.
  rewrite H. reflexivity.
Qed.

Lemma directories_empty (p : path) : directories p (Dir []) = [(p, [])].
Proof. reflexivity. Qed.

Lemma purge_folder_empty (depth : nat) (folder : path) (fs : node) :
  folder <> [] ->
  resolve folder fs = Found (Dir []) ->
  purge_folder (S depth) folder fs = (inr tt, remove_at folder fs).
Proof.
  intros Hne H. cbn [purge_folder].
  unfold mbind, ST_bind, ask, rglob, rmdir, path_exists.
  rewrite H. cbn [negb]. cbv beta iota. rewrite H.
  rewrite directories_empty. cbn [flat_map map app fst snd for_each].
  unfold mret, ST_ret. rewrite H. by destruct folder.
Qed.

(** Where the claim holds: on a folder that holds files and links only,
    the run removes them all and then the folder. *)
Example purge_folder_flat (depth : nat) :
  purge_folder (S depth) ["dataset"; "data"]
    (Dir [("dataset",
           Dir [("data", Dir [("wk1.csv", File); ("latest", Symlink ToFile);
                              ("stale", Symlink Dangling)]);
                ("fg_data.csv", File)])])
  = (inr tt, Dir [("dataset", Dir [("fg_data.csv", File)])]).
Proof. reflexivity. Qed.

(** C4 (the code falls short of it).  On a folder with one empty
    subdirectory [purge_folder] raises instead of removing everything: the
    nested call has already removed the subdirectory when [path.rmdir()]
    runs, so that call raises [FileNotFoundError] and the folder itself is
    never removed. *)
Theorem purge_folder_subdirectory_raises (depth : nat) :
  purge_folder (S (S depth)) ["data"] (Dir [("data", Dir [("sub", Dir [])])])
  = (inl FileNotFoundError, Dir [("data", Dir [])]).
Proof. reflexivity. Qed.

(** The same two levels down, with files around. *)
Example purge_folder_nested_raises (depth : nat) :
  purge_folder (S (S (S depth))) ["data"]
    (Dir [("data", Dir [("a.csv", File);
                        ("y2021", Dir [("wk1.csv", File); ("raw", Dir [])]);
                        ("b.csv", File)])])
  = (inl FileNotFoundError,
     Dir [("data", Dir [("y2021", Dir []); ("b.csv", File)])]).
Proof. reflexivity. Qed.

(** ** validate_dir *)

Lemma resolve_app (q r : path) (fs : node) :
  resolve (q ++ r) fs =
  match resolve q fs with
  | Found n => resolve r n
  | w => w
  end.
Proof.
  revert fs. induction q as [|y q IH]; intros fs; [done|].
  cbn [app resolve]. destruct fs as [|t|es]; [done|by destruct t|].
  destruct (child y es); [apply IH|done].
Qed.


Lemma child_app_new (x : string) (es : list (string * node)) (n : node) :
  child x es = None -> child x (es ++ [(x, n)]) = Some n.
Proof.
  unfold child. induction es as [|e es IH]; cbn.
  - unfold entry_named. cbn. by rewrite String.eqb_refl.
  - destruct (entry_named x e); [done|apply IH].
Qed.

Lemma child_map_update (x : string) (f : node -> node)
    (es : list (string * node)) :
  child x (map (fun e => if entry_named x e then (fst e, f (snd e)) else e) es)
  = f <$> child x es.
Proof.
  unfold child. induction es as [|e es IH]; cbn; [done|].
  destruct (entry_named x e) eqn:E; cbn.
  - unfold entry_named in *. cbn. by rewrite E.
  - by rewrite E.
Qed.

Lemma add_dir_at_cons (y : string) (q : path) (x : string)
    (es : list (string * node)) :
  add_dir_at (y :: q ++ [x]) (Dir es)
  = Dir (map (fun e => if entry_named y e
                       then (fst e, add_dir_at (q ++ [x]) (snd e)) else e) es).
Proof. cbn [add_dir_at]. by destruct q. Qed.

(** The new directory is appended to its parent's entries. *)
Lemma resolve_add_dir_at_parent (q : path) (x : string) (fs : node)
    (es : list (string * node)) :
  resolve q fs = Found (Dir es) ->
  resolve q (add_dir_at (q ++ [x]) fs) = Found (Dir (es ++ [(x, Dir [])])).
Proof.
  revert fs. induction q as [|y q IH]; intros fs.
  - cbn. by intros [= ->].
  - cbn [resolve]. destruct fs as [|t|es0]; [done|by destruct t|].
    destruct (child y es0) as [c|] eqn:Hc; [|done]. intros Hq.
    change ((y :: q) ++ [x]) with (y :: q ++ [x]).
    rewrite add_dir_at_cons, child_map_update, Hc. cbn. by apply IH.
Qed.

Lemma resolve_add_dir_at (q : path) (x : string) (fs : node)
    (es : list (string * node)) :
  resolve q fs = Found (Dir es) -> child x es = None ->
  resolve (q ++ [x]) (add_dir_at (q ++ [x]) fs) = Found (Dir []).
Proof.
  intros Hq Hx. rewrite resolve_app.
  rewrite (resolve_add_dir_at_parent _ _ _ _ Hq). cbn.
  by rewrite child_app_new.
Qed.

Lemma resolve_below_missing (q : path) (x : string) (r : path) (fs : node)
    (es : list (string * node)) :
  resolve q fs = Found (Dir es) -> child x es = None ->
  resolve (q ++ x :: r) fs = ENOENT.
Proof. intros Hq Hx. rewrite resolve_app, Hq. cbn. by rewrite Hx. Qed.

(** [os.mkdir] of a missing entry of an existing directory. *)
Lemma os_mkdir_new (q : path) (x : string) (fs : node)
    (es : list (string * node)) :
  resolve q fs = Found (Dir es) -> child x es = None ->
  os_mkdir (q ++ [x]) fs = (inr tt, add_dir_at (q ++ [x]) fs).
Proof.
  intros Hq Hx. unfold os_mkdir.
  rewrite (resolve_below_missing _ _ [] _ _ Hq Hx).
  by rewrite removelast_last, Hq.
Qed.







(** ** Frames: labels, cells, rows *)

Lemma frame_of_records_wf (rs : list record) : well_formed (frame_of_records rs).
Proof.
  unfold well_formed, frame_of_records. cbn. apply Forall_forall.
  intros row Hrow. apply list_elem_of_In, in_map_iff in Hrow as (r & <- & _).
  unfold row_of_record. by rewrite length_map.
Qed.

Lemma response_as_df_wf (j : json) (df : DataFrame) :
  response_as_df j = Ok df -> well_formed df /\ NoDup (columns df).
Proof.
  unfold response_as_df, pd_DataFrame.
  destruct (response_sequence j) as [[| | |]|items|d]; try discriminate.
  - intros [= <-]. split; [constructor|constructor].
  - destruct (as_records items) as [rs|]; [|discriminate]. intros [= <-].
    split; [apply frame_of_records_wf|apply union_keys_NoDup].
Qed.

Lemma unique_labels_NoDup (cols : list string) :
  unique_labels cols = true <-> NoDup cols.
Proof. unfold unique_labels. apply bool_decide_eq_true. Qed.

Lemma has_label_elem (c : string) (cols : list string) :
  has_label c cols = true <-> c ∈ cols.
Proof. unfold has_label. apply bool_decide_eq_true. Qed.

Lemma label_index_None (c : string) (cols : list string) :
  label_index c cols = None <-> c ∉ cols.
Proof.
  induction cols as [|c' cols IH]; cbn.
  - split; [intros _; apply not_elem_of_nil|done].
  - rewrite not_elem_of_cons. destruct (String.eqb_spec c c') as [->|Hne].
    + split; [done|]. intros [? _]. done.
    + destruct (label_index c cols); cbn.
      * split; [done|]. intros [_ H]. by apply IH in H.
      * split; [|done]. intros _. split; [done|]. by apply IH.
Qed.

Lemma label_index_Some (c : string) (cols : list string) (i : nat) :
  label_index c cols = Some i -> cols !! i = Some c.
Proof.
  revert i. induction cols as [|c' cols IH]; intros i; cbn; [done|].
  destruct (String.eqb_spec c c') as [->|Hne].
  - by intros [= <-].
  - destruct (label_index c cols) as [k|]; cbn; [|done].
    intros [= <-]. cbn. by apply IH.
Qed.

Lemma label_index_elem (c : string) (cols : list string) :
  c ∈ cols -> exists i, label_index c cols = Some i.
Proof.
  intros Hc. destruct (label_index c cols) as [i|] eqn:E; [eauto|].
  by apply label_index_None in E.
Qed.

Lemma label_index_app_new (c : string) (cols rest : list string) :
  c ∉ cols -> label_index c (cols ++ c :: rest) = Some (length cols).
Proof.
  induction cols as [|c' cols IH]; cbn.
  - intros _. by rewrite String.eqb_refl.
  - rewrite not_elem_of_cons. intros [Hne Hc].
    destruct (String.eqb_spec c c') as [->|_]; [done|].
    by rewrite IH.
Qed.

Lemma label_index_app_old (c : string) (cols rest : list string) (i : nat) :
  label_index c cols = Some i -> label_index c (cols ++ rest) = Some i.
Proof.
  revert i. induction cols as [|c' cols IH]; intros i; cbn; [done|].
  destruct (String.eqb c c'); [done|].
  destruct (label_index c cols) as [k|]; cbn; [|done].
  intros [= <-]. by rewrite (IH k).
Qed.

Lemma cell_at_app_last (a : list json) (v : json) (rest : list json) :
  cell_at (length a) (a ++ v :: rest) = v.
Proof. unfold cell_at. induction a as [|x a IH]; cbn; [done|apply IH]. Qed.

Lemma cell_at_app_l (a rest : list json) (i : nat) :
  (i < length a)%nat -> cell_at i (a ++ rest) = cell_at i a.
Proof. unfold cell_at. intros Hi. by apply app_nth1. Qed.

Lemma set_nth_app_last {A} (a : list A) (u v : A) (rest : list A) :
  set_nth (length a) v (a ++ u :: rest) = a ++ v :: rest.
Proof. induction a as [|x a IH]; cbn; [done|by rewrite IH]. Qed.

Lemma remove_nth_app_last {A} (a : list A) (u : A) (rest : list A) :
  remove_nth (length a) (a ++ u :: rest) = a ++ rest.
Proof. induction a as [|x a IH]; cbn; [done|by rewrite IH]. Qed.

Lemma NoDup_map_inj {A B} (f : A -> B) (l : list A) (x y : A) :
  NoDup (map f l) -> x ∈ l -> y ∈ l -> f x = f y -> x = y.
Proof.
  induction l as [|z l IH]; cbn; [by intros _ ?%elem_of_nil|].
  rewrite NoDup_cons. intros [Hz Hl] Hx Hy Hf.
  apply elem_of_cons in Hx as [->|Hx]; apply elem_of_cons in Hy as [->|Hy].
  - done.
  - destruct Hz. rewrite Hf. apply list_elem_of_In, in_map, list_elem_of_In, Hy.
  - destruct Hz. rewrite <- Hf. apply list_elem_of_In, in_map, list_elem_of_In, Hx.
  - by apply IH.
Qed.

(** [mapM] over the error monad, step by step. *)
Lemma mapM_result_cons {A B} (f : A -> result B) (x : A) (l : list A) :
  mapM f (x :: l) =
  match f x with
  | inl e => inl e
  | inr y => match mapM f l with
             | inl e => inl e
             | inr k => inr (y :: k)
             end
  end.
Proof. cbn. destruct (f x); [done|]. cbn. by destruct (mapM f l). Qed.

Lemma mapM_result_Ok {A B} (f : A -> result B) (l : list A) (k : list B) :
  mapM f l = Ok k <-> Forall2 (fun x y => f x = Ok y) l k.
Proof.
  revert k. induction l as [|x l IH]; intros k.
  - cbn. split.
    + intros [= <-]. constructor.
    + intros H. by inversion H.
  - rewrite mapM_result_cons. split.
    + destruct (f x) as [e|y] eqn:Ex; [done|].
      destruct (mapM f l) as [e|k'] eqn:El; [done|]. intros [= <-].
      constructor; [done|]. by apply IH.
    + intros H. inversion H as [|? y ? k' Hx Hl]; subst.
      rewrite Hx. apply IH in Hl. unfold Ok in Hl. by rewrite Hl.
Qed.

(** ** The indicator column *)


Lemma made_value_missing : made_value NaN = Ok (JNum 0).
Proof. reflexivity. Qed.

Lemma made_value_int (v r : json) :
  made_value v = Ok r -> exists z, r = JNum z.
Proof.
  unfold made_value, astype_int.
  destruct (replace_made (fillna0 v)) as [[|b|z|s]| |]; try discriminate.
  - intros [= <-]. eauto.
  - intros [= <-]. eauto.
  - destruct (py_int_of_string s); [|discriminate]. intros [= <-]. eauto.
Qed.

(** Text that is not the success label goes through [int()]. *)
Lemma made_value_text (s : string) :
  s <> "Field Goal Made" ->
  made_value (JStr s) =
  match py_int_of_string s with
  | Some z => Ok (JNum z)
  | None => Raise (ValueError "invalid literal for int() with base 10")
  end.
Proof.
  intros Hs. unfold made_value, fillna0, replace_made, JStr.
  unfold py_eqb. cbn [scalar_num].
  rewrite bool_decide_false by congruence.
  rewrite bool_decide_false by discriminate. reflexivity.
Qed.

Lemma getitem_at (df : DataFrame) (c : string) (i : nat) :
  NoDup (columns df) -> label_index c (columns df) = Some i ->
  getitem df c = Ok (map (cell_at i) (rows df)).
Proof.
  intros Hu Hi. unfold getitem.
  rewrite (proj2 (unique_labels_NoDup _) Hu), Hi. reflexivity.
Qed.

Lemma setitem_at (df : DataFrame) (c : string) (i : nat) (vals : list json) :
  NoDup (columns df) -> label_index c (columns df) = Some i ->
  setitem df c vals
  = Ok (mkDF (columns df)
             (zip_with (fun row v => set_nth i v row) (rows df) vals)).
Proof.
  intros Hu Hi. unfold setitem.
  rewrite (proj2 (unique_labels_NoDup _) Hu), Hi. reflexivity.
Qed.

Lemma zip_with_map_r {A B C} (f : A -> B -> C) (g : A -> B) (l : list A) :
  zip_with f l (map g l) = map (fun x => f x (g x)) l.
Proof. induction l as [|x l IH]; cbn; [done|by rewrite IH]. Qed.

Lemma cell_at_set_nth (i : nat) (v : json) (row : list json) :
  (i < length row)%nat -> cell_at i (set_nth i v row) = v.
Proof.
  unfold cell_at. revert i. induction row as [|x row IH]; intros i; cbn; [lia|].
  destruct i as [|i]; cbn; [done|]. intros Hi. apply IH. lia.
Qed.

Lemma set_nth_set_nth {A} (i : nat) (u v : A) (row : list A) :
  set_nth i v (set_nth i u row) = set_nth i v row.
Proof.
  revert i. induction row as [|x row IH]; intros i; destruct i; cbn; try done.
  by rewrite IH.
Qed.

Lemma zip_with_set_nth_map (i : nat) (g : list json -> json)
    (l : list (list json)) (vals : list json) :
  zip_with (fun row v => set_nth i v row)
           (map (fun row => set_nth i (g row) row) l) vals
  = zip_with (fun row v => set_nth i v row) l vals.
Proof.
  revert vals. induction l as [|row l IH]; intros [|v vals]; cbn; try done.
  by rewrite set_nth_set_nth, IH.
Qed.

Lemma mapM_result_map {A B C} (f : B -> result C) (g : A -> B) (l : list A) :
  mapM f (map g l) = mapM (fun x => f (g x)) l.
Proof.
  induction l as [|x l IH]; [done|].
  cbn [map]. by rewrite !mapM_result_cons, IH.
Qed.

Lemma mapM_result_ext {A B} (f g : A -> result B) (l : list A) :
  Forall (fun x => f x = g x) l -> mapM f l = mapM g l.
Proof.
  induction 1 as [|x l Hx Hl IH]; [done|].
  by rewrite !mapM_result_cons, Hx, IH.
Qed.

Lemma set_nth_length {A} (i : nat) (v : A) (row : list A) :
  length (set_nth i v row) = length row.
Proof.
  revert i. induction row as [|x row IH]; intros [|i]; cbn; try done.
  by rewrite IH.
Qed.

(** Lines 151-156 on a frame whose rows reach the ['made'] column: every
    cell of the column goes through [made_value]. *)
Lemma made_indicator_spec (df : DataFrame) (i : nat) :
  NoDup (columns df) -> label_index "made" (columns df) = Some i ->
  Forall (fun row => (i < length row)%nat) (rows df) ->
  made_indicator df =
  match mapM (fun row => made_value (cell_at i row)) (rows df) with
  | inl e => inl e
  | inr vals =>
      Ok (mkDF (columns df)
               (zip_with (fun row v => set_nth i v row) (rows df) vals))
  end.
Proof.
  intros Hu Hi Hlen. unfold made_indicator.
  rewrite (getitem_at df "made" i Hu Hi). cbn [mbind result_bind rbind Ok].
  rewrite (setitem_at df "made" i _ Hu Hi). cbn [mbind result_bind rbind Ok].
  rewrite (map_map (cell_at i) fillna0), zip_with_map_r.
  rewrite (getitem_at _ "made" i) by done.
  cbn [mbind result_bind rbind Ok rows columns].
  rewrite (setitem_at _ "made" i) by done.
  cbn [mbind result_bind rbind Ok rows columns].
  rewrite (map_map (cell_at i) replace_made), zip_with_map_r.
  rewrite (getitem_at _ "made" i) by done.
  cbn [mbind result_bind rbind Ok rows columns].
  rewrite !mapM_result_map.
  rewrite (mapM_result_ext _ (fun row => made_value (cell_at i row))).
  - destruct (mapM _ (rows df)) as [e|vals];
      cbn [mbind result_bind rbind Ok]; [done|].
    rewrite (setitem_at _ "made" i) by done. cbn [rows columns].
    by rewrite !zip_with_set_nth_map.
  - eapply Forall_impl; [exact Hlen|]. cbn beta. intros row Hr.
    rewrite !cell_at_set_nth; [done|done|by rewrite set_nth_length].
Qed.

(** ** Joins *)

(** What a successful [pd.merge] went through. *)
Lemma pd_merge_Ok (left right : DataFrame) (h : how) (lk rk : string)
    (df : DataFrame) :
  pd_merge left right h lk rk = Ok df ->
  exists li ri lkeys rkeys,
    NoDup (columns left) /\ NoDup (columns right) /\
    label_index lk (columns left) = Some li /\
    label_index rk (columns right) = Some ri /\
    keys_of li (rows left) = Ok lkeys /\
    keys_of ri (rows right) = Ok rkeys /\
    let same := String.eqb lk rk in
    let rcols := if same then remove_nth ri (columns right) else columns right in
    let rrows := if same then map (remove_nth ri) (rows right) else rows right in
    let overlap := filter (fun c => has_label c rcols) (columns left) in
    let llabels := map (suffixed overlap "_x") (columns left) in
    let rlabels := map (suffixed overlap "_y") rcols in
    NoDup (llabels ++ rlabels) /\
    df = mkDF (llabels ++ rlabels)
              (concat (zip_with (join_row h (length rcols) rkeys rrows)
                                lkeys (rows left))).
Proof.
  unfold pd_merge.
  destruct (unique_labels (columns left)) eqn:Hul; [|discriminate].
  destruct (unique_labels (columns right)) eqn:Hur; [|discriminate].
  cbn [andb negb].
  destruct (label_index lk (columns left)) as [li|] eqn:Hli; [|discriminate].
  destruct (label_index rk (columns right)) as [ri|] eqn:Hri; [|discriminate].
  destruct (keys_of li (rows left)) as [e|lkeys] eqn:Hlk; [discriminate|].
  destruct (keys_of ri (rows right)) as [e|rkeys] eqn:Hrk; [discriminate|].
  cbn [mbind result_bind rbind].
  match goal with |- context [negb (?a && ?b)] => destruct a; [|discriminate]; destruct b; [|discriminate] end.
  cbn [andb negb].
  match goal with |- context [negb (unique_labels ?l)] => destruct (unique_labels l) eqn:Hall; [|discriminate] end.
  cbn [negb]. intros [= <-].
  exists li, ri, lkeys, rkeys.
  apply unique_labels_NoDup in Hul, Hur, Hall.
  do 6 (split; [done|]). cbv zeta. split; [exact Hall|reflexivity].
Qed.

Lemma omap_label_index (cols cs : list string) :
  (forall c, c ∈ cs -> c ∈ cols) ->
  Forall2 (fun c i => label_index c cols = Some i) cs
          (omap (fun c => label_index c cols) cs).
Proof.
  induction cs as [|c cs IH]; intros Hin; cbn; [constructor|].
  destruct (label_index_elem c cols) as [i Hi]; [apply Hin; left|].
  rewrite Hi. constructor; [done|]. apply IH. intros c' Hc'. apply Hin. by right.
Qed.

(** What a successful [df[[...]]] selected. *)
Lemma getitems_Ok (df : DataFrame) (cs : list string) (right : DataFrame) :
  getitems df cs = Ok right ->
  NoDup (columns df) /\
  exists idx,
    Forall2 (fun c i => label_index c (columns df) = Some i) cs idx /\
    right = mkDF cs (map (fun row => map (fun i => cell_at i row) idx) (rows df)).
Proof.
  unfold getitems.
  destruct (unique_labels (columns df)) eqn:Hu; [|discriminate]. cbn [negb].
  destruct (filter _ cs) as [|missing rest] eqn:Hf; [|discriminate].
  intros [= <-]. split; [by apply unique_labels_NoDup|].
  eexists. split; [|reflexivity].
  apply omap_label_index. intros c Hc.
  destruct (has_label c (columns df)) eqn:Hc'; [by apply has_label_elem|].
  assert (Hin : c ∈ filter (fun c => negb (has_label c (columns df))) cs).
  { apply list_elem_of_filter. split; [|done]. by rewrite Hc'. }
  rewrite Hf in Hin. by apply elem_of_nil in Hin.
Qed.

Lemma rename_label_other (c : string) :
  c <> "statType_x" -> c <> "statType_y" ->
  default c (snd <$> find (fun kv => String.eqb c (fst kv)) fg_renames) = c.
Proof.
  intros H1 H2. cbn.
  destruct (String.eqb_spec c "statType_x"); [done|].
  destruct (String.eqb_spec c "statType_y"); done.
Qed.

Lemma suffixed_overlap (cols : list string) (sfx c : string) :
  c ∈ cols ->
  suffixed (filter (fun c => has_label c ["statType"]) cols) sfx c
  = if String.eqb c "statType" then (c ++ sfx)%string else c.
Proof.
  intros Hc. unfold suffixed.
  destruct (String.eqb_spec c "statType") as [->|Hne].
  - rewrite (proj2 (has_label_elem _ _)); [done|].
    apply list_elem_of_filter. split; [|done].
    apply Is_true_true, has_label_elem. left.
  - destruct (has_label c (filter _ cols)) eqn:E; [|done].
    apply has_label_elem, list_elem_of_filter in E as [E _].
    apply Is_true_true, has_label_elem, list_elem_of_singleton in E. done.
Qed.

(** Lines 138-148: the rows of the joined frame are those of the left
    join; when the attempts carry a [statType] column, its columns are the
    attempts' columns followed by the provisional ['made'] column. *)
Lemma join_attempts_makes_Ok (attempts makes fg : DataFrame) :
  join_attempts_makes attempts makes = Ok fg ->
  exists li mi ml lkeys rkeys,
    NoDup (columns attempts) /\
    label_index "playId" (columns attempts) = Some li /\
    label_index "playId" (columns makes) = Some mi /\
    label_index "statType" (columns makes) = Some ml /\
    keys_of li (rows attempts) = Ok lkeys /\
    keys_of mi (rows makes) = Ok rkeys /\
    ("statType" ∈ columns attempts -> columns fg = columns attempts ++ ["made"]) /\
    rows fg = concat (zip_with
                        (join_row HowLeft 1 rkeys
                                  (map (fun m => [cell_at ml m]) (rows makes)))
                        lkeys (rows attempts)) /\
    length (columns fg) = S (length (columns attempts)).
Proof.
  unfold join_attempts_makes. intros Hrun.
  destruct (getitems makes ["playId"; "statType"]) as [e|right] eqn:Hsel;
    [discriminate|].
  cbn [mbind result_bind rbind] in Hrun.
  destruct (pd_merge attempts right HowLeft "playId" "playId") as [e|merged] eqn:Hm;
    [discriminate|].
  cbn [mbind result_bind rbind mret result_ret] in Hrun. injection Hrun as <-.
  apply getitems_Ok in Hsel as (Hum & idx & Hidx & ->).
  inversion Hidx as [|? mi ? idx' Hmi Hidx']; subst.
  inversion Hidx' as [|? ml ? idx'' Hml Hnil]; subst.
  inversion Hnil; subst. clear Hidx Hidx' Hnil.
  apply pd_merge_Ok in Hm
    as (li & ri & lkeys & rkeys & Hua & _ & Hli & Hri & Hlk & Hrk & Hall & ->).
  cbn in Hri. injection Hri as <-.
  cbn [columns rows String.eqb Ascii.eqb Bool.eqb remove_nth map length] in Hall |- *.
  cbn [rows] in Hrk. unfold keys_of in Hrk |- *.
  exists li, mi, ml, lkeys, rkeys.
  split_and!; try done.
  - rewrite (mapM_result_map (key_of 0)) in Hrk. exact Hrk.
  - intros Hst.
    set (f := suffixed (filter (fun c => has_label c ["statType"]) (columns attempts)) "_x") in *.
    assert (Hy : suffixed (filter (fun c => has_label c ["statType"]) (columns attempts)) "_y"
                   "statType" = "statType_y").
    { by rewrite (suffixed_overlap _ _ _ Hst). }
    rewrite Hy in Hall |- *.
    assert (Hf : forall c, c ∈ columns attempts ->
                   f c = if String.eqb c "statType" then "statType_x" else c).
    { intros c Hc. unfold f. rewrite (suffixed_overlap _ _ _ Hc).
      by destruct (String.eqb_spec c "statType") as [->|]. }
    apply NoDup_app in Hall as (Hl & Hlr & _).
    assert (Hny : "statType_y" ∉ columns attempts).
    { intros Hin. apply (Hlr "statType_y"); [|left].
      apply list_elem_of_In, in_map_iff. exists "statType_y".
      split; [by rewrite (Hf _ Hin)|by apply list_elem_of_In]. }
    assert (Hnx : "statType_x" ∉ columns attempts).
    { intros Hin.
      assert (E : "statType" = "statType_x"); [|discriminate].
      apply (NoDup_map_inj f (columns attempts)); [done|done|done|].
      by rewrite (Hf _ Hst), (Hf _ Hin). }
    cbn [rename columns]. rewrite map_app. cbn [map]. f_equal.
    rewrite map_map. rewrite <- (map_id (columns attempts)) at 2.
    apply map_ext_in. intros c Hc%list_elem_of_In. rewrite (Hf c Hc).
    destruct (String.eqb_spec c "statType") as [->|Hne]; [reflexivity|].
    apply rename_label_other; congruence.
  - cbn [rename rows]. by rewrite map_map.
  - cbn [rename columns]. rewrite length_map, length_app, length_map. cbn. lia.
Qed.

(** ** Rows of a join *)

Lemma keys_of_Forall2 (i : nat) (rs : list (list json)) (keys : list scalar) :
  keys_of i rs = Ok keys <-> Forall2 (fun row k => key_of i row = Ok k) rs keys.
Proof. apply mapM_result_Ok. Qed.

Lemma matches_nil_l (k : scalar) (rrows : list (list json)) :
  matches k [] rrows = [].
Proof. reflexivity. Qed.

Lemma matches_cons (k k' : scalar) (rkeys : list scalar) (r : list json)
    (rrows : list (list json)) :
  matches k (k' :: rkeys) (r :: rrows)
  = if py_eqb k k' then r :: matches k rkeys rrows else matches k rkeys rrows.
Proof.
  unfold matches. cbn [zip_with]. rewrite filter_cons. cbn [fst].
  destruct (py_eqb k k') eqn:E.
  - rewrite decide_True by done. reflexivity.
  - rewrite decide_False by (cbn; tauto). reflexivity.
Qed.

Lemma match_count_cons (k k' : scalar) (rkeys : list scalar) :
  match_count k (k' :: rkeys)
  = ((if py_eqb k k' then 1 else 0) + match_count k rkeys)%nat.
Proof.
  unfold match_count. rewrite filter_cons.
  destruct (py_eqb k k') eqn:E.
  - rewrite decide_True by done. reflexivity.
  - rewrite decide_False by (cbn; tauto). reflexivity.
Qed.

Lemma matches_length (k : scalar) (rkeys : list scalar)
    (rrows : list (list json)) :
  length rkeys = length rrows ->
  length (matches k rkeys rrows) = match_count k rkeys.
Proof.
  revert rrows. induction rkeys as [|k' rkeys IH]; intros [|r rrows] Hlen;
    try discriminate; [done|].
  rewrite matches_cons, match_count_cons.
  destruct (py_eqb k k'); cbn [length]; rewrite IH by (cbn in Hlen; lia); done.
Qed.

(** The rows of [right] paired with a key, traced back to [right]. *)
Lemma matches_elem (i : nat) (g : list json -> list json)
    (rs : list (list json)) (rkeys : list scalar) (k : scalar) (r : list json) :
  Forall2 (fun m k' => key_of i m = Ok k') rs rkeys ->
  r ∈ matches k rkeys (map g rs) ->
  exists m k', m ∈ rs /\ key_of i m = Ok k' /\ py_eqb k k' = true /\ r = g m.
Proof.
  induction 1 as [|m k' rs rkeys Hm Hrest IH]; cbn [map].
  - by intros ?%elem_of_nil.
  - rewrite matches_cons. destruct (py_eqb k k') eqn:E.
    + intros [->|Hr]%elem_of_cons.
      * exists m, k'. split_and!; [left|done..].
      * destruct (IH Hr) as (m' & k'' & ? & ? & ? & ?).
        exists m', k''. split_and!; [by right|done..].
    + intros Hr. destruct (IH Hr) as (m' & k'' & ? & ? & ? & ?).
      exists m', k''. split_and!; [by right|done..].
Qed.

Lemma matches_none (i : nat) (g : list json -> list json)
    (rs : list (list json)) (rkeys : list scalar) (k : scalar) :
  Forall2 (fun m k' => key_of i m = Ok k') rs rkeys ->
  matches k rkeys (map g rs) = [] ->
  forall m k', m ∈ rs -> key_of i m = Ok k' -> py_eqb k k' = false.
Proof.
  induction 1 as [|m k' rs rkeys Hm Hrest IH]; cbn [map].
  - by intros _ m k' ?%elem_of_nil.
  - rewrite matches_cons. destruct (py_eqb k k') eqn:E; [discriminate|].
    intros Hnil m' k'' [->|Hin]%elem_of_cons Hk.
    + rewrite Hm in Hk. by injection Hk as <-.
    + by apply (IH Hnil m').
Qed.

Lemma matches_some (i : nat) (g : list json -> list json)
    (rs : list (list json)) (rkeys : list scalar) (k k' : scalar)
    (m : list json) :
  Forall2 (fun m k' => key_of i m = Ok k') rs rkeys ->
  m ∈ rs -> key_of i m = Ok k' -> py_eqb k k' = true ->
  g m ∈ matches k rkeys (map g rs).
Proof.
  induction 1 as [|m0 k0 rs rkeys Hm Hrest IH]; cbn [map].
  - by intros ?%elem_of_nil.
  - rewrite matches_cons. intros [->|Hin]%elem_of_cons Hk E.
    + rewrite Hm in Hk. injection Hk as ->. rewrite E. left.
    + destruct (py_eqb k k0); [right|]; by apply IH.
Qed.

(** Every output row of a join comes from one row of [left]. *)
Lemma join_rows_elem (h : how) (w li : nat) (rkeys : list scalar)
    (rrows lrows : list (list json)) (lkeys : list scalar) (row : list json) :
  Forall2 (fun a k => key_of li a = Ok k) lrows lkeys ->
  row ∈ concat (zip_with (join_row h w rkeys rrows) lkeys lrows) ->
  exists a k, a ∈ lrows /\ key_of li a = Ok k /\
              row ∈ join_row h w rkeys rrows k a.
Proof.
  induction 1 as [|a k lrows lkeys Ha Hrest IH]; cbn [zip_with concat].
  - by intros ?%elem_of_nil.
  - intros [Hrow|Hrow]%elem_of_app.
    + exists a, k. split_and!; [left|done|done].
    + destruct (IH Hrow) as (a' & k' & ? & ? & ?).
      exists a', k'. split_and!; [by right|done|done].
Qed.

(** ... and every row of [left] reaches the output of a left join. *)
Lemma join_rows_left_keeps (w li : nat) (rkeys : list scalar)
    (rrows lrows : list (list json)) (lkeys : list scalar) (a : list json) :
  Forall2 (fun a k => key_of li a = Ok k) lrows lkeys ->
  a ∈ lrows ->
  exists k row, key_of li a = Ok k /\
    row ∈ join_row HowLeft w rkeys rrows k a /\
    row ∈ concat (zip_with (join_row HowLeft w rkeys rrows) lkeys lrows).
Proof.
  induction 1 as [|a0 k lrows lkeys Ha Hrest IH]; cbn [zip_with concat].
  - by intros ?%elem_of_nil.
  - intros [->|Hin]%elem_of_cons.
    + assert (exists row, row ∈ join_row HowLeft w rkeys rrows k a0) as [row Hrow].
      { unfold join_row. destruct (matches k rkeys rrows) as [|r ms].
        - eexists. left.
        - eexists. cbn [map]. left. }
      exists k, row. split_and!; [done|done|]. apply elem_of_app. by left.
    + destruct (IH Hin) as (k' & row & ? & ? & ?).
      exists k', row. split_and!; [done|done|]. apply elem_of_app. by right.
Qed.

Lemma join_row_elem (h : how) (w : nat) (rkeys : list scalar)
    (rrows : list (list json)) (k : scalar) (a row : list json) :
  row ∈ join_row h w rkeys rrows k a ->
  (exists r, r ∈ matches k rkeys rrows /\ row = a ++ r) \/
  (h = HowLeft /\ matches k rkeys rrows = [] /\ row = a ++ replicate w NaN).
Proof.
  unfold join_row. destruct (matches k rkeys rrows) as [|r ms] eqn:E.
  - destruct h.
    + intros ->%list_elem_of_singleton. by right.
    + by intros ?%elem_of_nil.
  - intros Hrow. left.
    assert (Hin : row ∈ map (fun r0 => a ++ r0) (r :: ms)) by (by destruct h).
    apply list_elem_of_In, in_map_iff in Hin as (r0 & <- & Hr0).
    exists r0. split; [by apply list_elem_of_In|done].
Qed.

Lemma join_row_length (h : how) (w : nat) (rkeys : list scalar)
    (rrows : list (list json)) (k : scalar) (a : list json) :
  length rkeys = length rrows ->
  length (join_row h w rkeys rrows k a)
  = match h with
    | HowLeft => Nat.max 1 (match_count k rkeys)
    | HowInner => match_count k rkeys
    end.
Proof.
  intros Hlen. rewrite <- (matches_length k rkeys rrows Hlen).
  unfold join_row. destruct (matches k rkeys rrows) as [|r ms]; destruct h;
    cbn [length map]; rewrite ?length_map; lia.
Qed.

(** ** Counting the rows of a join *)

Lemma py_eqb_sym (a b : scalar) : py_eqb a b = py_eqb b a.
Proof. unfold py_eqb. apply bool_decide_ext. split; congruence. Qed.

Lemma py_eqb_trans (a b c : scalar) :
  py_eqb a b = true -> py_eqb b c = true -> py_eqb a c = true.
Proof.
  unfold py_eqb. rewrite !bool_decide_eq_true. congruence.
Qed.

Lemma unique_keys_tail (k : scalar) (keys : list scalar) :
  unique_keys (k :: keys) -> unique_keys keys.
Proof.
  intros Hu i j k1 k2 Hi Hj E.
  assert (S i = S j) by (by apply (Hu (S i) (S j) k1 k2)). lia.
Qed.

Lemma match_count_zero (k : scalar) (keys : list scalar) :
  (forall k', k' ∈ keys -> py_eqb k k' = false) -> match_count k keys = 0%nat.
Proof.
  induction keys as [|k' keys IH]; intros Hno; [done|].
  rewrite match_count_cons, (Hno k') by left.
  rewrite IH; [done|]. intros k'' Hin. apply Hno. by right.
Qed.

Lemma match_count_unique (k : scalar) (keys : list scalar) :
  unique_keys keys -> (match_count k keys <= 1)%nat.
Proof.
  induction keys as [|k' keys IH]; intros Hu; [cbn; lia|].
  rewrite match_count_cons. destruct (py_eqb k k') eqn:E.
  - rewrite match_count_zero; [lia|].
    intros k'' Hin. destruct (py_eqb k k'') eqn:E'; [|done].
    apply list_elem_of_lookup in Hin as [j Hj].
    assert (0%nat = S j); [|lia].
    apply (Hu 0%nat (S j) k' k''); [done|done|].
    apply (py_eqb_trans _ k); [by rewrite py_eqb_sym|done].
  - specialize (IH (unique_keys_tail _ _ Hu)). lia.
Qed.

Lemma join_rows_length (h : how) (w : nat) (rkeys : list scalar)
    (rrows lrows : list (list json)) (lkeys : list scalar) :
  length rkeys = length rrows -> length lkeys = length lrows ->
  length (concat (zip_with (join_row h w rkeys rrows) lkeys lrows))
  = sum_list (map (rows_per_key h rkeys) lkeys).
Proof.
  intros Hr. revert lrows. induction lkeys as [|k lkeys IH];
    intros [|a lrows] Hl; try discriminate; [done|].
  cbn [zip_with concat map sum_list sum_list_with].
  rewrite length_app, (join_row_length h w rkeys rrows k a Hr).
  rewrite IH by (cbn in Hl; lia). reflexivity.
Qed.

Lemma sum_list_map_ge {A} (f : A -> nat) (l : list A) :
  (forall x, 1 <= f x)%nat -> (length l <= sum_list (map f l))%nat.
Proof.
  intros Hf. induction l as [|x l IH]; cbn; [lia|]. specialize (Hf x). lia.
Qed.

Lemma sum_list_map_le {A} (f : A -> nat) (l : list A) :
  (forall x, f x <= 1)%nat -> (sum_list (map f l) <= length l)%nat.
Proof.
  intros Hf. induction l as [|x l IH]; cbn; [lia|]. specialize (Hf x). lia.
Qed.

(** With distinct keys on the right, a left join gives each row of
    [left] exactly once, in order, with the cells of its match, or NaN,
    appended. *)
Lemma left_join_unique (w : nat) (rkeys : list scalar)
    (rrows lrows : list (list json)) (lkeys : list scalar) :
  length rkeys = length rrows -> unique_keys rkeys ->
  length lkeys = length lrows ->
  exists cells,
    length cells = length lrows /\
    Forall (fun c => c ∈ rrows \/ c = replicate w NaN) cells /\
    concat (zip_with (join_row HowLeft w rkeys rrows) lkeys lrows)
    = zip_with app lrows cells.
Proof.
  intros Hr Hu. revert lrows. induction lkeys as [|k lkeys IH];
    intros [|a lrows] Hl; try discriminate.
  - exists []. split_and!; [done|constructor|done].
  - destruct (IH lrows) as (cells & Hlen & Hcells & Heq); [cbn in Hl; lia|].
    cbn [zip_with concat]. rewrite Heq.
    pose proof (match_count_unique k rkeys Hu) as Hc.
    rewrite <- (matches_length k rkeys rrows Hr) in Hc.
    unfold join_row. destruct (matches k rkeys rrows) as [|r [|r' ms]] eqn:E.
    + exists (replicate w NaN :: cells).
      split_and!; [cbn; lia|constructor; [by right|done]|done].
    + exists (r :: cells). split_and!; [cbn; lia| |done].
      constructor; [|done]. left.
      assert (Hin : r ∈ matches k rkeys rrows) by (rewrite E; left).
      unfold matches in Hin.
      apply list_elem_of_fmap in Hin as ([k' r0] & -> & Hin).
      apply list_elem_of_filter in Hin as [_ Hin]. by apply elem_of_zip_r in Hin.
    + cbn in Hc. lia.
Qed.

(** ** The join of attempts and makes *)

(** C2 (as stated, refuted).  One attempt, and a makes table with two rows
    for its play: the joined table has two records for the one attempt. *)
Lemma join_attempts_makes_repeats_attempt :
  let attempts := frame_of_records
    [[("playId", JNum 7); ("statType", JStr "Field Goal Attempt")]] in
  let makes := frame_of_records
    [[("playId", JNum 7); ("statType", JStr "Field Goal Made")];
     [("playId", JNum 7); ("statType", JStr "Field Goal Made")]] in
  exists fg,
    join_attempts_makes attempts makes = Ok fg /\
    length (rows attempts) = 1%nat /\
    length (rows fg) = 2%nat.
Proof. eexists. split_and!; reflexivity. Qed.

(** C2 (amended).  The left join never drops an attempt row: every
    attempt row is in the joined table, with one cell appended, as many
    times as there are makes rows with its play identifier, and once if
    there is none.  When no two rows of the makes table have the same play
    identifier, the joined table has exactly one record per attempt row,
    in the attempts' order. *)
Theorem join_attempts_makes_rows (attempts makes fg : DataFrame) :
  join_attempts_makes attempts makes = Ok fg ->
  exists li mi lkeys rkeys,
    label_index "playId" (columns attempts) = Some li /\
    label_index "playId" (columns makes) = Some mi /\
    keys_of li (rows attempts) = Ok lkeys /\
    keys_of mi (rows makes) = Ok rkeys /\
    length (rows fg)
    = sum_list (map (fun k => Nat.max 1 (match_count k rkeys)) lkeys) /\
    (length (rows attempts) <= length (rows fg))%nat /\
    (forall a, a ∈ rows attempts -> exists cell, a ++ [cell] ∈ rows fg) /\
    (unique_keys rkeys ->
       exists cells,
         length cells = length (rows attempts) /\
         rows fg = zip_with (fun a cell => a ++ [cell]) (rows attempts) cells).
Proof.
  intros Hrun.
  apply join_attempts_makes_Ok in Hrun
    as (li & mi & ml & lkeys & rkeys & _ & Hli & Hmi & _ & Hlk & Hrk & _ & Hrows & _).
  exists li, mi, lkeys, rkeys.
  pose proof (proj1 (keys_of_Forall2 _ _ _) Hlk) as Hl2.
  pose proof (proj1 (keys_of_Forall2 _ _ _) Hrk) as Hr2.
  assert (Hrlen : length rkeys = length (map (fun m => [cell_at ml m]) (rows makes))).
  { rewrite length_map. symmetry. by apply Forall2_length in Hr2. }
  assert (Hllen : length lkeys = length (rows attempts)).
  { symmetry. by apply Forall2_length in Hl2. }
  assert (Hcount : length (rows fg)
    = sum_list (map (fun k => Nat.max 1 (match_count k rkeys)) lkeys)).
  { rewrite Hrows. by rewrite (join_rows_length HowLeft) by done. }
  split_and!; try done.
  - rewrite Hcount, <- Hllen. apply sum_list_map_ge. intros k. lia.
  - intros a Ha.
    destruct (join_rows_left_keeps 1 li rkeys
                (map (fun m => [cell_at ml m]) (rows makes))
                (rows attempts) lkeys a Hl2 Ha) as (k & row & _ & Hrow & Hin).
    rewrite <- Hrows in Hin.
    apply join_row_elem in Hrow as [(r & Hr & ->)|(_ & _ & ->)].
    + apply (matches_elem mi) with (rs := rows makes) in Hr
        as (m & k' & _ & _ & _ & ->); [|done]. by exists (cell_at ml m).
    + by exists NaN.
  - intros Hu.
    destruct (left_join_unique 1 rkeys (map (fun m => [cell_at ml m]) (rows makes))
                (rows attempts) lkeys Hrlen Hu Hllen) as (cells & Hlen & Hcells & Heq).
    exists (map (cell_at 0) cells). split; [by rewrite length_map|].
    rewrite Hrows, Heq. clear -Hcells.
    revert cells Hcells. induction (rows attempts) as [|a l IH];
      intros [|c cells] Hcells; cbn [map zip_with]; try done.
    inversion Hcells as [|? ? Hc Hrest]; subst. f_equal; [|by apply IH].
    f_equal. destruct Hc as [Hc| ->]; [|done].
    apply list_elem_of_In, in_map_iff in Hc as (m & <- & _). done.
Qed.

Lemma join_attempts_makes_rows_witness :
  let attempts := frame_of_records
    [[("playId", JNum 7); ("statType", JStr "Field Goal Attempt")];
     [("playId", JNum 8); ("statType", JStr "Field Goal Attempt")]] in
  let makes := frame_of_records
    [[("playId", JNum 7); ("statType", JStr "Field Goal Made")]] in
  exists fg,
    join_attempts_makes attempts makes = Ok fg /\
    (length (rows attempts) <= length (rows fg))%nat.
Proof.
  intros attempts makes. eexists. split; [reflexivity|].
  destruct (join_attempts_makes_rows attempts makes _ eq_refl)
    as (li & mi & lkeys & rkeys & _ & _ & _ & _ & _ & Hle & _).
  exact Hle.
Defined.

(** ** Runs of the weekly routine *)

Lemma get_df_run (srv : server) (client : CFBDClient) (subpath : string)
    (params : list (string * param)) (w : world) :
  exists rq w',
    get_df srv client subpath params w = (table_of_response (srv rq), w') /\
    url rq = (hostname client ++ "/" ++ subpath)%string /\
    req_params rq = Some params /\
    log w' = log w ++ [rq] /\
    disk w' = disk w.
Proof.
  unfold get_df, mbind, ST_bind. rewrite get_unfold_fresh, get_unfold.
  cbv zeta. cbn [heap log disk negb].
  match goal with |- context [srv ?r] => exists r end.
  eexists. split.
  { unfold table_of_response.
    destruct (ok _); cbn [negb]; [|reflexivity].
    destruct (body _) as [j|]; [|reflexivity].
    by destruct (response_as_df j). }
  split_and!; reflexivity.
Qed.

(** The tables of a run that wrote its file. *)
Lemma get_field_goal_data_written (srv : server) (client : CFBDClient)
    (is_dir : string -> bool) (year week : Z) (folder : string)
    (flag : bool) (w w' : world) :
  get_field_goal_data srv client is_dir year week folder flag w = (inr tt, w') ->
  exists rq_m rq_a makes attempts joined fg,
    is_dir folder = true /\
    req_params rq_m = Some (stats_params year week FIELD_GOAL_MADE) /\
    table_of_response (srv rq_m) = Ok makes /\
    req_params rq_a = Some (stats_params year week FIELD_GOAL_ATTEMPT) /\
    table_of_response (srv rq_a) = Ok attempts /\
    join_attempts_makes attempts makes = Ok joined /\
    made_indicator joined = Ok fg /\
    let path := (folder ++ "/" ++ export_name year week flag)%string in
    if flag then
      exists rq_w weather merged,
        req_params rq_w = Some (weather_params year week) /\
        table_of_response (srv rq_w) = Ok weather /\
        join_weather fg weather = Ok merged /\
        log w' = log w ++ [rq_m; rq_a; rq_w] /\
        disk w' = (path, merged) :: disk w
    else
      log w' = log w ++ [rq_m; rq_a] /\
      disk w' = (path, fg) :: disk w.
Proof.
  unfold get_field_goal_data.
  destruct (is_dir folder) eqn:Hdir; cbn [negb]; [|discriminate].
  unfold mbind at 1, ST_bind.
  destruct (get_df_run srv client "plays/stats"
              (stats_params year week FIELD_GOAL_MADE) w)
    as (rq_m & w1 & -> & _ & Hpm & Hl1 & Hd1).
  destruct (table_of_response (srv rq_m)) as [e|makes] eqn:Hm; [discriminate|].
  unfold mbind at 1, ST_bind.
  destruct (get_df_run srv client "plays/stats"
              (stats_params year week FIELD_GOAL_ATTEMPT) w1)
    as (rq_a & w2 & -> & _ & Hpa & Hl2 & Hd2).
  destruct (table_of_response (srv rq_a)) as [e|attempts] eqn:Ha; [discriminate|].
  unfold mbind at 1, ST_bind, lift.
  destruct (join_attempts_makes attempts makes) as [e|joined] eqn:Hj; [discriminate|].
  unfold mbind at 1, ST_bind.
  destruct (made_indicator joined) as [e|fg] eqn:Hi; [discriminate|].
  intros Hrun. exists rq_m, rq_a, makes, attempts, joined, fg.
  do 7 (split; [done|]). cbv zeta.
  destruct flag; cbn [negb] in Hrun.
  - unfold mbind at 1, ST_bind in Hrun.
    destruct (get_df_run srv client "games/weather" (weather_params year week) w2)
      as (rq_w & w3 & Hrq & _ & Hpw & Hl3 & Hd3).
    rewrite Hrq in Hrun.
    destruct (table_of_response (srv rq_w)) as [e|weather] eqn:Hw; [discriminate|].
    unfold mbind at 1, ST_bind in Hrun.
    destruct (join_weather fg weather) as [e|merged] eqn:Hjw; [discriminate|].
    unfold to_csv in Hrun. injection Hrun as <-.
    exists rq_w, weather, merged. cbn [log disk].
    split_and!; try done.
    + rewrite Hl3, Hl2, Hl1. by rewrite <- !app_assoc.
    + by rewrite Hd3, Hd2, Hd1.
  - unfold to_csv in Hrun. injection Hrun as <-. cbn [log disk]. split.
    + rewrite Hl2, Hl1. by rewrite <- !app_assoc.
    + by rewrite Hd2, Hd1.
Qed.

(** The routine with its binds spelled out. *)
Lemma get_field_goal_data_unfold (srv : server) (client : CFBDClient)
    (is_dir : string -> bool) (year week : Z) (folder : string)
    (flag : bool) (w : world) :
  get_field_goal_data srv client is_dir year week folder flag w =
  if negb (is_dir folder) then
    (inl (AssertionError "Error: export_folder_path must be a folder."), w)
  else
    let path := (folder ++ "/" ++ export_name year week flag)%string in
    let (r1, w1) := get_df srv client "plays/stats"
                      (stats_params year week FIELD_GOAL_MADE) w in
    match r1 with
    | inl e => (inl e, w1)
    | inr makes =>
        let (r2, w2) := get_df srv client "plays/stats"
                          (stats_params year week FIELD_GOAL_ATTEMPT) w1 in
        match r2 with
        | inl e => (inl e, w2)
        | inr attempts =>
            match join_attempts_makes attempts makes with
            | inl e => (inl e, w2)
            | inr joined =>
                match made_indicator joined with
                | inl e => (inl e, w2)
                | inr fg =>
                    if negb flag then to_csv fg path w2
                    else
                      let (r3, w3) := get_df srv client "games/weather"
                                        (weather_params year week) w2 in
                      match r3 with
                      | inl e => (inl e, w3)
                      | inr weather =>
                          match join_weather fg weather with
                          | inl e => (inl e, w3)
                          | inr merged => to_csv merged path w3
                          end
                      end
                end
            end
        end
    end.
Proof.
  unfold get_field_goal_data. destruct (is_dir folder); [|reflexivity].
  cbn [negb]. unfold mbind, ST_bind, lift.
  destruct (get_df _ _ _ _ w) as [[e|makes] w1]; [reflexivity|].
  destruct (get_df _ _ _ _ w1) as [[e|attempts] w2]; [reflexivity|].
  destruct (join_attempts_makes attempts makes) as [e|joined]; [reflexivity|].
  destruct (made_indicator joined) as [e|fg]; [reflexivity|].
  destruct flag; [|reflexivity]. cbn [negb].
  destruct (get_df _ _ _ _ w2) as [[e|weather] w3]; [reflexivity|].
  by destruct (join_weather fg weather).
Qed.

(** A weather-enabled run that wrote its file, next to the
    weather-disabled run from the same state: the latter writes the
    field-goal table that the former joins with the weather table. *)
Lemma weather_run_plain_run (srv : server) (client : CFBDClient)
    (is_dir : string -> bool) (year week : Z) (folder : string)
    (w w1 : world) :
  get_field_goal_data srv client is_dir year week folder true w = (inr tt, w1) ->
  exists fg weather merged rq_w w0,
    get_field_goal_data srv client is_dir year week folder false w = (inr tt, w0) /\
    disk w0 = ((folder ++ "/" ++ export_name year week false)%string, fg) :: disk w /\
    disk w1 = ((folder ++ "/" ++ export_name year week true)%string, merged) :: disk w /\
    req_params rq_w = Some (weather_params year week) /\
    table_of_response (srv rq_w) = Ok weather /\
    join_weather fg weather = Ok merged.
Proof.
  rewrite !get_field_goal_data_unfold.
  destruct (is_dir folder) eqn:Hdir; cbn [negb]; [|discriminate]. cbv zeta.
  destruct (get_df_run srv client "plays/stats"
              (stats_params year week FIELD_GOAL_MADE) w)
    as (rq_m & wa & -> & _ & _ & _ & Hd1).
  destruct (table_of_response (srv rq_m)) as [e|makes]; [discriminate|].
  destruct (get_df_run srv client "plays/stats"
              (stats_params year week FIELD_GOAL_ATTEMPT) wa)
    as (rq_a & wb & -> & _ & _ & _ & Hd2).
  destruct (table_of_response (srv rq_a)) as [e|attempts]; [discriminate|].
  destruct (join_attempts_makes attempts makes) as [e|joined]; [discriminate|].
  destruct (made_indicator joined) as [e|fg]; [discriminate|].
  destruct (get_df_run srv client "games/weather" (weather_params year week) wb)
    as (rq_w & wc & -> & _ & Hpw & _ & Hd3).
  destruct (table_of_response (srv rq_w)) as [e|weather] eqn:Hw; [discriminate|].
  destruct (join_weather fg weather) as [e|merged] eqn:Hjw; [discriminate|].
  unfold to_csv. intros [= <-].
  exists fg, weather, merged, rq_w. eexists. split; [reflexivity|].
  cbn [disk]. split_and!; try done.
  - by rewrite Hd2, Hd1.
  - by rewrite Hd3, Hd2, Hd1.
Qed.

(** ** The field-goal table *)

Lemma key_of_Ok (i : nat) (row : list json) (k : scalar) :
  key_of i row = Ok k <-> cell_at i row = JScalar k.
Proof.
  unfold key_of. destruct (cell_at i row) as [v| |]; split; try done.
  - by intros [= ->].
  - by intros [= ->].
Qed.

(** A row of the joined frame: an attempt row followed by the label of a
    make with the same play identifier, or by NaN if there is none. *)
Lemma joined_row_shape (attempts makes joined : DataFrame) (row : list json) :
  join_attempts_makes attempts makes = Ok joined ->
  row ∈ rows joined ->
  exists li mi ml a cell,
    label_index "playId" (columns attempts) = Some li /\
    label_index "playId" (columns makes) = Some mi /\
    label_index "statType" (columns makes) = Some ml /\
    a ∈ rows attempts /\ row = a ++ [cell] /\
    ((cell = NaN /\
      forall m, m ∈ rows makes -> ~ key_match (cell_at li a) (cell_at mi m))
     \/ (exists m, m ∈ rows makes /\
           key_match (cell_at li a) (cell_at mi m) /\ cell = cell_at ml m)).
Proof.
  intros Hrun Hrow.
  apply join_attempts_makes_Ok in Hrun
    as (li & mi & ml & lkeys & rkeys & _ & Hli & Hmi & Hml & Hlk & Hrk & _ & Hrows & _).
  apply keys_of_Forall2 in Hlk, Hrk. rewrite Hrows in Hrow.
  apply (join_rows_elem _ _ li) in Hrow as (a & k & Ha & Hk & Hrow); [|done].
  exists li, mi, ml, a.
  apply join_row_elem in Hrow as [(r & Hr & ->)|(_ & Hnone & ->)].
  - apply (matches_elem mi) with (rs := rows makes) in Hr
      as (m & k' & Hm & Hk' & E & ->); [|done].
    exists (cell_at ml m). split_and!; try done. right.
    exists m. split_and!; [done| |done].
    exists k, k'. by rewrite <- !key_of_Ok.
  - exists NaN. split_and!; try done. left. split; [done|].
    intros m Hm (k1 & k2 & H1 & H2 & E).
    apply key_of_Ok in H1, H2. rewrite Hk in H1. unfold Ok in H1.
    injection H1 as <-.
    by rewrite (matches_none mi _ _ _ _ Hrk Hnone m k2 Hm H2) in E.
Qed.

Lemma made_indicator_NoDup (df df' : DataFrame) :
  made_indicator df = Ok df' -> NoDup (columns df).
Proof.
  unfold made_indicator.
  destruct (getitem df "made") as [e|made] eqn:G;
    cbn [mbind result_bind rbind]; [discriminate|].
  intros _. unfold getitem in G.
  destruct (unique_labels (columns df)) eqn:E; [|discriminate].
  by apply unique_labels_NoDup.
Qed.

(** Lines 138-156 together, for attempts that carry a [statType] column:
    the columns, and every row, of the field-goal table. *)
Lemma field_goals_rows (attempts makes joined fg : DataFrame) :
  join_attempts_makes attempts makes = Ok joined ->
  made_indicator joined = Ok fg ->
  "statType" ∈ columns attempts -> well_formed attempts ->
  exists li mi ml,
    label_index "playId" (columns attempts) = Some li /\
    label_index "playId" (columns makes) = Some mi /\
    label_index "statType" (columns makes) = Some ml /\
    columns fg = columns attempts ++ ["made"] /\
    NoDup (columns fg) /\
    forall row, row ∈ rows fg ->
      exists a z,
        row = a ++ [JNum z] /\ a ∈ rows attempts /\
        length a = length (columns attempts) /\
        ((z = 0 /\
          forall m, m ∈ rows makes -> ~ key_match (cell_at li a) (cell_at mi m))
         \/ (exists m, m ∈ rows makes /\
               key_match (cell_at li a) (cell_at mi m) /\
               made_value (cell_at ml m) = Ok (JNum z))).
Proof.
  intros Hjoin Hmade Hst Hwf.
  pose proof (made_indicator_NoDup _ _ Hmade) as Hnd.
  destruct (join_attempts_makes_Ok _ _ _ Hjoin)
    as (li & mi & ml & _ & _ & _ & Hli & Hmi & Hml & _ & _ & Hcols & _ & _).
  specialize (Hcols Hst). rewrite Hcols in Hnd.
  assert (Hidx : label_index "made" (columns joined)
                 = Some (length (columns attempts))).
  { rewrite Hcols. apply label_index_app_new.
    apply NoDup_app in Hnd as (_ & Hdisj & _).
    intros Hin. apply (Hdisj _ Hin). left. }
  assert (Hshape : forall row, row ∈ rows joined ->
            exists a cell, a ∈ rows attempts /\ row = a ++ [cell] /\
              length a = length (columns attempts) /\
              ((cell = NaN /\
                forall m, m ∈ rows makes -> ~ key_match (cell_at li a) (cell_at mi m))
               \/ (exists m, m ∈ rows makes /\
                     key_match (cell_at li a) (cell_at mi m) /\ cell = cell_at ml m))).
  { intros row Hrow.
    destruct (joined_row_shape _ _ _ _ Hjoin Hrow)
      as (li' & mi' & ml' & a & cell & Hli' & Hmi' & Hml' & Ha & -> & Hcase).
    rewrite Hli in Hli'. rewrite Hmi in Hmi'. rewrite Hml in Hml'.
    injection Hli' as <-. injection Hmi' as <-. injection Hml' as <-.
    exists a, cell. split_and!; try done.
    unfold well_formed in Hwf. rewrite Forall_forall in Hwf. by apply Hwf. }
  rewrite (made_indicator_spec joined (length (columns attempts))) in Hmade.
  2: { by rewrite Hcols. }
  2: { done. }
  2: { apply Forall_forall. intros row Hrow.
       destruct (Hshape row Hrow) as (a & cell & _ & -> & Hlen & _).
       rewrite length_app. cbn. lia. }
  destruct (mapM _ (rows joined)) as [e|vals] eqn:Hvals; [discriminate|].
  injection Hmade as <-. cbn [columns rows].
  apply mapM_result_Ok in Hvals.
  exists li, mi, ml. split_and!; try done.
  { by rewrite Hcols. }
  intros row Hrow.
  apply elem_of_lookup_zip_with in Hrow as (i & row0 & v & -> & Hrow0 & Hv).
  pose proof (Forall2_lookup_lr _ _ _ _ _ _ Hvals Hrow0 Hv) as Hval.
  cbn beta in Hval.
  destruct (Hshape row0) as (a & cell & Ha & -> & Hlen & Hcase).
  { by apply list_elem_of_lookup_2 in Hrow0. }
  rewrite <- Hlen in Hval |- *. rewrite cell_at_app_last in Hval.
  rewrite set_nth_app_last.
  destruct (made_value_int _ _ Hval) as [z ->].
  exists a, z. split_and!; try done.
  destruct Hcase as [(-> & Hno)|(m & Hm & Hkey & ->)].
  - left. split; [|done]. rewrite made_value_missing in Hval. by injection Hval.
  - right. by exists m.
Qed.

(** ** The join with the weather table *)

Lemma label_index_lookup (c : string) (cols : list string) (i : nat) :
  NoDup cols -> cols !! i = Some c -> label_index c cols = Some i.
Proof.
  revert i. induction cols as [|c' cols IH]; intros i Hnd Hi; [done|].
  apply NoDup_cons in Hnd as [Hc' Hnd]. destruct i as [|i]; cbn in *.
  - injection Hi as ->. by rewrite String.eqb_refl.
  - destruct (String.eqb_spec c c') as [->|_].
    + destruct Hc'. by apply list_elem_of_lookup_2 in Hi.
    + by rewrite (IH i).
Qed.

Lemma label_index_app_r (c : string) (cols rest : list string) :
  c ∉ cols ->
  label_index c (cols ++ rest)
  = (fun j => (length cols + j)%nat) <$> label_index c rest.
Proof.
  induction cols as [|c' cols IH]; cbn [app label_index length].
  - intros _. by destruct (label_index c rest).
  - rewrite not_elem_of_cons. intros [Hne Hc].
    destruct (String.eqb_spec c c') as [->|_]; [done|].
    rewrite IH by done. by destruct (label_index c rest).
Qed.

Lemma append_ne_id (c sfx : string) :
  sfx = "_x" \/ sfx = "_y" -> (c ++ sfx)%string <> "id".
Proof.
  intros [-> | ->]; destruct c as [|a [|b [|d c]]]; cbn; try discriminate;
    intros [= _ _ H]; by destruct c.
Qed.

Lemma suffixed_ne_id (overlap : list string) (sfx c : string) :
  sfx = "_x" \/ sfx = "_y" ->
  has_label "id" overlap = true \/ c <> "id" ->
  suffixed overlap sfx c <> "id".
Proof.
  intros Hsfx Hc. unfold suffixed.
  destruct (has_label c overlap) eqn:E; [by apply append_ne_id|].
  destruct Hc as [Hid|Hne]; [|done]. intros ->. congruence.
Qed.

(** What a successful [drop(columns=c)] removed. *)
Lemma drop_column_Ok (c : string) (df df' : DataFrame) :
  drop_column c df = Ok df' ->
  exists i,
    label_index c (columns df) = Some i /\
    df' = mkDF (remove_nth i (columns df)) (map (remove_nth i) (rows df)).
Proof.
  unfold drop_column. destruct (unique_labels (columns df)); [|discriminate].
  cbn [negb]. destruct (label_index c (columns df)) as [i|]; [|discriminate].
  intros [= <-]. eauto.
Qed.

(** Lines 194-201 on a well-formed field-goal table: the number of rows
    of the merged table, where its rows come from, and the place of the
    field-goal columns that are not weather columns. *)
Lemma join_weather_Ok (fg weather merged : DataFrame) :
  join_weather fg weather = Ok merged -> well_formed fg ->
  exists gi wi lkeys rkeys,
    label_index "gameId" (columns fg) = Some gi /\
    label_index "id" (columns weather) = Some wi /\
    keys_of gi (rows fg) = Ok lkeys /\
    keys_of wi (rows weather) = Ok rkeys /\
    length (rows merged) = sum_list (map (fun k => match_count k rkeys) lkeys) /\
    (forall row, row ∈ rows merged ->
       exists f rest, f ∈ rows fg /\ row = f ++ rest) /\
    (forall c i, c ∉ weather_columns_to_keep ->
       label_index c (columns fg) = Some i ->
       label_index c (columns merged) = Some i).
Proof.
  unfold join_weather. intros Hrun Hwf.
  destruct (getitems weather weather_columns_to_keep) as [e|right] eqn:Hsel;
    [discriminate|].
  cbn [mbind result_bind rbind] in Hrun.
  destruct (pd_merge fg right HowInner "gameId" "id") as [e|merged0] eqn:Hm;
    [discriminate|].
  cbn [mbind result_bind rbind] in Hrun.
  apply getitems_Ok in Hsel as (_ & idx & Hidx & ->).
  inversion Hidx as [|? wi ? idx' Hwi Hidx']; subst. clear Hidx.
  apply pd_merge_Ok in Hm
    as (gi & ri & lkeys & rkeys & Hufg & _ & Hgi & Hri & Hlk & Hrk & Hall & ->).
  cbn in Hri. injection Hri as <-.
  cbn [columns rows String.eqb Ascii.eqb Bool.eqb] in Hall, Hrun, Hrk.
  change (if false then _ else weather_columns_to_keep)
    with weather_columns_to_keep in *.
  set (wrows := map (fun row => map (fun i => cell_at i row) (wi :: idx'))
                    (rows weather)) in *.
  change (if false then _ else wrows) with wrows in *.
  set (overlap := filter (fun c => has_label c weather_columns_to_keep) (columns fg)) in *.
  set (llabels := map (suffixed overlap "_x") (columns fg)) in *.
  set (rlabels := map (suffixed overlap "_y") weather_columns_to_keep) in *.
  apply drop_column_Ok in Hrun as (n & Hn & ->). cbn [columns rows] in Hn |- *.
  (* the frame has no label [id] of its own *)
  assert (Hnoid : "id" ∉ columns fg).
  { intros Hin.
    assert (Hov : has_label "id" overlap = true).
    { apply has_label_elem, list_elem_of_filter. split; [|done].
      apply Is_true_true. reflexivity. }
    assert (Hnone : label_index "id" (llabels ++ rlabels) = None).
    { apply label_index_None. intros [H|H]%elem_of_app;
        apply list_elem_of_In, in_map_iff in H as (c & Hc & _);
        revert Hc; apply suffixed_ne_id; auto. }
    congruence. }
  assert (Hl : "id" ∉ llabels).
  { intros H. apply list_elem_of_In, in_map_iff in H as (c & Hc & Hin).
    revert Hc. apply suffixed_ne_id; [auto|]. right. intros ->.
    by apply Hnoid, list_elem_of_In. }
  assert (Hr : rlabels = "id" :: map (suffixed overlap "_y") (tail weather_columns_to_keep)).
  { unfold rlabels. cbn [weather_columns_to_keep map tail]. f_equal.
    unfold suffixed. destruct (has_label "id" overlap) eqn:E; [|done].
    apply has_label_elem, list_elem_of_filter in E as [_ E]. done. }
  assert (Hnn : n = length (columns fg)).
  { rewrite label_index_app_r, Hr in Hn by done. cbn in Hn.
    injection Hn as <-. unfold llabels. rewrite length_map. lia. }
  subst n. apply keys_of_Forall2 in Hlk as Hl2. apply keys_of_Forall2 in Hrk as Hr2.
  exists gi, wi, lkeys, rkeys. split_and!; try done.
  - unfold keys_of in Hrk |- *. unfold wrows in Hrk.
    by rewrite (mapM_result_map (key_of 0)) in Hrk.
  - rewrite length_map, (join_rows_length HowInner); [done| |].
    + symmetry. by apply Forall2_length in Hr2.
    + symmetry. by apply Forall2_length in Hl2.
  - intros row Hrow.
    apply list_elem_of_In, in_map_iff in Hrow as (row0 & <- & Hrow0).
    apply list_elem_of_In in Hrow0.
    apply (join_rows_elem _ _ gi) in Hrow0 as (f & k & Hf & _ & Hrow0); [|done].
    apply join_row_elem in Hrow0 as [(r & Hr0 & ->)|(? & _)]; [|done].
    unfold matches in Hr0. apply list_elem_of_fmap in Hr0 as ([k' r0] & -> & Hr0).
    apply list_elem_of_filter in Hr0 as [_ Hr0]. apply elem_of_zip_r in Hr0.
    apply list_elem_of_In, in_map_iff in Hr0 as (m & <- & _). cbn [snd map].
    exists f. eexists. split; [done|].
    unfold well_formed in Hwf. rewrite Forall_forall in Hwf.
    rewrite <- (Hwf f Hf). apply remove_nth_app_last.
  - intros c i Hc Hi. rewrite Hr.
    replace (length (columns fg)) with (length llabels)
      by (unfold llabels; by rewrite length_map).
    rewrite remove_nth_app_last. apply label_index_app_old.
    apply label_index_lookup.
    + by apply NoDup_app in Hall as (? & _).
    + unfold llabels. change (map ?f ?l) with (f <$> l).
      rewrite list_lookup_fmap, (label_index_Some _ _ _ Hi). cbn. f_equal.
      unfold suffixed. destruct (has_label c overlap) eqn:E; [|done].
      apply has_label_elem, list_elem_of_filter in E as [E _].
      apply Is_true_true, has_label_elem in E. done.
Qed.

(** ** Well-formedness along the routine *)

Lemma table_of_response_wf (r : http_response) (df : DataFrame) :
  table_of_response r = Ok df -> well_formed df /\ NoDup (columns df).
Proof.
  unfold table_of_response. destruct (ok r); cbn [negb]; [|discriminate].
  destruct (body r) as [j|]; [|discriminate]. apply response_as_df_wf.
Qed.

Lemma join_attempts_makes_wf (attempts makes joined : DataFrame) :
  join_attempts_makes attempts makes = Ok joined ->
  well_formed attempts -> well_formed joined.
Proof.
  intros Hjoin Hwf. unfold well_formed. apply Forall_forall. intros row Hrow.
  destruct (joined_row_shape _ _ _ _ Hjoin Hrow)
    as (_ & _ & _ & a & cell & _ & _ & _ & Ha & -> & _).
  destruct (join_attempts_makes_Ok _ _ _ Hjoin)
    as (_ & _ & _ & _ & _ & _ & _ & _ & _ & _ & _ & _ & _ & Hlen).
  rewrite Hlen, length_app. cbn.
  unfold well_formed in Hwf. rewrite Forall_forall in Hwf.
  rewrite (Hwf a Ha). lia.
Qed.

(** What a successful run of lines 151-156 did to a well-formed frame. *)
Lemma made_indicator_Ok (df df' : DataFrame) :
  made_indicator df = Ok df' -> well_formed df ->
  exists i vals,
    label_index "made" (columns df) = Some i /\
    Forall2 (fun row v => made_value (cell_at i row) = Ok v) (rows df) vals /\
    columns df' = columns df /\
    rows df' = zip_with (fun row v => set_nth i v row) (rows df) vals.
Proof.
  intros Hrun Hwf. pose proof (made_indicator_NoDup _ _ Hrun) as Hnd.
  destruct (label_index "made" (columns df)) as [i|] eqn:Hi.
  - rewrite (made_indicator_spec df i Hnd Hi) in Hrun.
    + destruct (mapM _ (rows df)) as [e|vals] eqn:Hvals; [discriminate|].
      injection Hrun as <-. exists i, vals. split_and!; try done.
      by apply mapM_result_Ok.
    + eapply Forall_impl; [exact Hwf|]. cbn beta. intros row ->.
      apply label_index_Some in Hi. by apply lookup_lt_Some in Hi.
  - unfold made_indicator, getitem in Hrun.
    rewrite (proj2 (unique_labels_NoDup _) Hnd), Hi in Hrun. discriminate.
Qed.

Lemma made_indicator_wf (df df' : DataFrame) :
  made_indicator df = Ok df' -> well_formed df -> well_formed df'.
Proof.
  intros Hrun Hwf.
  destruct (made_indicator_Ok _ _ Hrun Hwf) as (i & vals & _ & _ & Hc & Hr).
  unfold well_formed. rewrite Hc, Hr. apply Forall_forall. intros row Hrow.
  apply elem_of_lookup_zip_with in Hrow as (j & row0 & v & -> & Hrow0 & _).
  rewrite set_nth_length.
  unfold well_formed in Hwf. rewrite Forall_forall in Hwf.
  apply Hwf. by apply list_elem_of_lookup_2 in Hrow0.
Qed.

(** ** The weather join and the number of rows *)

(** C3 (as stated, refuted).  One attempt in game 1 and a weather response
    with two records for game 1: the weather-enabled file has two rows,
    the weather-disabled file one. *)
Lemma weather_join_expands :
  exists with_weather without_weather w1 w0 p1 p0,
    get_field_goal_data (canned_server
                           (JArr [make_record 7 1 "Field Goal Made"])
                           (JArr [attempt_record 7 1])
                           (JArr [weather_record 1; weather_record 1]))
      client0 (fun _ => true) 2022 5 "data" true world0 = (inr tt, w1) /\
    get_field_goal_data (canned_server
                           (JArr [make_record 7 1 "Field Goal Made"])
                           (JArr [attempt_record 7 1])
                           (JArr [weather_record 1; weather_record 1]))
      client0 (fun _ => true) 2022 5 "data" false world0 = (inr tt, w0) /\
    disk w1 = [(p1, with_weather)] /\
    disk w0 = [(p0, without_weather)] /\
    length (rows with_weather) = 2%nat /\
    length (rows without_weather) = 1%nat.
Proof.
  eexists _, _, _, _, _, _.
  split; [vm_compute; reflexivity|].
  split; [vm_compute; reflexivity|].
  split; [reflexivity|]. split; [reflexivity|]. split; reflexivity.
Qed.

(** C3 (amended).  When the weather-enabled run writes its file, the
    weather-disabled run from the same state writes one too, and the
    weather-enabled file has, for each row of the weather-disabled file,
    as many rows as the weather response has records with that row's game
    identifier.  So when no two weather records have the same identifier,
    the weather-enabled file has at most as many rows as the
    weather-disabled one. *)
Theorem weather_rows_bound (srv : server) (client : CFBDClient)
    (is_dir : string -> bool) (year week : Z) (folder : string)
    (w w1 : world) :
  get_field_goal_data srv client is_dir year week folder true w = (inr tt, w1) ->
  exists fg weather merged rq_w w0 gi wi lkeys rkeys,
    get_field_goal_data srv client is_dir year week folder false w = (inr tt, w0) /\
    disk w0 = ((folder ++ "/" ++ export_name year week false)%string, fg) :: disk w /\
    disk w1 = ((folder ++ "/" ++ export_name year week true)%string, merged) :: disk w /\
    req_params rq_w = Some (weather_params year week) /\
    table_of_response (srv rq_w) = Ok weather /\
    label_index "gameId" (columns fg) = Some gi /\
    label_index "id" (columns weather) = Some wi /\
    keys_of gi (rows fg) = Ok lkeys /\
    keys_of wi (rows weather) = Ok rkeys /\
    length (rows merged) = sum_list (map (fun k => match_count k rkeys) lkeys) /\
    (unique_keys rkeys -> (length (rows merged) <= length (rows fg))%nat).
Proof.
  intros Hrun.
  destruct (weather_run_plain_run _ _ _ _ _ _ _ _ Hrun)
    as (fg & weather & merged & rq_w & w0 & Hplain & Hd0 & Hd1 & Hp & Hw & Hjw).
  destruct (get_field_goal_data_written _ _ _ _ _ _ _ _ _ Hplain)
    as (rq_m & rq_a & makes & attempts & joined & fg' & _ & _ & _ & _ & Ha
        & Hjoin & Hmade & _ & Hd0').
  cbv zeta in Hd0'. rewrite Hd0 in Hd0'. injection Hd0' as <-.
  assert (Hwf : well_formed fg).
  { apply (made_indicator_wf joined); [done|].
    apply (join_attempts_makes_wf attempts makes); [done|].
    by apply table_of_response_wf in Ha as [? _]. }
  destruct (join_weather_Ok _ _ _ Hjw Hwf)
    as (gi & wi & lkeys & rkeys & Hgi & Hwi & Hlk & Hrk & Hcount & _).
  exists fg, weather, merged, rq_w, w0, gi, wi, lkeys, rkeys.
  split_and!; try done.
  intros Hu. rewrite Hcount.
  apply keys_of_Forall2, Forall2_length in Hlk. rewrite Hlk.
  apply sum_list_map_le. intros k. by apply match_count_unique.
Qed.

Lemma unique_keys_singleton (k : scalar) : unique_keys [k].
Proof.
  intros i j k1 k2 Hi Hj _.
  apply lookup_lt_Some in Hi, Hj. cbn in Hi, Hj. lia.
Qed.

Lemma weather_rows_bound_witness :
  let srv := canned_server (JArr [make_record 7 1 "Field Goal Made"])
               (JArr [attempt_record 7 1; attempt_record 8 2])
               (JArr [weather_record 1]) in
  let run flag :=
    get_field_goal_data srv client0 (fun _ => true) 2022 5 "data" flag world0 in
  exists with_weather without_weather p1 p0,
    disk (snd (run true)) = [(p1, with_weather)] /\
    disk (snd (run false)) = [(p0, without_weather)] /\
    (length (rows with_weather) <= length (rows without_weather))%nat.
Proof.
  intros srv run.
  assert (Hrun : run true = (inr tt, snd (run true))) by (vm_compute; reflexivity).
  destruct (weather_rows_bound srv client0 _ _ _ _ _ _ Hrun)
    as (fg & weather & merged & rq_w & w0 & gi & wi & lkeys & rkeys
        & Hplain & Hd0 & Hd1 & Hp & Hw & _ & Hwi & _ & Hrk & _ & Hle).
  exists merged, fg. eexists _, _.
  split; [exact Hd1|]. split; [unfold run; rewrite Hplain; exact Hd0|].
  apply Hle.
  unfold srv, canned_server, stat_type_of in Hw. rewrite Hp in Hw.
  vm_compute in Hw. injection Hw as <-.
  vm_compute in Hwi. injection Hwi as <-.
  vm_compute in Hrk. injection Hrk as <-.
  apply unique_keys_singleton.
Defined.

(** ** The indicator in the written file *)

Lemma join_rows_present (h : how) (w li : nat) (rkeys : list scalar)
    (rrows lrows : list (list json)) (lkeys : list scalar)
    (a r : list json) (k : scalar) :
  Forall2 (fun a k => key_of li a = Ok k) lrows lkeys ->
  a ∈ lrows -> key_of li a = Ok k -> r ∈ matches k rkeys rrows ->
  a ++ r ∈ concat (zip_with (join_row h w rkeys rrows) lkeys lrows).
Proof.
  intros Hkeys Ha Hk Hr. induction Hkeys as [|a0 k0 lrows lkeys Hk0 Hrest IH];
    [by apply elem_of_nil in Ha|].
  cbn [zip_with concat]. apply elem_of_app.
  apply elem_of_cons in Ha as [->|Ha]; [left|right; by apply IH].
  rewrite Hk in Hk0. unfold Ok in Hk0. injection Hk0 as <-.
  unfold join_row. destruct (matches k rkeys rrows) as [|r0 ms] eqn:E;
    [by apply elem_of_nil in Hr|].
  assert (Hin : a0 ++ r ∈ map (fun r1 => a0 ++ r1) (r0 :: ms)).
  { apply list_elem_of_In, in_map, list_elem_of_In, Hr. }
  by destruct h.
Qed.





(** ** purge_folder on a folder with a subdirectory *)

Lemma for_each_app {S A} (l1 l2 : list A) (body : A -> ST S unit) (s : S) :
  for_each (l1 ++ l2) body s =
  match for_each l1 body s with
  | (inl e, s') => (inl e, s')
  | (inr _, s') => for_each l2 body s'
  end.
Proof.
  revert s. induction l1 as [|x l1 IH]; intros s; cbn [app for_each].
  - reflexivity.
  - unfold mbind, ST_bind. destruct (body x s) as [[e|[]] s']; [done|apply IH].
Qed.

Lemma remove_at_cons (y : string) (q : path) (x : string)
    (es : list (string * node)) :
  remove_at (y :: q ++ [x]) (Dir es)
  = Dir (map (fun e => if entry_named y e
                       then (fst e, remove_at (q ++ [x]) (snd e)) else e) es).
Proof. cbn [remove_at]. by destruct q. Qed.

Lemma resolve_remove_at_parent (q : path) (x : string) (fs : node)
    (es : list (string * node)) :
  resolve q fs = Found (Dir es) ->
  resolve q (remove_at (q ++ [x]) fs)
  = Found (Dir (filter (fun e => negb (entry_named x e)) es)).
Proof.
  revert fs. induction q as [|y q IH]; intros fs.
  - cbn. by intros [= ->].
  - cbn [resolve]. destruct fs as [|t|es0]; [done|by destruct t|].
    destruct (child y es0) as [c|] eqn:Hc; [|done]. intros Hq.
    change ((y :: q) ++ [x]) with (y :: q ++ [x]).
    rewrite remove_at_cons, child_map_update, Hc. cbn. by apply IH.
Qed.

Lemma child_filter_self (x : string) (es : list (string * node)) :
  child x (filter (fun e => negb (entry_named x e)) es) = None.
Proof.
  unfold child. induction es as [|e es IH]; [done|].
  rewrite filter_cons. destruct (entry_named x e) eqn:E.
  - rewrite decide_False by (cbn; tauto). apply IH.
  - rewrite decide_True by done. cbn. by rewrite E.
Qed.

(** After a successful [rmdir] or [unlink] the path is gone. *)
Lemma resolve_remove_at_self (q : path) (x : string) (fs : node)
    (es : list (string * node)) :
  resolve q fs = Found (Dir es) ->
  resolve (q ++ [x]) (remove_at (q ++ [x]) fs) = ENOENT.
Proof.
  intros Hq. rewrite resolve_app, (resolve_remove_at_parent _ _ _ _ Hq).
  cbn. by rewrite child_filter_self.
Qed.

Lemma resolve_snoc_Found (q : path) (x : string) (fs n : node) :
  resolve (q ++ [x]) fs = Found n ->
  exists es, resolve q fs = Found (Dir es) /\ child x es = Some n.
Proof.
  rewrite resolve_app. destruct (resolve q fs) as [[|[]|es]| |]; cbn; try done.
  destruct (child x es) as [c|] eqn:E; [|done]. intros [= ->]. eauto.
Qed.

(** A call that returns normally on an existing folder has removed it. *)
Lemma purge_folder_removes (depth : nat) (folder : path) (fs fs' : node) :
  purge_folder depth folder fs = (inr tt, fs') ->
  path_exists folder fs = true ->
  resolve folder fs' = ENOENT.
Proof.
  destruct depth as [|depth]; [discriminate|].
  cbn [purge_folder]. unfold mbind at 1, ST_bind, ask. intros Hrun Hex.
  rewrite Hex in Hrun. cbn [negb] in Hrun.
  unfold mbind at 1, ST_bind in Hrun.
  destruct (rglob folder fs) as [[e|paths] fs1]; [discriminate|].
  unfold mbind at 1, ST_bind in Hrun.
  destruct (for_each paths _ fs1) as [[e|[]] fs2]; [discriminate|].
  unfold rmdir in Hrun.
  destruct (resolve folder fs2) as [[|t|[|e es]]| |] eqn:Hres; try discriminate.
  destruct (exists_last (l := folder)) as (q & x & ->).
  { intros ->. discriminate. }
  destruct (q ++ [x]) eqn:Eq; [by destruct q|]. rewrite <- Eq in *.
  injection Hrun as <-.
  apply resolve_snoc_Found in Hres as (es & Hq & _).
  by apply (resolve_remove_at_self _ _ _ es).
Qed.

Lemma purge_folder_unfold (depth : nat) (folder : path) :
  purge_folder (S depth) folder =
  (present ← ask (path_exists folder);
   if negb present then mret tt
   else
     paths ← rglob folder;
     _ ← for_each paths (purge_step depth);
     rmdir folder).
Proof. reflexivity. Qed.

Lemma purge_step_leaf (depth : nat) (q : path) (x : string) (fs : node)
    (es : list (string * node)) (n : node) :
  resolve q fs = Found (Dir es) -> child x es = Some n -> is_leaf n = true ->
  purge_step depth (q ++ [x]) fs = (inr tt, remove_at (q ++ [x]) fs).
Proof.
  intros Hq Hx Hn.
  assert (Hres : resolve (q ++ [x]) fs = Found n).
  { rewrite resolve_app, Hq. cbn. by rewrite Hx. }
  unfold purge_step, mbind, ST_bind, ask, path_is_file, path_is_symlink, unlink.
  rewrite Hres. destruct n as [|[]|]; cbn [orb]; rewrite ?Hres; done.
Qed.


Lemma filter_other_names (x : string) (es : list (string * node)) :
  x ∉ map fst es -> filter (fun e => negb (entry_named x e)) es = es.
Proof.
  induction es as [|e es IH]; [done|]. cbn [map].
  rewrite not_elem_of_cons. intros [Hne Hx]. rewrite filter_cons.
  rewrite decide_True; [by rewrite IH|].
  unfold entry_named. by destruct (String.eqb_spec x (fst e)).
Qed.

Lemma directories_Dir (p : path) (entries : list (string * node)) :
  directories p (Dir entries)
  = (p, entries) :: flat_map (fun e => directories (p ++ [fst e]) (snd e)) entries.
Proof. reflexivity. Qed.

Lemma child_head (x : string) (n : node) (es : list (string * node)) :
  child x ((x, n) :: es) = Some n.
Proof. unfold child, entry_named. cbn. by rewrite String.eqb_refl. Qed.



(** * Further properties *)

(** ** CFBDClient.get: what is sent and what is touched *)

Lemma fresh_loc_not_in (h : gmap nat (gmap string string)) (l : nat)
    (d : gmap string string) :
  h !! l = Some d -> fresh_loc h <> l.
Proof.
  intros Hl E. apply (is_fresh (dom h)). fold (fresh_loc h). rewrite E.
  apply elem_of_dom. eauto.
Qed.

(** X1.  Every request that [get] sends carries the client's
    Authorization header, with or without headers from the caller, and
    whatever the caller put under that key. *)
Theorem get_sends_authorization (srv : server) (self : CFBDClient)
    (subpath : string) (hdrs : option nat)
    (params : option (list (string * param))) (as_df : bool) (w : world)
    (d : gmap string string) (auth : string) :
  heap w !! headers self = Some d ->
  d !! "Authorization" = Some auth ->
  exists rq,
    log (snd (get srv self subpath hdrs params as_df w)) = log w ++ [rq] /\
    req_headers rq !! "Authorization" = Some auth.
Proof.
  intros Hself Hauth. destruct hdrs as [l|].
  - rewrite get_unfold. cbn [snd log]. eexists. split; [reflexivity|].
    cbn [req_headers]. apply lookup_union_Some_l.
    unfold deref. by rewrite Hself.
  - rewrite get_unfold_fresh, get_unfold. cbn [snd log]. eexists.
    split; [reflexivity|]. cbn [req_headers]. apply lookup_union_Some_l.
    unfold deref. cbn [heap].
    rewrite lookup_insert_ne by (by apply (fresh_loc_not_in _ _ d)).
    by rewrite Hself.
Qed.

Lemma get_sends_authorization_witness :
  exists rq,
    log (snd (get (canned_server (JArr []) (JArr []) (JArr [])) client0
                  "plays/stats" None None true world0)) = [rq] /\
    req_headers rq !! "Authorization" = Some "Bearer key".
Proof.
  destruct (get_sends_authorization (canned_server (JArr []) (JArr []) (JArr []))
              client0 "plays/stats" None None true world0
              {[ "Authorization" := "Bearer key" ]} "Bearer key" eq_refl eq_refl)
    as (rq & Hlog & Hauth).
  exists rq. split; [exact Hlog|exact Hauth].
Defined.

(** X2.  [get] changes no dict but the one the caller hands in: the
    client's own headers and every other dict are as before, also when the
    caller hands in the client's own dict. *)
Theorem get_preserves_other_dicts (srv : server) (self : CFBDClient)
    (subpath : string) (hdrs : option nat)
    (params : option (list (string * param))) (as_df : bool) (w : world)
    (l : nat) (d : gmap string string) :
  heap w !! l = Some d ->
  (hdrs = Some l -> l = headers self) ->
  heap (snd (get srv self subpath hdrs params as_df w)) !! l = Some d.
Proof.
  intros Hl Halias. destruct hdrs as [l0|].
  - rewrite get_unfold. cbn [snd heap].
    destruct (decide (l0 = l)) as [->|Hne].
    + rewrite lookup_insert_eq. rewrite <- (Halias eq_refl).
      unfold deref. rewrite Hl. cbn. f_equal. apply (idemp _).
    + by rewrite lookup_insert_ne.
  - rewrite get_unfold_fresh, get_unfold. cbn [snd heap].
    assert (fresh_loc (heap w) <> l) by (by apply (fresh_loc_not_in _ _ d)).
    by rewrite !lookup_insert_ne.
Qed.

Lemma get_preserves_other_dicts_witness :
  heap (snd (get (canned_server (JArr []) (JArr []) (JArr [])) client0
                 "plays/stats" (Some 0%nat) None true world0)) !! 0%nat
  = Some {[ "Authorization" := "Bearer key" ]}.
Proof.
  apply (get_preserves_other_dicts _ client0 _ (Some 0%nat) None true world0
           0%nat {[ "Authorization" := "Bearer key" ]} eq_refl).
  intros _. reflexivity.
Defined.

(** ** response_as_df: the frames it builds *)

(** X3.  Every frame that [response_as_df] returns has pairwise distinct
    column labels, and each of its rows has exactly one cell per label. *)
Theorem response_as_df_frame_invariant (j : json) (df : DataFrame) :
  response_as_df j = Ok df ->
  NoDup (columns df) /\
  Forall (fun row => length row = length (columns df)) (rows df).
Proof. intros H. by destruct (response_as_df_wf j df H). Qed.

Lemma response_as_df_frame_invariant_witness :
  NoDup (columns (frame_of_records [[("a", JNum 1)]; [("b", JNum 2); ("a", JNum 3)]])).
Proof.
  apply (response_as_df_frame_invariant
           (JArr [JObj [("a", JNum 1)]; JObj [("b", JNum 2); ("a", JNum 3)]])
           _ eq_refl).
Defined.

Lemma add_keys_app (d : record) (seen : list string) :
  exists more, add_keys seen d = seen ++ more.
Proof.
  revert seen. induction d as [|[k v] d IH]; intros seen; cbn.
  - exists []. by rewrite app_nil_r.
  - case_bool_decide; [apply IH|].
    destruct (IH (seen ++ [k])) as [more ->]. exists (k :: more).
    by rewrite <- app_assoc.
Qed.

Lemma add_keys_fresh (d : record) (seen : list string) :
  NoDup (seen ++ d.*1) -> add_keys seen d = seen ++ d.*1.
Proof.
  revert seen. induction d as [|[k v] d IH]; intros seen Hnd; cbn.
  - by rewrite app_nil_r.
  - rewrite bool_decide_false.
    + rewrite IH; rewrite <- app_assoc; done.
    + apply NoDup_app in Hnd as (_ & Hdisj & _). intros Hk.
      apply (Hdisj k Hk). left.
Qed.

Lemma fold_add_keys_app (rs : list record) (seen : list string) :
  exists more, fold_left add_keys rs seen = seen ++ more.
Proof.
  revert seen. induction rs as [|r rs IH]; intros seen; cbn.
  - exists []. by rewrite app_nil_r.
  - destruct (add_keys_app r seen) as [m1 ->].
    destruct (IH (seen ++ m1)) as [m2 ->]. exists (m1 ++ m2).
    by rewrite app_assoc.
Qed.

Lemma dict_get_values (d : record) :
  NoDup d.*1 -> map (fun c => default NaN (dict_get c d)) d.*1 = d.*2.
Proof.
  induction d as [|[k v] d IH]; [done|]. cbn [fmap list_fmap map fst snd].
  intros Hnd. apply NoDup_cons in Hnd as [Hk Hnd]. cbn [dict_get].
  rewrite String.eqb_refl. cbn. f_equal. rewrite <- IH by done.
  apply map_ext_in. intros c Hc%list_elem_of_In.
  destruct (String.eqb_spec c k) as [->|_]; [done|reflexivity].
Qed.

Lemma dict_get_missing (c : string) (d : record) :
  c ∉ d.*1 -> dict_get c d = None.
Proof.
  induction d as [|[k v] d IH]; [done|]. cbn. rewrite not_elem_of_cons.
  intros [Hne Hc]. destruct (String.eqb_spec c k); [done|by apply IH].
Qed.

(** X4.  A dict that is not a single key with a list value becomes a frame
    with exactly one row: its keys are the columns, in the dict's order,
    and its values the cells.  The empty dict gives one row without
    columns. *)
Theorem response_as_df_flat_dict (d : record) :
  NoDup d.*1 -> single_key_list d = None ->
  response_as_df (JObj d) = Ok (mkDF d.*1 [d.*2]).
Proof.
  intros Hnd Hflat. unfold response_as_df.
  rewrite response_sequence_dict, Hflat. cbn [pd_DataFrame as_records option_map].
  unfold frame_of_records, union_keys. cbn [fold_left map].
  rewrite (add_keys_fresh d []) by done. cbn [app].
  unfold row_of_record. by rewrite dict_get_values.
Qed.

Lemma response_as_df_flat_dict_witness :
  response_as_df (JObj [("year", JNum 2022); ("teams", JArr [])])
  = Ok (mkDF ["year"; "teams"] [[JNum 2022; JArr []]]).
Proof.
  apply (response_as_df_flat_dict [("year", JNum 2022); ("teams", JArr [])]).
  - apply (bool_decide_unpack _). reflexivity.
  - reflexivity.
Defined.

(** X5.  In the frame of a list of records the fields of the first record
    come first, in the record's order; the first row holds the record's
    values under them and NaN under every column that only later records
    bring. *)
Theorem response_as_df_first_record (r : record) (rs : list record)
    (df : DataFrame) :
  NoDup r.*1 ->
  response_as_df (JArr (JObj <$> (r :: rs))) = Ok df ->
  exists more,
    columns df = r.*1 ++ more /\
    head (rows df) = Some (r.*2 ++ replicate (length more) NaN).
Proof.
  intros Hnd. rewrite response_as_df_records. intros [= <-].
  unfold frame_of_records, union_keys. cbn [fold_left].
  rewrite (add_keys_fresh r []) by done. cbn [app].
  destruct (fold_add_keys_app rs r.*1) as [more Hmore].
  exists more. cbn [columns rows map head]. split; [done|]. f_equal.
  pose proof (fold_add_keys_NoDup rs r.*1 Hnd) as Hall. rewrite Hmore in Hall |- *.
  unfold row_of_record. rewrite map_app, dict_get_values by done. f_equal.
  apply NoDup_app in Hall as (_ & Hdisj & _).
  clear Hmore. induction more as [|c more IH]; [done|]. cbn [map length replicate].
  rewrite dict_get_missing.
  - cbn. f_equal. apply IH. intros x Hx Hin. apply (Hdisj x Hx). by right.
  - intros Hc. apply (Hdisj c Hc). left.
Qed.

Lemma response_as_df_first_record_witness :
  exists df more,
    response_as_df (JArr [JObj [("a", JNum 1)]; JObj [("b", JNum 2)]]) = Ok df /\
    columns df = ["a"] ++ more /\
    head (rows df) = Some ([JNum 1] ++ replicate (length more) NaN).
Proof.
  destruct (response_as_df_first_record [("a", JNum 1)] [[("b", JNum 2)]]
              (frame_of_records [[("a", JNum 1)]; [("b", JNum 2)]]))
    as (more & Hc & Hr).
  - apply (bool_decide_unpack _). reflexivity.
  - reflexivity.
  - eexists _, more. split; [reflexivity|]. split; [exact Hc|exact Hr].
Defined.

(** ** get_field_goal_data: requests sent and files written *)

(** The effects of one run of the weekly routine, raising or not. *)
Lemma get_field_goal_data_run (srv : server) (client : CFBDClient)
    (is_dir : string -> bool) (year week : Z) (folder : string)
    (flag : bool) (w : world) :
  exists r w' sent,
    get_field_goal_data srv client is_dir year week folder flag w = (r, w') /\
    log w' = log w ++ sent /\
    map call_of sent `prefix_of` planned_calls client year week flag /\
    (is_dir folder = false -> sent = []) /\
    match r with
    | inr _ =>
        is_dir folder = true /\
        map call_of sent = planned_calls client year week flag /\
        exists table,
          disk w' = ((folder ++ "/" ++ export_name year week flag)%string, table)
                    :: disk w
    | inl _ => disk w' = disk w
    end.
Proof.
  rewrite get_field_goal_data_unfold.
  destruct (is_dir folder) eqn:Hdir; cbn [negb].
  2:{ eexists _, w, []. split; [reflexivity|]. rewrite app_nil_r.
      split_and!; try done. apply prefix_nil. }
  cbv zeta.
  destruct (get_df_run srv client "plays/stats"
              (stats_params year week FIELD_GOAL_MADE) w)
    as (rq_m & w1 & -> & Hum & Hpm & Hl1 & Hd1).
  assert (Hcm : call_of rq_m = ((hostname client ++ "/" ++ "plays/stats")%string,
                                Some (stats_params year week FIELD_GOAL_MADE)))
    by (unfold call_of; by rewrite Hum, Hpm).
  destruct (table_of_response (srv rq_m)) as [e|makes].
  { eexists _, w1, [rq_m]. split; [reflexivity|]. split_and!; try done.
    cbn [map]. rewrite Hcm. unfold planned_calls. cbn [app].
    apply prefix_cons, prefix_nil. }
  destruct (get_df_run srv client "plays/stats"
              (stats_params year week FIELD_GOAL_ATTEMPT) w1)
    as (rq_a & w2 & -> & Hua & Hpa & Hl2 & Hd2).
  assert (Hca : call_of rq_a = ((hostname client ++ "/" ++ "plays/stats")%string,
                                Some (stats_params year week FIELD_GOAL_ATTEMPT)))
    by (unfold call_of; by rewrite Hua, Hpa).
  assert (Hlog2 : log w2 = log w ++ [rq_m; rq_a])
    by (rewrite Hl2, Hl1; by rewrite <- app_assoc).
  assert (Hpre2 : map call_of [rq_m; rq_a] `prefix_of` planned_calls client year week flag).
  { cbn [map]. rewrite Hcm, Hca. unfold planned_calls. by apply prefix_app_r. }
  assert (Hdisk2 : disk w2 = disk w) by (by rewrite Hd2, Hd1).
  destruct (table_of_response (srv rq_a)) as [e|attempts].
  { eexists _, w2, [rq_m; rq_a]. split; [reflexivity|]. by split_and!. }
  destruct (join_attempts_makes attempts makes) as [e|joined].
  { eexists _, w2, [rq_m; rq_a]. split; [reflexivity|]. by split_and!. }
  destruct (made_indicator joined) as [e|fg].
  { eexists _, w2, [rq_m; rq_a]. split; [reflexivity|]. by split_and!. }
  destruct flag; cbn [negb].
  - destruct (get_df_run srv client "games/weather" (weather_params year week) w2)
      as (rq_w & w3 & -> & Huw & Hpw & Hl3 & Hd3).
    assert (Hcw : call_of rq_w = ((hostname client ++ "/" ++ "games/weather")%string,
                                  Some (weather_params year week)))
      by (unfold call_of; by rewrite Huw, Hpw).
    assert (Hlog3 : log w3 = log w ++ [rq_m; rq_a; rq_w])
      by (rewrite Hl3, Hlog2; by rewrite <- app_assoc).
    assert (Hall : map call_of [rq_m; rq_a; rq_w] = planned_calls client year week true).
    { cbn [map]. by rewrite Hcm, Hca, Hcw. }
    assert (Hdisk3 : disk w3 = disk w) by (by rewrite Hd3).
    destruct (table_of_response (srv rq_w)) as [e|weather].
    { eexists _, w3, [rq_m; rq_a; rq_w]. split; [reflexivity|].
      split_and!; try done. by rewrite Hall. }
    destruct (join_weather fg weather) as [e|merged].
    { eexists _, w3, [rq_m; rq_a; rq_w]. split; [reflexivity|].
      split_and!; try done. by rewrite Hall. }
    unfold to_csv. eexists _, _, [rq_m; rq_a; rq_w]. split; [reflexivity|].
    cbn [log disk]. split_and!; try done.
    + by rewrite Hall.
    + exists merged. by rewrite Hdisk3.
  - unfold to_csv. eexists _, _, [rq_m; rq_a]. split; [reflexivity|].
    cbn [log disk]. split_and!; try done.
    + cbn [map]. by rewrite Hcm, Hca.
    + exists fg. by rewrite Hdisk2.
Qed.

(** X6.  A run of the weekly routine that raises, for whatever reason, has
    written no file; a run that returns has written exactly one, at the
    path named after year, week and flag in the export folder. *)
Theorem get_field_goal_data_writes_once (srv : server) (client : CFBDClient)
    (is_dir : string -> bool) (year week : Z) (folder : string)
    (flag : bool) (w : world) :
  match get_field_goal_data srv client is_dir year week folder flag w with
  | (inl _, w') => disk w' = disk w
  | (inr _, w') =>
      exists table,
        disk w' = ((folder ++ "/" ++ export_name year week flag)%string, table)
                  :: disk w
  end.
Proof.
  destruct (get_field_goal_data_run srv client is_dir year week folder flag w)
    as (r & w' & sent & -> & _ & _ & _ & Hr).
  destruct r as [e|[]]; [done|]. by destruct Hr as (_ & _ & Ht).
Qed.

(** X7.  Whatever the server answers, the requests of one run are an
    initial part of: the makes of the week, the attempts of the week and,
    with the weather flag, the weather of the week, each with the
    parameters of the source.  A run that returns has sent all of them, and
    a run on a path that is no directory has sent none. *)
Theorem get_field_goal_data_requests (srv : server) (client : CFBDClient)
    (is_dir : string -> bool) (year week : Z) (folder : string)
    (flag : bool) (w : world) :
  exists sent,
    log (snd (get_field_goal_data srv client is_dir year week folder flag w))
    = log w ++ sent /\
    map call_of sent `prefix_of` planned_calls client year week flag /\
    (is_ok (fst (get_field_goal_data srv client is_dir year week folder flag w))
       = true ->
     map call_of sent = planned_calls client year week flag) /\
    (is_dir folder = false -> sent = []).
Proof.
  destruct (get_field_goal_data_run srv client is_dir year week folder flag w)
    as (r & w' & sent & -> & Hlog & Hpre & Hdir & Hr).
  exists sent. cbn [fst snd]. split_and!; try done.
  destruct r as [e|[]]; [done|]. by destruct Hr as (_ & Hall & _).
Qed.
(** ** Export names *)

Lemma string_of_uint_no_underscore (d : Decimal.uint) :
  no_underscore (NilEmpty.string_of_uint d).
Proof.
  unfold no_underscore.
  induction d; cbn; constructor; try done.
Qed.

Lemma str_of_Z_no_underscore (z : Z) : no_underscore (str_of_Z z).
Proof.
  unfold str_of_Z, NilZero.string_of_int, NilZero.string_of_uint.
  destruct (Z.to_int z) as [d|d].
  - destruct d; try apply string_of_uint_no_underscore.
    unfold no_underscore. cbn. by constructor.
  - unfold no_underscore. cbn [list_ascii_of_string]. constructor; [done|].
    destruct d; try apply string_of_uint_no_underscore.
    cbn. by constructor.
Qed.

Lemma str_of_Z_inj (z z' : Z) : str_of_Z z = str_of_Z z' -> z = z'.
Proof.
  unfold str_of_Z. intros H. apply DecimalZ.to_int_inj.
  assert (Hn : forall n, Z.to_int n <> Decimal.Pos Decimal.Nil /\
                         Z.to_int n <> Decimal.Neg Decimal.Nil).
  { intros [|p|p]; cbn; split; try discriminate;
      intros [= E]; by apply (DecimalPos.Unsigned.to_uint_nonnil p). }
  pose proof (NilZero.isi (Z.to_int z) (proj1 (Hn z)) (proj2 (Hn z))) as H1.
  pose proof (NilZero.isi (Z.to_int z') (proj1 (Hn z')) (proj2 (Hn z'))) as H2.
  rewrite H in H1. rewrite H1 in H2. by injection H2.
Qed.

Lemma cut_at_underscore (a a' r r' : string) :
  no_underscore a -> no_underscore a' ->
  (a ++ String "_" r)%string = (a' ++ String "_" r')%string ->
  a = a' /\ r = r'.
Proof.
  unfold no_underscore. revert a'.
  induction a as [|c a IH]; intros [|c' a'] Ha Ha'; cbn.
  - by intros [= ->].
  - intros [= <- _]. by inversion Ha'.
  - intros [= -> _]. by inversion Ha.
  - intros [= -> E]. cbn in Ha, Ha'.
    destruct (IH a') as [-> ->]; [by inversion Ha|by inversion Ha'|done|done].
Qed.

Lemma append_inv_head (s a b : string) :
  (s ++ a)%string = (s ++ b)%string -> a = b.
Proof. induction s as [|c s IH]; cbn; [done|]. intros [= E]. by apply IH. Qed.

Lemma export_name_inj (y w y' w' : Z) (f f' : bool) :
  export_name y w f = export_name y' w' f' -> y = y' /\ w = w' /\ f = f'.
Proof.
  unfold export_name. intros H.
  apply (append_inv_head "fg_data_yr") in H.
  apply cut_at_underscore in H as [Hy H]; try apply str_of_Z_no_underscore.
  apply (append_inv_head "wk") in H.
  apply cut_at_underscore in H as [Hw H]; try apply str_of_Z_no_underscore.
  apply str_of_Z_inj in Hy, Hw. split_and!; try done.
  by destruct f, f'.
Qed.

(** X8.  The export path determines year, week and weather flag: within
    one folder, two runs of the weekly routine write to the same path only
    if they were asked for the same week with the same flag. *)
Theorem export_path_injective (folder : string) (y w y' w' : Z) (f f' : bool) :
  (folder ++ "/" ++ export_name y w f)%string
  = (folder ++ "/" ++ export_name y' w' f')%string ->
  y = y' /\ w = w' /\ f = f'.
Proof.
  intros H. apply append_inv_head in H. apply (append_inv_head "/") in H.
  by apply export_name_inj.
Qed.

Lemma export_path_injective_witness :
  2022 = 2022 /\ 5 = 5 /\ true = true.
Proof.
  apply (export_path_injective "dataset/data" 2022 5 2022 5 true true).
  reflexivity.
Defined.
(** ** get_field_goal_data_between *)

Lemma product_length (xs ys : list Z) :
  length (product xs ys) = (length xs * length ys)%nat.
Proof.
  unfold product. induction xs as [|x xs IH]; [done|].
  cbn [flat_map]. rewrite length_app, length_map, IH. cbn [length]. lia.
Qed.

Lemma product_nil_r (xs : list Z) : product xs [] = [].
Proof. unfold product. induction xs as [|x xs IH]; [done|]. by cbn. Qed.

Lemma elem_of_product (xs ys : list Z) (x y : Z) :
  (x, y) ∈ product xs ys <-> x ∈ xs /\ y ∈ ys.
Proof.
  unfold product. rewrite !list_elem_of_In, in_flat_map. split.
  - intros (x' & Hx & Hy). by apply in_map_iff in Hy as (y' & [= <- <-] & Hy).
  - intros [Hx Hy]. exists x. split; [done|].
    apply in_map_iff. by exists y.
Qed.

Lemma product_NoDup (xs ys : list Z) :
  NoDup xs -> NoDup ys -> NoDup (product xs ys).
Proof.
  intros Hxs Hys. unfold product.
  induction Hxs as [|x xs Hx Hxs IH]; [constructor|].
  cbn [flat_map]. apply NoDup_app. split_and!.
  - apply NoDup_fmap_2; [|done]. by intros y y' [= ->].
  - intros [x' y'] Hin Hin'.
    apply list_elem_of_fmap in Hin as (y & [= -> ->] & _).
    apply (elem_of_product xs ys x y) in Hin' as [Hin' _]. done.
  - exact IH.
Qed.

Lemma py_range_empty (start stop : Z) : stop <= start -> py_range start stop = [].
Proof.
  intros H. unfold py_range.
  replace (Z.to_nat (stop - start)) with 0%nat by lia. done.
Qed.

(** A loop that raises: the iterations before the failing one returned,
    and the exception and the final state are the failing iteration's. *)
Lemma for_each_raises {S A} (xs : list A) (body : A -> ST S unit)
    (w w' : S) (e : exn) :
  for_each xs body w = (inl e, w') ->
  exists done failed rest w_mid,
    xs = done ++ failed :: rest /\
    for_each done body w = (inr tt, w_mid) /\
    body failed w_mid = (inl e, w').
Proof.
  revert w. induction xs as [|x xs IH]; intros w; cbn [for_each].
  - discriminate.
  - unfold mbind, ST_bind. destruct (body x w) as [[e0|[]] w1] eqn:Hx.
    + intros [= <- <-]. exists [], x, xs, w. by split_and!.
    + intros H. destruct (IH _ H) as (done & failed & rest & w_mid & -> & Hd & Hf).
      exists (x :: done), failed, rest, w_mid. split_and!; try done.
      cbn [for_each]. unfold mbind, ST_bind. by rewrite Hx.
Qed.

Section Driver.

Variable srv : server.
Variable client : CFBDClient.
Variable is_dir : string -> bool.
Variable folder : string.

(** The iterations of the driver that returned: one file each, in the
    order of the pairs, and three requests each. *)
Lemma driver_returns (pairs : list (Z * Z)) (w w' : world) :
  for_each pairs (fun yw =>
    get_field_goal_data srv client is_dir (fst yw) (snd yw) folder true) w
  = (inr tt, w') ->
  exists files sent,
    disk w' = files ++ disk w /\
    map fst files = rev (map (export_path folder) pairs) /\
    log w' = log w ++ sent /\
    length sent = (3 * length pairs)%nat.
Proof.
  revert w. induction pairs as [|[y k] pairs IH]; intros w; cbn [for_each].
  - intros [= <-]. exists [], []. by rewrite app_nil_r.
  - unfold mbind, ST_bind. cbn [fst snd].
    destruct (get_field_goal_data_run srv client is_dir y k folder true w)
      as (r & w1 & sent1 & -> & Hlog1 & _ & _ & Hr).
    destruct r as [e|[]]; [discriminate|].
    destruct Hr as (_ & Hall & table & Hdisk1).
    intros H. destruct (IH _ H) as (files & sent & Hdisk & Hfiles & Hlog & Hlen).
    exists (files ++ [((folder ++ "/" ++ export_name y k true)%string, table)]),
           (sent1 ++ sent).
    split_and!.
    + rewrite Hdisk, Hdisk1. by rewrite <- app_assoc.
    + rewrite map_app, Hfiles. cbn [map rev fst]. done.
    + rewrite Hlog, Hlog1. by rewrite <- app_assoc.
    + rewrite length_app, Hlen.
      apply (f_equal (@length _)) in Hall. rewrite length_map in Hall.
      rewrite Hall. cbn [length planned_calls app]. lia.
Qed.

End Driver.

(** X9.  A run of the driver that returns has written one file for every
    (year, week) pair, weather flag set, in the order of the product with
    the year outermost, on top of what was on disk before, and has sent
    three requests per pair. *)
Theorem get_field_goal_data_between_writes_all (srv : server)
    (client : CFBDClient) (is_dir : string -> bool)
    (year_span week_span : list Z) (folder : string) (w w' : world) :
  get_field_goal_data_between srv client is_dir year_span week_span folder w
  = (inr tt, w') ->
  exists files sent,
    disk w' = files ++ disk w /\
    map fst files = rev (map (export_path folder) (product year_span week_span)) /\
    length files = (length year_span * length week_span)%nat /\
    log w' = log w ++ sent /\
    length sent = (3 * (length year_span * length week_span))%nat.
Proof.
  intros H. apply driver_returns in H as (files & sent & Hd & Hf & Hl & Hs).
  exists files, sent. rewrite <- product_length. split_and!; try done.
  apply (f_equal (@length _)) in Hf.
  by rewrite length_map, length_rev, length_map in Hf.
Qed.

Lemma get_field_goal_data_between_writes_all_witness :
  let srv := canned_server (JArr [make_record 7 1 "Field Goal Made"])
               (JArr [attempt_record 7 1; attempt_record 8 2])
               (JArr [weather_record 1]) in
  exists files,
    disk (snd (get_field_goal_data_between srv client0 (fun _ => true)
                 [2022] [5; 6] "data" world0)) = files /\
    map fst files = ["data/fg_data_yr2022_wk6_wt1.csv";
                     "data/fg_data_yr2022_wk5_wt1.csv"].
Proof.
  intros srv.
  pose (run := get_field_goal_data_between srv client0 (fun _ => true)
                 [2022] [5; 6] "data" world0).
  assert (Hrun : run = (inr tt, snd run)) by (vm_compute; reflexivity).
  destruct (get_field_goal_data_between_writes_all srv client0 _ _ _ _ _ _ Hrun)
    as (files & sent & Hd & Hf & _).
  exists files. fold run. split.
  - rewrite Hd. apply app_nil_r.
  - exact Hf.
Defined.

(** X10.  A run of the driver that raises stopped at the first pair whose
    weekly routine raised: the exception is that routine's, the files of
    all pairs before it are on disk, and no later pair was started. *)
Theorem get_field_goal_data_between_stops_at_failure (srv : server)
    (client : CFBDClient) (is_dir : string -> bool)
    (year_span week_span : list Z) (folder : string) (w w' : world) (e : exn) :
  get_field_goal_data_between srv client is_dir year_span week_span folder w
  = (inl e, w') ->
  exists done failed rest w_mid files,
    product year_span week_span = done ++ failed :: rest /\
    get_field_goal_data srv client is_dir (fst failed) (snd failed) folder true
      w_mid = (inl e, w') /\
    disk w_mid = files ++ disk w /\
    map fst files = rev (map (export_path folder) done) /\
    disk w' = disk w_mid.
Proof.
  intros H. apply for_each_raises in H
    as (done & failed & rest & w_mid & Hsplit & Hdone & Hfail).
  apply driver_returns in Hdone as (files & sent & Hd & Hf & _).
  exists done, failed, rest, w_mid, files. split_and!; try done.
  destruct (get_field_goal_data_run srv client is_dir
              (fst failed) (snd failed) folder true w_mid)
    as (r & w'' & sent' & Hrun & _ & _ & _ & Hr).
  rewrite Hfail in Hrun. injection Hrun as <- <-. exact Hr.
Qed.

Lemma get_field_goal_data_between_stops_at_failure_witness :
  let srv := canned_server (JArr []) (JArr [attempt_record 8 2])
               (JArr [weather_record 1]) in
  exists e w' done failed rest w_mid,
    get_field_goal_data_between srv client0 (fun _ => true)
      [2022] [5; 6] "data" world0 = (inl e, w') /\
    product [2022] [5; 6] = done ++ failed :: rest /\
    get_field_goal_data srv client0 (fun _ => true) (fst failed) (snd failed)
      "data" true w_mid = (inl e, w') /\
    disk w' = disk w_mid.
Proof.
  intros srv.
  pose (run := get_field_goal_data_between srv client0 (fun _ => true)
                 [2022] [5; 6] "data" world0).
  assert (Hrun : run = (inl (KeyError "playId"), snd run))
    by (vm_compute; reflexivity).
  destruct (get_field_goal_data_between_stops_at_failure srv client0 _ _ _ _ _ _ _ Hrun)
    as (done & failed & rest & w_mid & files & Hsplit & Hfail & Hd & Hf & Hsame).
  exists (KeyError "playId"), (snd run), done, failed, rest, w_mid.
  split; [exact Hrun|]. split; [exact Hsplit|]. split; [exact Hfail|exact Hsame].
Defined.

(** X11.  With no repeated year and no repeated week in the spans, the
    files of a run of the driver that returns have pairwise distinct
    paths: no week's file is overwritten by another week's. *)
Theorem get_field_goal_data_between_distinct_files (srv : server)
    (client : CFBDClient) (is_dir : string -> bool)
    (year_span week_span : list Z) (folder : string) (w w' : world) :
  NoDup year_span -> NoDup week_span ->
  get_field_goal_data_between srv client is_dir year_span week_span folder w
  = (inr tt, w') ->
  exists files,
    disk w' = files ++ disk w /\
    length files = (length year_span * length week_span)%nat /\
    NoDup (map fst files).
Proof.
  intros Hy Hk H. apply driver_returns in H as (files & sent & Hd & Hf & _).
  exists files. split_and!; try done.
  - apply (f_equal (@length _)) in Hf.
    rewrite length_map, length_rev, length_map, product_length in Hf. done.
  - rewrite Hf. apply NoDup_ListNoDup, List.NoDup_rev, NoDup_ListNoDup. apply NoDup_fmap_2; [|by apply product_NoDup].
    intros [y k] [y' k'] E. unfold export_path in E. cbn [fst snd] in E.
    apply append_inv_head in E. apply (append_inv_head "/") in E.
    apply export_name_inj in E as (-> & -> & _). done.
Qed.

Lemma get_field_goal_data_between_distinct_files_witness :
  let srv := canned_server (JArr [make_record 7 1 "Field Goal Made"])
               (JArr [attempt_record 7 1; attempt_record 8 2])
               (JArr [weather_record 1]) in
  exists files,
    disk (snd (get_field_goal_data_between srv client0 (fun _ => true)
                 (py_range 2021 2023) (py_range 4 6) "data" world0)) = files /\
    length files = 4%nat /\ NoDup (map fst files).
Proof.
  intros srv.
  pose (run := get_field_goal_data_between srv client0 (fun _ => true)
                 (py_range 2021 2023) (py_range 4 6) "data" world0).
  assert (Hrun : run = (inr tt, snd run)) by (vm_compute; reflexivity).
  destruct (get_field_goal_data_between_distinct_files srv client0 _
              (py_range 2021 2023) (py_range 4 6) _ _ _
              ltac:(apply (bool_decide_unpack _); vm_compute; reflexivity)
              ltac:(apply (bool_decide_unpack _); vm_compute; reflexivity) Hrun)
    as (files & Hd & Hlen & Hnd).
  exists files. fold run. split; [rewrite Hd; apply app_nil_r|]. split; done.
Defined.

(** X12.  An empty span, of years or of weeks, makes the driver return at
    once: nothing is requested and nothing is written, also when the
    export folder does not exist. *)
Theorem get_field_goal_data_between_empty_span (srv : server)
    (client : CFBDClient) (is_dir : string -> bool)
    (y0 y1 k0 k1 : Z) (folder : string) (w : world) :
  y1 <= y0 \/ k1 <= k0 ->
  get_field_goal_data_between srv client is_dir (py_range y0 y1) (py_range k0 k1)
    folder w = (inr tt, w).
Proof.
  unfold get_field_goal_data_between. intros [H|H].
  - by rewrite (py_range_empty _ _ H).
  - by rewrite (py_range_empty k0 k1 H), product_nil_r.
Qed.

Lemma get_field_goal_data_between_empty_span_witness :
  get_field_goal_data_between (canned_server (JArr []) (JArr []) (JArr []))
    client0 (fun _ => false) (py_range 2021 2025) (py_range 16 16) "data" world0
  = (inr tt, world0).
Proof.
  apply get_field_goal_data_between_empty_span. right. lia.
Defined.

(** ** get_field_goal_data: a frame without the join columns *)

(** X13.  When the makes of the week come back as a table without a
    [playId] or without a [statType] column, as they do for the empty list
    of a week without a made field goal, the routine raises KeyError after
    both fetches and writes no file. *)
Theorem get_field_goal_data_makes_without_keys (srv : server)
    (client : CFBDClient) (is_dir : string -> bool) (year week : Z)
    (folder : string) (flag : bool) (w : world) (makes : DataFrame) :
  is_dir folder = true ->
  (forall rq, req_params rq = Some (stats_params year week FIELD_GOAL_MADE) ->
              table_of_response (srv rq) = Ok makes) ->
  (forall rq, req_params rq = Some (stats_params year week FIELD_GOAL_ATTEMPT) ->
              is_ok (table_of_response (srv rq)) = true) ->
  ~ ("playId" ∈ columns makes /\ "statType" ∈ columns makes) ->
  exists key w',
    get_field_goal_data srv client is_dir year week folder flag w
    = (inl (KeyError key), w') /\
    key ∈ ["playId"; "statType"] /\
    (key ∉ columns makes) /\
    disk w' = disk w /\
    length (log w') = (length (log w) + 2)%nat.
Proof.
  intros Hdir Hm Ha Hmissing. rewrite get_field_goal_data_unfold, Hdir.
  cbn [negb]. cbv zeta.
  destruct (get_df_run srv client "plays/stats"
              (stats_params year week FIELD_GOAL_MADE) w)
    as (rq_m & w1 & -> & _ & Hpm & Hl1 & Hd1).
  rewrite (Hm rq_m Hpm). unfold Ok.
  destruct (get_df_run srv client "plays/stats"
              (stats_params year week FIELD_GOAL_ATTEMPT) w1)
    as (rq_a & w2 & -> & _ & Hpa & Hl2 & Hd2).
  specialize (Ha rq_a Hpa).
  destruct (table_of_response (srv rq_a)) as [e|attempts]; [discriminate|].
  destruct (table_of_response_wf _ _ (Hm rq_m Hpm)) as [_ Hnd].
  unfold join_attempts_makes, getitems.
  rewrite (proj2 (unique_labels_NoDup _) Hnd). cbn [negb filter].
  assert (Hstate : disk w2 = disk w /\ length (log w2) = (length (log w) + 2)%nat).
  { split; [by rewrite Hd2, Hd1|]. rewrite Hl2, Hl1, !length_app. cbn. lia. }
  rewrite !filter_cons, filter_nil. cbn beta.
  destruct (has_label "playId" (columns makes)) eqn:Hp; cbn [negb].
  - destruct (decide (Is_true false)) as [[]|_].
    destruct (has_label "statType" (columns makes)) eqn:Hs; cbn [negb].
    + destruct Hmissing. split; by apply has_label_elem.
    + destruct (decide (Is_true true)) as [_|[]]; [|exact I].
      cbn [mbind result_bind rbind Raise].
      exists "statType", w2. split_and!; try tauto.
      * right. left.
      * intros Hin%has_label_elem. congruence.
  - destruct (decide (Is_true true)) as [_|[]]; [|exact I].
    cbn [mbind result_bind rbind Raise].
    exists "playId", w2. split_and!; try tauto.
    + left.
    + intros Hin%has_label_elem. congruence.
Qed.

Lemma get_field_goal_data_makes_without_keys_witness :
  exists key w',
    get_field_goal_data (canned_server (JArr []) (JArr [attempt_record 8 2])
                           (JArr [weather_record 2]))
      client0 (fun _ => true) 2022 0 "data" true world0
    = (inl (KeyError key), w') /\
    disk w' = [].
Proof.
  destruct (get_field_goal_data_makes_without_keys
              (canned_server (JArr []) (JArr [attempt_record 8 2])
                 (JArr [weather_record 2]))
              client0 (fun _ => true) 2022 0 "data" true world0 (mkDF [] []))
    as (key & w' & Hrun & _ & _ & Hdisk & _).
  - reflexivity.
  - intros rq Hp. unfold canned_server, stat_type_of. rewrite Hp. reflexivity.
  - intros rq Hp. unfold canned_server, stat_type_of. rewrite Hp. reflexivity.
  - intros [H _]. cbn in H. by apply elem_of_nil in H.
  - exists key, w'. split; [exact Hrun|exact Hdisk].
Defined.
(** ** The weather join, row by row *)

Lemma cells_by_label (cols cs : list string) (idx : list nat) (m : list json) :
  Forall2 (fun c i => label_index c cols = Some i) cs idx ->
  map (fun i => cell_at i m) idx
  = map (fun c => match label_index c cols with
                  | Some i => cell_at i m
                  | None => NaN
                  end) cs.
Proof.
  induction 1 as [|c i cs idx Hc Hrest IH]; [done|].
  cbn [map]. by rewrite Hc, IH.
Qed.

(** X14.  The rows of the weather-enabled table are exactly the pairs of a
    field-goal row and a weather row whose [gameId] and [id] are equal: the
    field-goal row followed by the kept weather cells, without the [id],
    which is no column of the result. *)
Theorem join_weather_pairs (fg weather merged : DataFrame) :
  join_weather fg weather = Ok merged -> well_formed fg ->
  exists gi wi,
    label_index "gameId" (columns fg) = Some gi /\
    label_index "id" (columns weather) = Some wi /\
    ("id" ∉ columns merged) /\
    forall row,
      row ∈ rows merged <->
      exists f m, f ∈ rows fg /\ m ∈ rows weather /\
                  key_match (cell_at gi f) (cell_at wi m) /\
                  row = f ++ weather_cells weather m.
Proof.
  unfold join_weather. intros Hrun Hwf.
  destruct (getitems weather weather_columns_to_keep) as [e|right] eqn:Hsel;
    [discriminate|].
  cbn [mbind result_bind rbind] in Hrun.
  destruct (pd_merge fg right HowInner "gameId" "id") as [e|merged0] eqn:Hm;
    [discriminate|].
  cbn [mbind result_bind rbind] in Hrun.
  apply getitems_Ok in Hsel as (_ & idx & Hidx & ->).
  inversion Hidx as [|? wi ? idx' Hwi Hidx']; subst. clear Hidx.
  apply pd_merge_Ok in Hm
    as (gi & ri & lkeys & rkeys & Hufg & _ & Hgi & Hri & Hlk & Hrk & Hall & ->).
  cbn in Hri. injection Hri as <-.
  cbn [columns rows String.eqb Ascii.eqb Bool.eqb] in Hall, Hrun, Hrk.
  change (if false then _ else weather_columns_to_keep)
    with weather_columns_to_keep in *.
  set (g := fun row : list json => map (fun i => cell_at i row) (wi :: idx')) in *.
  change (if false then _ else map g (rows weather)) with (map g (rows weather)) in *.
  set (overlap := filter (fun c => has_label c weather_columns_to_keep) (columns fg)) in *.
  set (llabels := map (suffixed overlap "_x") (columns fg)) in *.
  set (rlabels := map (suffixed overlap "_y") weather_columns_to_keep) in *.
  apply drop_column_Ok in Hrun as (n & Hn & ->). cbn [columns rows] in Hn |- *.
  assert (Hnoid : "id" ∉ columns fg).
  { intros Hin.
    assert (Hov : has_label "id" overlap = true).
    { apply has_label_elem, list_elem_of_filter. split; [|done].
      apply Is_true_true. reflexivity. }
    assert (Hnone : label_index "id" (llabels ++ rlabels) = None).
    { apply label_index_None. intros [H|H]%elem_of_app;
        apply list_elem_of_In, in_map_iff in H as (c & Hc & _);
        revert Hc; apply suffixed_ne_id; auto. }
    congruence. }
  assert (Hl : "id" ∉ llabels).
  { intros H. apply list_elem_of_In, in_map_iff in H as (c & Hc & Hin).
    revert Hc. apply suffixed_ne_id; [auto|]. right. intros ->.
    by apply Hnoid, list_elem_of_In. }
  assert (Hr : rlabels = "id" :: map (suffixed overlap "_y") (tail weather_columns_to_keep)).
  { unfold rlabels. cbn [weather_columns_to_keep map tail]. f_equal.
    unfold suffixed. destruct (has_label "id" overlap) eqn:E; [|done].
    apply has_label_elem, list_elem_of_filter in E as [_ E]. done. }
  assert (Hnn : n = length llabels).
  { rewrite label_index_app_r, Hr in Hn by done. cbn in Hn.
    injection Hn as <-. lia. }
  subst n. apply keys_of_Forall2 in Hlk as Hl2.
  assert (Hr2 : Forall2 (fun m k' => key_of wi m = Ok k') (rows weather) rkeys).
  { apply keys_of_Forall2. unfold keys_of in Hrk |- *.
    by rewrite (mapM_result_map (key_of 0)) in Hrk. }
  assert (Hcells : forall m, tail (g m) = weather_cells weather m).
  { intros m. unfold g, weather_cells. cbn [map tail].
    by apply cells_by_label. }
  assert (Hdrop : forall f m, f ∈ rows fg ->
            remove_nth (length llabels) (f ++ g m) = f ++ weather_cells weather m).
  { intros f m Hf. unfold well_formed in Hwf. rewrite Forall_forall in Hwf.
    unfold llabels. rewrite length_map, <- (Hwf f Hf), <- Hcells.
    unfold g. cbn [map tail]. apply remove_nth_app_last. }
  exists gi, wi. split_and!; try done.
  - rewrite Hr, remove_nth_app_last. rewrite Hr in Hall.
    intros [H|H]%elem_of_app; [done|].
    apply NoDup_app in Hall as (_ & _ & Hnd). apply NoDup_cons in Hnd as [Hnd _].
    done.
  - intros row. split.
    + intros Hrow.
      apply list_elem_of_In, in_map_iff in Hrow as (row0 & <- & Hrow0).
      apply list_elem_of_In in Hrow0.
      apply (join_rows_elem _ _ gi) in Hrow0 as (f & k & Hf & Hk & Hrow0); [|done].
      apply join_row_elem in Hrow0 as [(r & Hr0 & ->)|(? & _)]; [|done].
      apply (matches_elem wi g) in Hr0 as (m & k' & Hm & Hk' & Heq & ->); [|done].
      exists f, m. split_and!; try done.
      * exists k, k'. split_and!; [by apply key_of_Ok|by apply key_of_Ok|done].
      * by apply Hdrop.
    + intros (f & m & Hf & Hm & (k & k' & Hk & Hk' & Heq) & ->).
      rewrite <- (Hdrop f m Hf).
      apply list_elem_of_In, in_map_iff. eexists. split; [reflexivity|].
      apply list_elem_of_In.
      apply (join_rows_present _ _ gi _ _ _ _ _ _ k); try done.
      * by apply key_of_Ok.
      * apply (matches_some wi g _ _ _ k'); try done. by apply key_of_Ok.
Qed.

Lemma join_weather_pairs_witness :
  let fg := mkDF ["gameId"; "playId"; "made"]
              [[JNum 1; JNum 7; JNum 1]; [JNum 2; JNum 8; JNum 0]] in
  let weather := frame_of_records
                   [match weather_record 1 with JObj r => r | _ => [] end] in
  exists merged,
    join_weather fg weather = Ok merged /\
    ("id" ∉ columns merged) /\
    forall row, row ∈ rows merged -> exists f, f ∈ rows fg /\ take 3 row = f.
Proof.
  intros fg weather.
  assert (Hrun : join_weather fg weather
                 = Ok (match join_weather fg weather with
                       | inr df => df | inl _ => mkDF [] [] end))
    by (vm_compute; reflexivity).
  destruct (join_weather_pairs fg weather _ Hrun) as (gi & wi & _ & _ & Hid & Hrows).
  - unfold well_formed. repeat constructor.
  - eexists. split; [exact Hrun|]. split; [exact Hid|].
    intros row Hrow. apply Hrows in Hrow as (f & m & Hf & _ & _ & ->).
    exists f. split; [done|].
    repeat (apply elem_of_cons in Hf as [->|Hf]; [reflexivity|]).
    by apply elem_of_nil in Hf.
Defined.

(** ** merge_csvs: the listing and merging in stages *)

Lemma sorted_unique (l1 l2 : folder_listing) :
  StronglySorted name_le l1 -> StronglySorted name_le l2 ->
  l1 ≡ₚ l2 -> NoDup (map fst l1) -> l1 = l2.
Proof.
  intros H1. revert l2.
  induction H1 as [|a l1 Hs1 IH Ha]; intros l2 H2 Hperm Hnd.
  - by apply Permutation_nil_l in Hperm.
  - destruct H2 as [|b l2 Hs2 Hb].
    { by apply Permutation_nil_r in Hperm. }
    assert (Hab : a = b).
    { assert (Hbin : b ∈ a :: l1) by (rewrite Hperm; left).
      assert (Hain : a ∈ b :: l2) by (rewrite <- Hperm; left).
      apply elem_of_cons in Hbin as [->|Hbin]; [done|].
      apply elem_of_cons in Hain as [->|Hain]; [done|].
      rewrite Forall_forall in Ha, Hb.
      assert (Hn : fst a = fst b).
      { apply String.leb_antisym; [apply (Ha b)|apply (Hb a)];
          done. }
      cbn [map] in Hnd. apply NoDup_cons in Hnd as [Hnot _].
      destruct Hnot. rewrite Hn. apply list_elem_of_In, in_map.
      by apply list_elem_of_In. }
    subst b. f_equal. apply IH; [done| |].
    + by apply Permutation_cons_inv in Hperm.
    + cbn [map] in Hnd. by apply NoDup_cons in Hnd as [_ Hnd].
Qed.

Lemma sorted_of_perm (l l' : folder_listing) :
  NoDup (map fst l) -> l ≡ₚ l' -> sorted l = sorted l'.
Proof.
  intros Hnd Hperm. apply sorted_unique; try apply sorted_StronglySorted.
  - by rewrite !sorted_perm.
  - change (map fst (sorted l)) with (fst <$> sorted l).
    rewrite sorted_perm. exact Hnd.
Qed.

(** X15.  The merged file does not depend on the order in which the
    folder lists its files, nor on files whose names do not end in
    [.csv]: two folders with the same CSV files, names distinct, are
    merged alike, success or failure. *)
Theorem merge_csvs_listing_order (dir dir' : folder_listing)
    (out : export_slot) :
  NoDup (map fst (glob_csv dir)) ->
  glob_csv dir ≡ₚ glob_csv dir' ->
  merge_csvs dir out = merge_csvs dir' out.
Proof.
  intros Hnd Hperm. unfold merge_csvs.
  by rewrite (sorted_of_perm _ _ Hnd Hperm).
Qed.

Lemma merge_csvs_listing_order_witness :
  merge_csvs [("b.csv", [["h"]; ["2"]]); ("notes.txt", []); ("a.csv", [["h"]; ["1"]])]
             None
  = merge_csvs [("a.csv", [["h"]; ["1"]]); ("b.csv", [["h"]; ["2"]])] None.
Proof.
  apply merge_csvs_listing_order.
  - apply (bool_decide_unpack _). vm_compute. reflexivity.
  - vm_compute. apply perm_swap.
Defined.

Lemma glob_csv_app (a b : folder_listing) :
  glob_csv (a ++ b) = glob_csv a ++ glob_csv b.
Proof. exact (filter_app _ a b). Qed.

Lemma glob_csv_cons (f : string * csv_file) (l : folder_listing) :
  glob_csv (f :: l) = if is_csv_name (fst f) then f :: glob_csv l else glob_csv l.
Proof.
  unfold glob_csv, folder_listing, is_csv_name. rewrite filter_cons.
  destruct (ends_with _ _); by destruct (decide _).
Qed.

Lemma insert_sorted_app (f : string * csv_file) (a b : folder_listing) :
  Forall (name_le f) b -> insert_sorted f (a ++ b) = insert_sorted f a ++ b.
Proof.
  intros Hb. induction a as [|x a IH]; cbn [app insert_sorted].
  - destruct b as [|g b]; [done|]. cbn [insert_sorted].
    apply Forall_cons in Hb as [Hg _]. unfold name_le in Hg. by rewrite Hg.
  - destruct (String.leb (fst f) (fst x)); [done|]. by rewrite IH.
Qed.

Lemma sorted_app (l1 l2 : folder_listing) :
  (forall f g, f ∈ l1 -> g ∈ l2 -> name_le f g) ->
  sorted (l1 ++ l2) = sorted l1 ++ sorted l2.
Proof.
  induction l1 as [|f l1 IH]; intros Hle; [done|].
  cbn [app]. unfold sorted in *. cbn [foldr]. rewrite IH.
  - apply insert_sorted_app. apply Forall_forall. intros g Hg.
    apply Hle; [left|]. fold (sorted l2) in Hg. by rewrite sorted_perm in Hg.
  - intros f' g Hf' Hg. apply Hle; [by right|done].
Qed.

Lemma merge_loop_index (files : folder_listing) (i j : nat) (h : option csv_row)
    (acc : list csv_row) :
  merge_loop (S i) files h acc = merge_loop (S j) files h acc.
Proof.
  revert i j acc. induction files as [|[name file] files IH]; intros i j acc;
    [done|].
  cbn [merge_loop]. destruct (next_row file) as [e|[fh reader]]; [done|].
  cbn [mbind result_bind rbind Nat.eqb].
  destruct (negb (bool_decide (Some fh = h))); [done|]. apply IH.
Qed.

Lemma merge_loop_app (a b : folder_listing) (i : nat) (h : csv_row)
    (acc : list csv_row) :
  Forall (fun f => header_of f = Some h) a ->
  merge_loop (S i) (a ++ b) (Some h) acc
  = merge_loop (S i) b (Some h) (acc ++ concat (map data_rows a)).
Proof.
  revert i acc. induction a as [|[name file] a IH]; intros i acc Hall.
  - cbn. by rewrite app_nil_r.
  - apply Forall_cons in Hall as [Hf Hall].
    destruct file as [|r rest]; [discriminate|]. injection Hf as ->.
    cbn [app merge_loop next_row]. cbn [mbind result_bind rbind Ok Nat.eqb].
    rewrite bool_decide_true by done. cbn [negb].
    rewrite IH by done. rewrite (merge_loop_index b (S i) i).
    cbn [map concat]. unfold data_rows at 2. cbn [snd tail].
    by rewrite app_assoc.
Qed.

(** X16.  Merging in stages: when a first batch of files has been merged
    into one file and that file takes the batch's place, under a name that
    like the batch's names sorts before the files of a second batch, the
    merge of the two is the merge of all files at once, whether it writes
    or raises. *)
Theorem merge_csvs_in_stages (batch1 batch2 : folder_listing)
    (name : string) (merged : csv_file) (out0 out : export_slot) :
  merge_csvs batch1 out0 = (inr tt, Some merged) ->
  is_csv_name name = true ->
  (forall f g, f ∈ glob_csv batch1 -> g ∈ glob_csv batch2 -> name_le f g) ->
  (forall g, g ∈ glob_csv batch2 -> name_le (name, merged) g) ->
  merge_csvs ((name, merged) :: batch2) out = merge_csvs (batch1 ++ batch2) out.
Proof.
  intros Hrun Hcsv Hle Hname.
  destruct (sorted (glob_csv batch1)) as [|first rest] eqn:Hs1.
  { by rewrite (merge_csvs_empty _ _ Hs1) in Hrun. }
  rewrite (merge_csvs_cons _ _ _ _ Hs1) in Hrun.
  destruct (header_of first) as [h|] eqn:Hh; [|discriminate].
  destruct (decide (Forall (fun f => header_of f = Some h) rest)) as [Hall|Hnot].
  2:{ destruct (merge_loop_error rest 0 h (data_rows first) Hnot) as (e & He & _).
      by rewrite He in Hrun. }
  rewrite merge_loop_ok in Hrun by done. unfold Ok in Hrun.
  injection Hrun as <-.
  (* the two listings, sorted *)
  assert (Hall_sorted : sorted (glob_csv (batch1 ++ batch2))
                        = first :: rest ++ sorted (glob_csv batch2)).
  { rewrite glob_csv_app, sorted_app by done. by rewrite Hs1. }
  assert (Hstaged : sorted (glob_csv ((name, h :: data_rows first
                                        ++ concat (map data_rows rest)) :: batch2))
                    = (name, h :: data_rows first ++ concat (map data_rows rest))
                      :: sorted (glob_csv batch2)).
  { rewrite glob_csv_cons. cbn [fst]. rewrite Hcsv.
    change (sorted (?f :: ?l)) with (insert_sorted f (sorted l)).
    rewrite <- (app_nil_l (sorted (glob_csv batch2))) at 1.
    rewrite insert_sorted_app; [done|].
    apply Forall_forall. intros g Hg. apply Hname.
    by rewrite sorted_perm in Hg. }
  rewrite (merge_csvs_cons _ _ _ _ Hall_sorted), (merge_csvs_cons _ _ _ _ Hstaged).
  rewrite Hh. unfold header_of at 1. cbn [snd head].
  unfold data_rows at 1. cbn [snd tail].
  by rewrite merge_loop_app.
Qed.

Lemma merge_csvs_in_stages_witness :
  merge_csvs [("ab.csv", [["h"]; ["1"]; ["2"]]); ("c.csv", [["h"]; ["3"]])] None
  = merge_csvs [("a.csv", [["h"]; ["1"]]); ("b.csv", [["h"]; ["2"]]);
                ("c.csv", [["h"]; ["3"]])] None.
Proof.
  apply (merge_csvs_in_stages
           [("a.csv", [["h"]; ["1"]]); ("b.csv", [["h"]; ["2"]])]
           [("c.csv", [["h"]; ["3"]])] "ab.csv" _ None None).
  - reflexivity.
  - reflexivity.
  - intros f g Hf Hg. vm_compute in Hg. apply list_elem_of_singleton in Hg as ->.
    vm_compute in Hf.
    repeat (apply elem_of_cons in Hf as [->|Hf]; [reflexivity|]).
    by apply elem_of_nil in Hf.
  - intros g Hg. vm_compute in Hg. apply list_elem_of_singleton in Hg as ->.
    reflexivity.
Defined.

(** ** purge_folder: folders of files and links, and regular files *)

Lemma child_filter_other (x y : string) (es : list (string * node)) :
  y <> x -> child y (filter (fun e => negb (entry_named x e)) es) = child y es.
Proof.
  intros Hne. unfold child. induction es as [|e es IH]; [done|].
  rewrite filter_cons. destruct (entry_named x e) eqn:E; cbn [negb].
  - destruct (decide (Is_true false)) as [[]|_]. rewrite IH. cbn [find].
    unfold entry_named in *. apply String.eqb_eq in E. subst x.
    by rewrite (proj2 (String.eqb_neq _ _) Hne).
  - destruct (decide (Is_true true)) as [_|[]]; [|exact I]. cbn [find].
    destruct (entry_named y e); [done|]. exact IH.
Qed.

Lemma child_map_other (x y : string) (f : node -> node)
    (es : list (string * node)) :
  y <> x ->
  child y (map (fun e => if entry_named x e then (fst e, f (snd e)) else e) es)
  = child y es.
Proof.
  intros Hne. unfold child. induction es as [|e es IH]; [done|].
  cbn [map find]. destruct (entry_named x e) eqn:E.
  - unfold entry_named in *. cbn [fst]. apply String.eqb_eq in E. subst x.
    rewrite (proj2 (String.eqb_neq _ _) Hne). exact IH.
  - destruct (entry_named y e); [done|]. exact IH.
Qed.

(** Removing an entry changes nothing at the paths that are neither at or
    below it nor above it. *)
Lemma resolve_remove_at_other (q p : path) (fs : node) :
  ~ q `prefix_of` p -> ~ p `prefix_of` q ->
  resolve p (remove_at q fs) = resolve p fs.
Proof.
  revert p fs. induction q as [|x q IH]; intros p fs Hqp Hpq.
  - destruct Hqp. apply prefix_nil.
  - destruct p as [|y p]; [destruct Hpq; apply prefix_nil|].
    destruct fs as [|t|es]; [by destruct q..|].
    destruct (decide (y = x)) as [->|Hne].
    + assert (Hq' : ~ q `prefix_of` p) by (intros H; by apply Hqp, prefix_cons).
      assert (Hp' : ~ p `prefix_of` q) by (intros H; by apply Hpq, prefix_cons).
      destruct q as [|z q]; [destruct Hq'; apply prefix_nil|].
      change (remove_at (x :: z :: q) (Dir es))
        with (Dir (map (fun e => if entry_named x e
                                 then (fst e, remove_at (z :: q) (snd e)) else e) es)).
      cbn [resolve]. rewrite child_map_update.
      destruct (child x es) as [c|]; [|done]. cbn. by apply IH.
    + destruct q as [|z q].
      * cbn [remove_at resolve]. by rewrite child_filter_other.
      * change (remove_at (x :: z :: q) (Dir es))
          with (Dir (map (fun e => if entry_named x e
                                   then (fst e, remove_at (z :: q) (snd e)) else e) es)).
        cbn [resolve]. by rewrite child_map_other.
Qed.

Lemma filter_map_named (y : string) (f : node -> node)
    (es : list (string * node)) :
  filter (fun e => negb (entry_named y e))
         (map (fun e => if entry_named y e then (fst e, f (snd e)) else e) es)
  = filter (fun e => negb (entry_named y e)) es.
Proof.
  induction es as [|e es IH]; [done|]. cbn [map]. rewrite !filter_cons.
  destruct (entry_named y e) eqn:E.
  - assert (E' : entry_named y (fst e, f (snd e)) = true) by exact E.
    rewrite E'. cbn [negb]. by destruct (decide (Is_true false)) as [[]|_].
  - rewrite E. cbn [negb]. destruct (decide (Is_true true)) as [_|[]]; [|exact I].
    by rewrite IH.
Qed.

(** Removing a folder after one of its entries is removing the folder. *)
Lemma remove_at_absorb (q : path) (x : string) (fs : node) :
  q <> [] -> remove_at q (remove_at (q ++ [x]) fs) = remove_at q fs.
Proof.
  revert fs. induction q as [|y q IH]; intros fs Hq; [done|].
  destruct fs as [|t|es]; [by destruct q..|].
  cbn [app]. rewrite remove_at_cons.
  destruct q as [|z q].
  - cbn [remove_at]. by rewrite filter_map_named.
  - change (remove_at (y :: z :: q) (Dir ?l))
      with (Dir (map (fun e => if entry_named y e
                               then (fst e, remove_at (z :: q) (snd e)) else e) l)).
    f_equal. rewrite map_map. apply map_ext. intros e.
    destruct (entry_named y e) eqn:E.
    + assert (E' : entry_named y (fst e, remove_at ((z :: q) ++ [x]) (snd e)) = true)
        by exact E.
      rewrite E'. cbn [fst snd]. by rewrite IH.
    + by rewrite E.
Qed.

(** The loop of [purge_folder] over a folder of files and links. *)
Lemma purge_loop_leaves (depth : nat) (q : path) (es : list (string * node)) :
  forall fs : node,
    q <> [] ->
    resolve q fs = Found (Dir es) ->
    Forall (fun e => is_leaf (snd e) = true) es ->
    NoDup (map fst es) ->
    exists fs',
      for_each (map (fun e => q ++ [fst e]) es) (purge_step depth) fs = (inr tt, fs') /\
      resolve q fs' = Found (Dir []) /\
      remove_at q fs' = remove_at q fs.
Proof.
  induction es as [|[x n] es IH]; intros fs Hne Hq Hleaf Hnd.
  - exists fs. by split_and!.
  - cbn [map for_each fst]. unfold mbind, ST_bind.
    apply Forall_cons in Hleaf as [Hn Hleaf]. cbn [snd] in Hn.
    rewrite (purge_step_leaf depth q x fs _ n Hq (child_head _ _ _) Hn).
    cbn [map fst] in Hnd. apply NoDup_cons in Hnd as [Hx Hnd].
    destruct (IH (remove_at (q ++ [x]) fs)) as (fs' & Hrun & Hres & Hrem); try done.
    + rewrite (resolve_remove_at_parent _ _ _ _ Hq). do 2 f_equal.
      rewrite filter_cons. rewrite decide_False.
      2:{ unfold entry_named. cbn. rewrite String.eqb_refl. cbn. tauto. }
      by apply filter_other_names.
    + exists fs'. split_and!; try done. rewrite Hrem. by apply remove_at_absorb.
Qed.

Lemma directories_leaves (p : path) (es : list (string * node)) :
  Forall (fun e => is_leaf (snd e) = true) es ->
  directories p (Dir es) = [(p, es)].
Proof.
  intros Hleaf. rewrite directories_Dir. f_equal.
  induction Hleaf as [|[x n] es Hn _ IH]; [done|].
  cbn [flat_map fst snd]. rewrite IH. by destruct n.
Qed.

(** [purge_folder] on a folder of files and links. *)
Lemma purge_folder_leaves (depth : nat) (folder : path) (fs : node)
    (es : list (string * node)) :
  folder <> [] ->
  resolve folder fs = Found (Dir es) ->
  Forall (fun e => is_leaf (snd e) = true) es ->
  NoDup (map fst es) ->
  purge_folder (S depth) folder fs = (inr tt, remove_at folder fs).
Proof.
  intros Hne Hres Hleaf Hnd. rewrite purge_folder_unfold.
  unfold mbind at 1, ST_bind, ask, path_exists. rewrite Hres. cbn [negb].
  unfold mbind at 1, ST_bind, rglob. rewrite Hres.
  rewrite (directories_leaves _ _ Hleaf). cbn [flat_map fst snd]. rewrite app_nil_r.
  unfold mbind, ST_bind.
  destruct (purge_loop_leaves depth folder es fs Hne Hres Hleaf Hnd)
    as (fs' & Hloop & Hempty & Hrem).
  match goal with
  | |- context [@for_each ?S ?A ?l ?b fs] =>
      replace (@for_each S A l b fs) with (@inr exn unit tt, fs') by (by rewrite <- Hloop)
  end.
  unfold rmdir. rewrite Hempty, Hrem. by destruct folder.
Qed.


(** X17.  [purge_folder] on a folder that holds files and links only, as
    the export folder of the pipeline does: the call returns, the folder
    is gone, and every path that is neither below the folder nor leads to
    it is as before. *)
Theorem purge_folder_flat_folder (depth : nat) (folder : path) (fs : node)
    (es : list (string * node)) :
  folder <> [] ->
  resolve folder fs = Found (Dir es) ->
  Forall (fun e => is_leaf (snd e) = true) es ->
  NoDup (map fst es) ->
  exists fs',
    purge_folder (S depth) folder fs = (inr tt, fs') /\
    resolve folder fs' = ENOENT /\
    forall p, ~ folder `prefix_of` p -> ~ p `prefix_of` folder ->
              resolve p fs' = resolve p fs.
Proof.
  intros Hne Hres Hleaf Hnd. exists (remove_at folder fs). split_and!.
  - by apply (purge_folder_leaves depth folder fs es).
  - destruct (exists_last Hne) as (q & x & ->).
    destruct (resolve_snoc_Found _ _ _ _ Hres) as (es' & Hq & _).
    by apply (resolve_remove_at_self q x fs es').
  - intros p Hfp Hpf. by apply resolve_remove_at_other.
Qed.

Lemma purge_folder_flat_folder_witness :
  let fs := Dir [("dataset", Dir [("data", Dir [("wk1.csv", File);
                                                ("latest", Symlink ToFile)]);
                                  ("fg_data.csv", File)])] in
  exists fs',
    purge_folder 1 ["dataset"; "data"] fs = (inr tt, fs') /\
    resolve ["dataset"; "data"] fs' = ENOENT /\
    resolve ["dataset"; "fg_data.csv"] fs' = Found File.
Proof.
  intros fs.
  destruct (purge_folder_flat_folder 0 ["dataset"; "data"] fs
              [("wk1.csv", File); ("latest", Symlink ToFile)])
    as (fs' & Hrun & Hgone & Hframe).
  - discriminate.
  - reflexivity.
  - repeat constructor.
  - apply (bool_decide_unpack _). vm_compute. reflexivity.
  - exists fs'. split; [exact Hrun|]. split; [exact Hgone|].
    rewrite Hframe; [reflexivity| |].
    + apply (bool_decide_unpack _). vm_compute. reflexivity.
    + apply (bool_decide_unpack _). vm_compute. reflexivity.
Defined.



(** X19.  [purge_folder] on a regular file, or on a link to one, deletes
    nothing: the listing is empty and [folder.rmdir()] raises
    NotADirectoryError. *)
Theorem purge_folder_on_file (depth : nat) (folder : path) (fs n : node) :
  resolve folder fs = Found n ->
  n = File \/ n = Symlink ToFile ->
  purge_folder (S depth) folder fs = (inl NotADirectoryError, fs).
Proof.
  intros Hres Hn. rewrite purge_folder_unfold.
  unfold mbind, ST_bind, ask, path_exists, rglob, rmdir.
  destruct Hn as [-> | ->]; cbv beta; rewrite !Hres; cbn [negb]; rewrite ?Hres.
  - change (directories folder File) with (@nil (path * list (string * node))).
    cbn [flat_map for_each]. unfold mret, ST_ret. by rewrite Hres.
  - change (directories folder (Symlink ToFile))
      with (@nil (path * list (string * node))).
    cbn [flat_map for_each]. unfold mret, ST_ret. by rewrite Hres.
Qed.

Lemma purge_folder_on_file_witness :
  purge_folder 3 ["dataset"; "fg_data.csv"]
    (Dir [("dataset", Dir [("fg_data.csv", File)])])
  = (inl NotADirectoryError, Dir [("dataset", Dir [("fg_data.csv", File)])]).
Proof.
  apply (purge_folder_on_file 2 _ _ File); [reflexivity|by left].
Defined.

(** ** validate_dir: what exists is kept *)

(** X20.  [validate_dir] on a path that is there but is no directory
    raises and changes nothing: NotADirectoryError for a regular file or a
    link to one, and FileExistsError, from [mkdir], for a dangling link,
    which [exists()] reports as absent. *)
Theorem validate_dir_not_a_directory (folder : path) (fs n : node) :
  resolve folder fs = Found n ->
  is_leaf n = true ->
  validate_dir folder fs
  = (inl (match n with
          | Symlink Dangling => FileExistsError
          | _ => NotADirectoryError
          end), fs).
Proof.
  intros Hres Hn.
  unfold validate_dir, mbind, ST_bind, ask, path_exists, path_is_dir.
  rewrite Hres. destruct n as [|[]|es]; try discriminate; cbn [negb];
    rewrite ?Hres; try done.
  unfold mkdir_parents_exist_ok.
  assert (Hmk : os_mkdir folder fs = (inl FileExistsError, fs))
    by (unfold os_mkdir; by rewrite Hres).
  destruct (length folder) as [|k] eqn:Hlen.
  - apply length_zero_iff_nil in Hlen. subst folder. cbn in Hres.
    injection Hres as ->. reflexivity.
  - assert (Htake : take (S k) folder = folder)
      by (rewrite <- Hlen; apply firstn_all).
    cbn [mkdir_prefix]. cbv zeta. rewrite Htake, Hmk. unfold path_is_dir. by rewrite Hres.
Qed.

Lemma validate_dir_not_a_directory_witness :
  validate_dir ["dataset"; "data"]
    (Dir [("dataset", Dir [("data", Symlink Dangling)])])
  = (inl FileExistsError, Dir [("dataset", Dir [("data", Symlink Dangling)])]).
Proof.
  apply (validate_dir_not_a_directory _ _ (Symlink Dangling)); reflexivity.
Defined.

Lemma keeps_refl (fs : node) : keeps fs fs.
Proof. intros p n Hp. by exists n. Qed.

Lemma keeps_trans (a b c : node) : keeps a b -> keeps b c -> keeps a c.
Proof.
  intros Hab Hbc p n Hp.
  destruct (Hab p n Hp) as (n1 & H1 & Hk1 & He1).
  destruct (Hbc p n1 H1) as (n2 & H2 & Hk2 & He2).
  exists n2. split_and!; [done|congruence|].
  intros Hn. rewrite <- (He1 Hn). apply He2. by rewrite Hk1.
Qed.

Lemma child_app_old (y : string) (es more : list (string * node)) (c : node) :
  child y es = Some c -> child y (es ++ more) = Some c.
Proof.
  unfold child. induction es as [|e es IH]; [done|]. cbn [app find].
  destruct (entry_named y e); [done|]. exact IH.
Qed.

Lemma add_dir_at_keeps (q : path) (fs : node) : keeps fs (add_dir_at q fs).
Proof.
  revert fs. induction q as [|x q IH]; intros fs; [apply keeps_refl|].
  destruct fs as [|t|es]; try (destruct q; apply keeps_refl).
  intros p n Hp. destruct p as [|y p].
  - cbn in Hp. injection Hp as <-.
    destruct q; cbn [add_dir_at resolve]; eexists; (split; [reflexivity|]);
      by split.
  - cbn [resolve] in Hp. destruct (child y es) as [c|] eqn:Hc; [|done].
    destruct q as [|z q].
    + cbn [add_dir_at resolve]. rewrite (child_app_old _ _ _ _ Hc). by exists n.
    + change (add_dir_at (x :: z :: q) (Dir es))
        with (Dir (map (fun e => if entry_named x e
                                 then (fst e, add_dir_at (z :: q) (snd e)) else e) es)).
      cbn [resolve]. destruct (decide (y = x)) as [->|Hne].
      * rewrite child_map_update, Hc. cbn. by apply IH.
      * rewrite child_map_other, Hc by done. by exists n.
Qed.

Lemma os_mkdir_keeps (p : path) (fs fs' : node) (r : result unit) :
  os_mkdir p fs = (r, fs') -> keeps fs fs'.
Proof.
  unfold os_mkdir.
  destruct (resolve p fs) as [n| |]; try (intros [= _ <-]; apply keeps_refl).
  destruct (resolve (removelast p) fs) as [[|[]|]| |];
    intros [= _ <-]; try apply keeps_refl. apply add_dir_at_keeps.
Qed.

Lemma mkdir_exist_ok_keeps (p : path) (fs fs' : node) (r : result unit) :
  mkdir_exist_ok p fs = (r, fs') -> keeps fs fs'.
Proof.
  unfold mkdir_exist_ok. destruct (os_mkdir p fs) as [[e|[]] fs1] eqn:Hmk.
  - destruct (path_is_dir p fs1); intros [= _ <-]; by apply os_mkdir_keeps in Hmk.
  - intros [= _ <-]. by apply os_mkdir_keeps in Hmk.
Qed.

Lemma mkdir_prefix_keeps (k : nat) (p : path) (fs fs' : node) (r : result unit) :
  mkdir_prefix k p fs = (r, fs') -> keeps fs fs'.
Proof.
  revert fs fs' r. induction k as [|k IH]; intros fs fs' r; cbn [mkdir_prefix].
  - destruct (os_mkdir (take 0 p) fs) as [[e|[]] fs1] eqn:Hmk;
      apply os_mkdir_keeps in Hmk.
    + destruct e; try (destruct (path_is_dir _ fs1)); by intros [= _ <-].
    + by intros [= _ <-].
  - destruct (os_mkdir (take (S k) p) fs) as [[e|[]] fs1] eqn:Hmk;
      apply os_mkdir_keeps in Hmk.
    + destruct e; try (destruct (path_is_dir _ fs1); by intros [= _ <-]).
      unfold mbind, ST_bind.
      destruct (mkdir_prefix k p fs1) as [[e|[]] fs2] eqn:Hrec;
        apply IH in Hrec.
      * intros [= _ <-]. by apply (keeps_trans _ fs1).
      * intros Hok%mkdir_exist_ok_keeps.
        apply (keeps_trans _ fs1); [done|]. by apply (keeps_trans _ fs2).
    + by intros [= _ <-].
Qed.

(** X21.  [validate_dir] deletes and replaces nothing, whether it returns
    or raises: every path that led somewhere before the call leads to a
    node of the same kind after it, and a file or link is untouched. *)
Theorem validate_dir_keeps_entries (folder : path) (fs fs' : node)
    (r : result unit) (p : path) (n : node) :
  validate_dir folder fs = (r, fs') ->
  resolve p fs = Found n ->
  exists n',
    resolve p fs' = Found n' /\
    is_leaf n' = is_leaf n /\
    (is_leaf n = true -> n' = n).
Proof.
  intros Hrun. revert p n. change (keeps fs fs').
  unfold validate_dir, mbind, ST_bind, ask in Hrun.
  destruct (path_exists folder fs); cbn [negb] in Hrun.
  - destruct (path_is_dir folder fs); cbn [negb] in Hrun;
      injection Hrun as _ <-; apply keeps_refl.
  - by apply mkdir_prefix_keeps in Hrun.
Qed.

Lemma validate_dir_keeps_entries_witness :
  exists fs',
    snd (validate_dir ["dataset"; "data"; "raw"]
           (Dir [("dataset", Dir [("fg_data.csv", File)])])) = fs' /\
    resolve ["dataset"; "fg_data.csv"] fs' = Found File.
Proof.
  eexists. split; [reflexivity|].
  destruct (validate_dir_keeps_entries ["dataset"; "data"; "raw"]
              (Dir [("dataset", Dir [("fg_data.csv", File)])]) _ _
              ["dataset"; "fg_data.csv"] File
              (surjective_pairing _) eq_refl)
    as (n' & Hres & _ & Hsame).
  rewrite Hres. f_equal. by apply Hsame.
Defined.

(** X22.  Making and purging: [validate_dir] on a new name in an existing
    directory followed by [purge_folder] on the same path both return, and
    the directory has the entries it had before. *)
Theorem validate_dir_then_purge_folder (depth : nat) (q : path) (x : string)
    (fs : node) (es : list (string * node)) :
  resolve q fs = Found (Dir es) -> child x es = None ->
  exists fs1 fs2,
    validate_dir (q ++ [x]) fs = (inr tt, fs1) /\
    path_is_dir (q ++ [x]) fs1 = true /\
    purge_folder (S depth) (q ++ [x]) fs1 = (inr tt, fs2) /\
    resolve q fs2 = Found (Dir es) /\
    path_exists (q ++ [x]) fs2 = false.
Proof.
  intros Hq Hx.
  assert (Hnew : resolve (q ++ [x]) (add_dir_at (q ++ [x]) fs) = Found (Dir []))
    by (by apply (resolve_add_dir_at q x fs es)).
  assert (Hne : q ++ [x] <> []) by (by destruct q).
  exists (add_dir_at (q ++ [x]) fs),
         (remove_at (q ++ [x]) (add_dir_at (q ++ [x]) fs)).
  split_and!.
  - unfold validate_dir, mbind, ST_bind, ask, path_exists.
    rewrite (resolve_below_missing q x [] fs es Hq Hx). cbn [negb].
    unfold mkdir_parents_exist_ok.
    destruct (length (q ++ [x])) as [|k] eqn:Hlen.
    { rewrite length_app in Hlen. cbn in Hlen. lia. }
    cbn [mkdir_prefix]. rewrite <- Hlen, firstn_all.
    by rewrite (os_mkdir_new q x fs es Hq Hx).
  - unfold path_is_dir. by rewrite Hnew.
  - by apply purge_folder_empty.
  - rewrite (resolve_remove_at_parent q x _ (es ++ [(x, Dir [])])).
    + do 2 f_equal. rewrite filter_app, filter_cons, filter_nil.
      rewrite decide_False.
      2:{ unfold entry_named. cbn. rewrite String.eqb_refl. cbn. tauto. }
      rewrite app_nil_r. apply filter_other_names.
      intros Hin. apply list_elem_of_fmap in Hin as ([y n] & -> & Hin).
      unfold child in Hx. cbn [fst] in Hx.
      destruct (find (entry_named y) es) as [e|] eqn:Hf; [discriminate|].
      apply list_elem_of_In in Hin.
      apply (find_none _ _ Hf) in Hin. unfold entry_named in Hin. cbn in Hin.
      by rewrite String.eqb_refl in Hin.
    + by apply resolve_add_dir_at_parent.
  - unfold path_exists.
    by rewrite (resolve_remove_at_self q x _ (es ++ [(x, Dir [])]))
      by (by apply resolve_add_dir_at_parent).
Qed.

Lemma validate_dir_then_purge_folder_witness :
  exists fs1 fs2,
    validate_dir ["dataset"; "data"] (Dir [("dataset", Dir [("fg_data.csv", File)])])
    = (inr tt, fs1) /\
    purge_folder 1 ["dataset"; "data"] fs1 = (inr tt, fs2) /\
    resolve ["dataset"] fs2 = Found (Dir [("fg_data.csv", File)]).
Proof.
  destruct (validate_dir_then_purge_folder 0 ["dataset"] "data"
              (Dir [("dataset", Dir [("fg_data.csv", File)])])
              [("fg_data.csv", File)] eq_refl eq_refl)
    as (fs1 & fs2 & H1 & _ & H2 & H3 & _).
  exists fs1, fs2. split; [exact H1|]. split; [exact H2|exact H3].
Defined.

(** ** A client over its lifetime *)

(** One call: the request carries the client's headers, and the client's
    own dict is as before. *)
Lemma get_client_dict (srv : server) (self : CFBDClient) (c : call) (w : world)
    (d : headers_dict) :
  heap w !! headers self = Some d ->
  let w' := snd (get srv self (call_subpath c) (call_headers c)
                     (call_params c) (call_as_df c) w) in
  heap w' !! headers self = Some d /\
  exists rq,
    log w' = log w ++ [rq] /\
    url rq = (hostname self ++ "/" ++ call_subpath c)%string /\
    d ⊆ req_headers rq.
Proof.
  intros Hself. destruct c as [subpath [l|] params as_df]; cbn [call_subpath
    call_headers call_params call_as_df]; cbv zeta.
  - rewrite get_unfold. cbn [snd heap log]. unfold deref at 1 2 3. rewrite Hself.
    cbn [default]. split.
    + destruct (decide (l = headers self)) as [->|Hne].
      * rewrite lookup_insert_eq. unfold deref. rewrite Hself. cbn. f_equal.
        apply (idemp _).
      * by rewrite lookup_insert_ne.
    + eexists. split; [reflexivity|]. cbn [url req_headers]. split; [done|].
      apply map_union_subseteq_l.
  - rewrite get_unfold_fresh, get_unfold. cbn [snd heap log].
    assert (Hfresh : fresh_loc (heap w) <> headers self)
      by (by apply (fresh_loc_not_in _ _ d)).
    unfold deref. cbn [heap]. rewrite !(lookup_insert_ne _ _ _ _ Hfresh), Hself.
    split; [done|]. eexists. split; [reflexivity|].
    cbn [url req_headers default]. split; [done|]. apply map_union_subseteq_l.
Qed.

(** X23.  The bearer token of a client is the one it was built with, for
    good: every request of every later call of [get] goes to a URL under
    the client's host and carries [Authorization: Bearer <token>], whatever
    headers the callers pass, the client's own dict included. *)
Theorem client_requests_carry_token (srv : server) (host token : string)
    (w0 w1 : world) (self : CFBDClient) (cs : list call) :
  CFBDClient_init host token w0 = (inr self, w1) ->
  exists sent,
    log (run_calls srv self cs w1) = log w1 ++ sent /\
    Forall2 (fun rq c =>
               url rq = (host ++ "/" ++ call_subpath c)%string /\
               req_headers rq !! "Authorization"
               = Some ("Bearer " ++ token)%string)
            sent cs.
Proof.
  intros Hinit.
  destruct (CFBDClient_init_headers host token w0)
    as (self' & w1' & Hinit' & Hhost & Hdict & _).
  rewrite Hinit in Hinit'. injection Hinit' as <- <-.
  clear Hinit. revert Hdict. generalize w1. clear w0 w1.
  induction cs as [|c cs IH]; intros w Hdict.
  - exists []. rewrite app_nil_r. by split.
  - destruct (get_client_dict srv self c w _ Hdict) as (Hkeep & rq & Hlog & Hurl & Hsub).
    cbv zeta in Hkeep.
    destruct (IH _ Hkeep) as (sent & Hlogs & Hall).
    exists (rq :: sent). split.
    + cbn [run_calls fold_left]. unfold run_calls in Hlogs. rewrite Hlogs, Hlog.
      by rewrite <- app_assoc.
    + constructor; [|done]. split; [by rewrite Hurl, Hhost|].
      eapply lookup_weaken; [|exact Hsub]. apply lookup_singleton_eq.
Qed.

Lemma client_requests_carry_token_witness :
  exists self w1 sent,
    CFBDClient_init "https://api.collegefootballdata.com/" "key"
      (mkWorld ∅ [] []) = (inr self, w1) /\
    log (run_calls (canned_server (JArr []) (JArr []) (JArr [])) self
           [mkCall "plays/stats" None None true;
            mkCall "games/weather" (Some (headers self)) None false] w1)
    = sent /\
    length sent = 2%nat.
Proof.
  eexists _, _, _. split; [reflexivity|]. split; [reflexivity|].
  match goal with
  | |- context [run_calls ?srv ?self ?cs ?w1] =>
      destruct (client_requests_carry_token srv
                  "https://api.collegefootballdata.com/" "key"
                  (mkWorld ∅ [] []) w1 self cs eq_refl) as (sent & Hlog & Hall)
  end.
  rewrite Hlog. cbn [log app]. apply Forall2_length in Hall. exact Hall.
Defined.

(** ** StatTypes *)

(** X24.  The stat ids of the enumeration are pairwise distinct and are
    exactly 1 to 25: looking a member up by its value gives the member
    back, no member is an alias of another, and any other number raises
    ValueError. *)
Theorem StatTypes_lookup_by_value (v : Z) :
  (forall m, StatTypes.of_value (StatTypes.value m) = Ok m) /\
  (forall m, StatTypes.of_value v = Ok m -> StatTypes.value m = v) /\
  (1 <= v <= 25 <-> is_ok (StatTypes.of_value v) = true) /\
  NoDup (map StatTypes.value StatTypes.members) /\
  (forall m, m ∈ StatTypes.members).
Proof.
  split_and!.
  - by intros [].
  - unfold StatTypes.of_value. intros m.
    destruct (find _ _) as [m'|] eqn:Hf; [|discriminate].
    intros [= <-]. apply find_some in Hf as [_ Hv]. by apply Z.eqb_eq in Hv.
  - split.
    + intros Hv.
      assert (Hcases : v = 1 \/ v = 2 \/ v = 3 \/ v = 4 \/ v = 5 \/ v = 6 \/ v = 7
                \/ v = 8 \/ v = 9 \/ v = 10 \/ v = 11 \/ v = 12 \/ v = 13 \/ v = 14
                \/ v = 15 \/ v = 16 \/ v = 17 \/ v = 18 \/ v = 19 \/ v = 20
                \/ v = 21 \/ v = 22 \/ v = 23 \/ v = 24 \/ v = 25) by lia.
      repeat (destruct Hcases as [->|Hcases]; [reflexivity|]). by subst v.
    + unfold StatTypes.of_value.
      destruct (find _ _) as [m|] eqn:Hf; [|discriminate]. intros _.
      apply find_some in Hf as [_ Hv]. apply Z.eqb_eq in Hv. subst v.
      destruct m; cbn; lia.
  - apply (bool_decide_unpack _). vm_compute. reflexivity.
  - intros []; unfold StatTypes.members;
      repeat (first [left; fail | right]).
Qed.

(** ** What holds whenever the directory utilities return *)

Lemma os_mkdir_made (p : path) (fs fs' : node) :
  os_mkdir p fs = (inr tt, fs') -> path_is_dir p fs' = true.
Proof.
  unfold os_mkdir. destruct (resolve p fs) as [n| |] eqn:Hp; try discriminate.
  destruct (resolve (removelast p) fs) as [[|[]|es]| |] eqn:Hq; try discriminate.
  intros [= <-].
  assert (Hne : p <> []) by (intros ->; discriminate).
  destruct (exists_last Hne) as (q & x & ->).
  rewrite removelast_last in Hq.
  assert (Hx : child x es = None).
  { rewrite resolve_app, Hq in Hp. cbn in Hp. by destruct (child x es). }
  unfold path_is_dir. by rewrite (resolve_add_dir_at q x fs es Hq Hx).
Qed.

Lemma mkdir_exist_ok_made (p : path) (fs fs' : node) :
  mkdir_exist_ok p fs = (inr tt, fs') -> path_is_dir p fs' = true.
Proof.
  unfold mkdir_exist_ok. destruct (os_mkdir p fs) as [[e|[]] fs1] eqn:Hmk.
  - destruct (path_is_dir p fs1) eqn:Hd; [|discriminate]. by intros [= <-].
  - intros [= <-]. by apply os_mkdir_made in Hmk.
Qed.

Lemma mkdir_prefix_made (k : nat) (p : path) (fs fs' : node) :
  mkdir_prefix k p fs = (inr tt, fs') -> path_is_dir (take k p) fs' = true.
Proof.
  destruct k as [|k]; cbn [mkdir_prefix]; cbv zeta.
  - destruct (os_mkdir (take 0 p) fs) as [[e|[]] fs1] eqn:Hmk.
    + destruct e; try discriminate;
        (destruct (path_is_dir (take 0 p) fs1) eqn:Hd; [|discriminate]);
        by intros [= <-].
    + intros [= <-]. by apply os_mkdir_made in Hmk.
  - destruct (os_mkdir (take (S k) p) fs) as [[e|[]] fs1] eqn:Hmk.
    + destruct e;
        try (destruct (path_is_dir (take (S k) p) fs1) eqn:Hd; [|discriminate];
             by intros [= <-]).
      unfold mbind, ST_bind.
      destruct (mkdir_prefix k p fs1) as [[e|[]] fs2]; [discriminate|].
      apply mkdir_exist_ok_made.
    + intros [= <-]. by apply os_mkdir_made in Hmk.
Qed.

(** X25.  Whenever [validate_dir] returns, the path is a directory. *)
Theorem validate_dir_returns_directory (folder : path) (fs fs' : node) :
  validate_dir folder fs = (inr tt, fs') -> path_is_dir folder fs' = true.
Proof.
  unfold validate_dir, mbind, ST_bind, ask.
  destruct (path_exists folder fs); cbn [negb].
  - destruct (path_is_dir folder fs) eqn:Hd; cbn [negb]; [|discriminate].
    by intros [= <-].
  - unfold mkdir_parents_exist_ok. intros H%mkdir_prefix_made.
    by rewrite firstn_all in H.
Qed.

Lemma validate_dir_returns_directory_witness :
  path_is_dir ["dataset"; "data"]
    (snd (validate_dir ["dataset"; "data"] (Dir [("src", Dir [])]))) = true.
Proof.
  apply (validate_dir_returns_directory _ (Dir [("src", Dir [])])).
  reflexivity.
Defined.

(** X26.  Whenever [purge_folder] returns, the path does not exist: it was
    absent from the start and nothing was touched, or it was there and is
    gone. *)
Theorem purge_folder_returns_absent (depth : nat) (folder : path)
    (fs fs' : node) :
  purge_folder depth folder fs = (inr tt, fs') ->
  path_exists folder fs' = false /\
  (path_exists folder fs = false -> fs' = fs).
Proof.
  intros Hrun. destruct (path_exists folder fs) eqn:Hex.
  - split; [|done]. unfold path_exists.
    by rewrite (purge_folder_removes depth folder fs fs' Hrun Hex).
  - destruct depth as [|depth]; [discriminate|].
    rewrite (purge_folder_missing depth folder fs Hex) in Hrun.
    injection Hrun as <-. by split.
Qed.

Lemma purge_folder_returns_absent_witness :
  path_exists ["data"]
    (snd (purge_folder 2 ["data"] (Dir [("data", Dir [("wk1.csv", File)])])))
  = false.
Proof.
  apply (purge_folder_returns_absent 2 ["data"]
           (Dir [("data", Dir [("wk1.csv", File)])])).
  reflexivity.
Defined.
(** ** The header of a weekly file *)

Lemma overlap_disjoint (others cols : list string) :
  (forall c, c ∈ cols -> c ∉ others) ->
  filter (fun c => has_label c others) cols = [].
Proof.
  intros Hdis. induction cols as [|c cols IH]; [done|].
  rewrite filter_cons. rewrite decide_False.
  - apply IH. intros c' Hc'. apply Hdis. by right.
  - intros Hc%Is_true_true%has_label_elem. apply (Hdis c); [left|done].
Qed.

Lemma suffixed_nil (sfx : string) (cols : list string) :
  map (suffixed [] sfx) cols = cols.
Proof. induction cols as [|c cols IH]; [done|]. cbn. by rewrite IH. Qed.

(** The labels after the weather join, when no label of the field-goal
    table is a weather label. *)
Lemma join_weather_columns (fg weather merged : DataFrame) :
  join_weather fg weather = Ok merged ->
  (forall c, c ∈ columns fg -> c ∉ weather_columns_to_keep) ->
  columns merged = columns fg ++ tail weather_columns_to_keep.
Proof.
  unfold join_weather. intros Hrun Hdis.
  destruct (getitems weather weather_columns_to_keep) as [e|right] eqn:Hsel;
    [discriminate|].
  cbn [mbind result_bind rbind] in Hrun.
  destruct (pd_merge fg right HowInner "gameId" "id") as [e|merged0] eqn:Hm;
    [discriminate|].
  cbn [mbind result_bind rbind] in Hrun.
  apply getitems_Ok in Hsel as (_ & idx & _ & ->).
  apply pd_merge_Ok in Hm
    as (gi & ri & lkeys & rkeys & _ & _ & _ & _ & _ & _ & _ & ->).
  cbn [columns rows String.eqb Ascii.eqb Bool.eqb] in Hrun.
  change (if false then _ else weather_columns_to_keep)
    with weather_columns_to_keep in *.
  rewrite (overlap_disjoint _ _ Hdis), !suffixed_nil in Hrun.
  apply drop_column_Ok in Hrun as (n & Hn & ->). cbn [columns] in Hn |- *.
  assert (Hid : "id" ∉ columns fg).
  { intros Hin. apply (Hdis _ Hin). left. }
  rewrite label_index_app_r in Hn by done. cbn in Hn. injection Hn as <-.
  rewrite Nat.add_0_r. apply remove_nth_app_last.
Qed.

(** X27.  The header of a weekly file is fixed by the fields of the
    attempts: when these include [statType] and none of them is named like
    a kept weather column, the file of a run that returns has the
    attempts' columns, then [made], then, with the weather flag, the kept
    weather columns without [id]. *)
Theorem get_field_goal_data_header (srv : server) (client : CFBDClient)
    (is_dir : string -> bool) (year week : Z) (folder : string)
    (flag : bool) (w w' : world) :
  get_field_goal_data srv client is_dir year week folder flag w = (inr tt, w') ->
  exists rq_a attempts table,
    req_params rq_a = Some (stats_params year week FIELD_GOAL_ATTEMPT) /\
    table_of_response (srv rq_a) = Ok attempts /\
    disk w' = ((folder ++ "/" ++ export_name year week flag)%string, table)
              :: disk w /\
    ("statType" ∈ columns attempts ->
     (forall c, c ∈ columns attempts -> c ∉ weather_columns_to_keep) ->
     columns table
     = columns attempts ++ ["made"]
       ++ (if flag then tail weather_columns_to_keep else [])).
Proof.
  intros Hrun.
  destruct (get_field_goal_data_written _ _ _ _ _ _ _ _ _ Hrun)
    as (rq_m & rq_a & makes & attempts & joined & fg & _ & _ & _ & Hpa & Ha
        & Hj & Hi & Hout).
  cbv zeta in Hout.
  destruct (table_of_response_wf _ _ Ha) as [Hwf _].
  assert (Hcols : "statType" ∈ columns attempts ->
                  columns fg = columns attempts ++ ["made"]).
  { intros Hst.
    by destruct (field_goals_rows _ _ _ _ Hj Hi Hst Hwf)
      as (li & mi & ml & _ & _ & _ & Hc & _). }
  destruct flag.
  - destruct Hout as (rq_w & weather & merged & _ & _ & Hjw & _ & Hdisk).
    exists rq_a, attempts, merged. split_and!; try done.
    intros Hst Hdis. rewrite (join_weather_columns _ _ _ Hjw).
    + rewrite (Hcols Hst). by rewrite <- app_assoc.
    + rewrite (Hcols Hst). intros c [Hc|Hc]%elem_of_app; [by apply Hdis|].
      apply list_elem_of_singleton in Hc as ->. unfold weather_columns_to_keep.
      rewrite !not_elem_of_cons; split_and!; try discriminate.
      apply not_elem_of_nil.
  - destruct Hout as [_ Hdisk]. exists rq_a, attempts, fg.
    split_and!; try done. intros Hst _. rewrite (Hcols Hst). by rewrite app_nil_r.
Qed.
